(** * porcupine IRC plugin: the channel-like views and the event loop

    A shallow embedding of [porcupine/plugins/irc/gui.py].

    - A Python [str] is a [string]; nicks and channel names are ASCII
      (RFC 1459), and on ASCII text [str.casefold] maps [A-Z] to [a-z],
      which is what [casefold] below does.  [<] on [str] is the code
      point order, i.e. [String.leb].
    - [list.sort] is stable; it is embedded as a stable insertion sort.
    - A [tkinter.Listbox] is its list of rows together with the selected
      row indices; a [tkinter.Text] is the list of (sender, message)
      lines appended to it (the wall-clock prefix of a line and the
      scrolling are display matters and are left out).
    - A [dict] is an association list in insertion order.
    - Python objects have identity: every [ChannelLikeView] carries the
      number [oid] it was allocated with, and [_current_channel_like]
      holds such a number, so [is] is equality of [oid]s.
    - An exception leaves the mutations made before it in place: the
      widget-level operations live in a state monad whose result is
      either a value or a raised exception, both next to the state. *)

From stdpp Require Import base decidable option list strings sorting gmap.
From Stdlib Require Import Ascii ZArith Lia.

#[local] Set Warnings "-clear-no-such-hyp".
#[local] Open Scope Z_scope.
#[local] Open Scope nat_scope.

(** ** Strings *)

Definition startswith (s : string) (c : ascii) : bool :=
  match s with
  | String c' _ => bool_decide (c' = c)
  | EmptyString => false
  end.

Definition casefold_ascii (c : ascii) : ascii :=
  let n := nat_of_ascii c in
  if (65 <=? n) && (n <=? 90) then ascii_of_nat (n + 32) else c.

Fixpoint casefold (s : string) : string :=
  match s with
  | EmptyString => EmptyString
  | String c s' => String (casefold_ascii c) (casefold s')
  end.

(** [' '.join(args)] *)
Fixpoint join (sep : string) (args : list string) : string :=
  match args with
  | [] => ""
  | [a] => a
  | a :: args' => a +:+ sep +:+ join sep args'
  end.

(** ** Lists *)

(** [l.index(x)]: the first position of [x], or nothing ([ValueError]). *)
Fixpoint list_index (x : string) (l : list string) : option nat :=
  match l with
  | [] => None
  | y :: l' => if decide (x = y) then Some 0 else S <$> list_index x l'
  end.

Section sort.
Context {A : Type} (key : A → string).

Definition key_le (x y : A) : Prop := String.leb (key x) (key y) = true.

Fixpoint sort_insert (x : A) (l : list A) : list A :=
  match l with
  | [] => [x]
  | y :: l' =>
      if String.leb (key x) (key y) then x :: l else y :: sort_insert x l'
  end.

(** [l.sort(key=key)]: equal keys keep their relative order. *)
Definition list_sort (l : list A) : list A := foldr sort_insert [] l.
End sort.

(** ** tkinter.Listbox *)

Record Listbox := mkListbox {
  lb_items : list string;
  lb_selection : list nat   (* selected rows, increasing *)
}.

Inductive tk_index :=
  | tk_end
  | tk_int (i : Z).

Fixpoint sel_add (i : nat) (sel : list nat) : list nat :=
  match sel with
  | [] => [i]
  | j :: sel' =>
      if decide (i < j) then i :: sel
      else if decide (i = j) then sel
      else j :: sel_add i sel'
  end.

Definition lb_new (rows : list string) : Listbox := mkListbox rows [].

(** [lb.insert(i, x)]: [x] becomes row [i]; past the last row it is
    appended.  Selected rows keep their selection and move down. *)
Definition lb_insert (i : nat) (x : string) (lb : Listbox) : Listbox :=
  mkListbox (take i (lb_items lb) ++ x :: drop i (lb_items lb))
            ((λ j, if decide (i ≤ j) then S j else j) <$> lb_selection lb).

Definition lb_insert_end (x : string) (lb : Listbox) : Listbox :=
  lb_insert (length (lb_items lb)) x lb.

(** [lb.delete(i)]: the selection of row [i] is dropped, later rows move
    up. *)
Definition lb_delete (i : nat) (lb : Listbox) : Listbox :=
  mkListbox (delete i (lb_items lb))
            (omap (λ j, if decide (j < i) then Some j
                        else if decide (j = i) then None
                        else Some (pred j)) (lb_selection lb)).

(** [lb.get(i)]: the empty string when there is no such row. *)
Definition lb_get (i : nat) (lb : Listbox) : string :=
  default "" (lb_items lb !! i).

Definition lb_curselection (lb : Listbox) : list nat := lb_selection lb.

Definition lb_selection_clear (lb : Listbox) : Listbox :=
  mkListbox (lb_items lb) [].

(** [lb.selection_set(i)]: ['end'] is the last row; an index that names
    no row selects nothing. *)
Definition lb_selection_set (i : tk_index) (lb : Listbox) : Listbox :=
  let n := length (lb_items lb) in
  match i with
  | tk_end =>
      match n with
      | 0 => lb
      | S m => mkListbox (lb_items lb) (sel_add m (lb_selection lb))
      end
  | tk_int z =>
      if bool_decide (0 ≤ z < Z.of_nat n)%Z
      then mkListbox (lb_items lb) (sel_add (Z.to_nat z) (lb_selection lb))
      else lb
  end.

(** ** Exceptions *)

Inductive exn := AssertionError | ValueError | KeyError | AttributeError.

Inductive res (A : Type) :=
  | Ok (a : A)
  | Raise (e : exn).
Arguments Ok {A} a.
Arguments Raise {A} e.

#[global] Instance res_ret : MRet res := λ A, Ok.
#[global] Instance res_bind : MBind res := λ A B f r,
  match r with
  | Ok a => f a
  | Raise e => Raise e
  end.

(** ** ChannelLikeView *)

Record ChannelLikeView := mkView {
  oid : nat;
  name : option string;                   (* None: the server view *)
  textwidget : list (string * string);
  userlist : option (list string);        (* None: not a channel *)
  userlistbox : option Listbox
}.

Definition set_name (n : option string) (v : ChannelLikeView) :=
  mkView (oid v) n (textwidget v) (userlist v) (userlistbox v).

Definition set_users (ul : list string) (lb : Listbox) (v : ChannelLikeView) :=
  mkView (oid v) (name v) (textwidget v) (Some ul) (Some lb).

(** [ChannelLikeView.__init__], for the object number [o]. *)
Definition ChannelLikeView_init (o : nat) (nm : option string)
    (users : option (list string)) : ChannelLikeView :=
  match users with
  | None => mkView o nm [] None None
  | Some us =>
      let ul := list_sort casefold us in
      mkView o nm [] (Some ul) (Some (lb_new ul))
  end.

Definition add_message (sender message : string) (v : ChannelLikeView) :=
  mkView (oid v) (name v) (textwidget v ++ [(sender, message)])
         (userlist v) (userlistbox v).

(** [self.name.startswith('#')] *)
Definition name_is_channel (v : ChannelLikeView) : res bool :=
  match name v with
  | None => Raise AttributeError
  | Some n => Ok (startswith n "#")
  end.

(** [self.userlist] and [self.userlistbox] of a channel. *)
Definition users_of (v : ChannelLikeView) : res (list string * Listbox) :=
  match userlist v, userlistbox v with
  | Some ul, Some lb => Ok (ul, lb)
  | _, _ => Raise AttributeError
  end.

Definition index_or_raise (x : string) (l : list string) : res nat :=
  match list_index x l with
  | Some i => Ok i
  | None => Raise ValueError
  end.

Definition with_reason (msg : string) (reason : option string) : string :=
  match reason with
  | None => msg
  | Some r => msg +:+ " (" +:+ r +:+ ")"
  end.

Definition on_join (nick : string) (v : ChannelLikeView) : res ChannelLikeView :=
  c ← name_is_channel v;
  if negb c then Raise AssertionError else
  '(ul, lb) ← users_of v;
  let ul' := list_sort casefold (ul ++ [nick]) in
  index ← index_or_raise nick ul';
  Ok (add_message "*" (nick +:+ " joined " +:+ default "" (name v) +:+ ".")
        (set_users ul' (lb_insert index nick lb) v)).

Definition on_part (nick : string) (reason : option string)
    (v : ChannelLikeView) : res ChannelLikeView :=
  c ← name_is_channel v;
  if negb c then Raise AssertionError else
  '(ul, lb) ← users_of v;
  index ← index_or_raise nick ul;
  let msg := nick +:+ " left " +:+ default "" (name v) +:+ "." in
  Ok (add_message "*" (with_reason msg reason)
        (set_users (delete index ul) (lb_delete index lb) v)).

Definition on_quit (nick : string) (reason : option string)
    (v : ChannelLikeView) : res ChannelLikeView :=
  let notice := add_message "*" (with_reason (nick +:+ " quit.") reason) in
  c ← name_is_channel v;
  if c : bool then
    '(ul, lb) ← users_of v;
    index ← index_or_raise nick ul;
    Ok (notice (set_users (delete index ul) (lb_delete index lb) v))
  else if bool_decide (name v ≠ Some nick) then Ok v
  else Ok (notice v).

Definition _userlist_replace (old new : string)
    (v : ChannelLikeView) : res ChannelLikeView :=
  '(ul, lb) ← users_of v;
  old_index ← index_or_raise old ul;
  let was_selected := bool_decide (old_index ∈ lb_curselection lb) in
  let lb1 := lb_delete old_index lb in
  let ul' := list_sort id (<[old_index := new]> ul) in
  new_index ← index_or_raise new ul';
  let lb2 := lb_insert new_index new lb1 in
  let lb3 := if was_selected
             then lb_selection_set (tk_int (Z.of_nat new_index)) lb2
             else lb2 in
  Ok (set_users ul' lb3 v).

Definition on_self_changed_nick (old new : string)
    (v : ChannelLikeView) : res ChannelLikeView :=
  v' ← (if userlist v is Some _ then _userlist_replace old new v else Ok v);
  Ok (add_message "*" ("You are now known as " +:+ new +:+ ".") v').

Definition on_user_changed_nick (old new : string)
    (v : ChannelLikeView) : res ChannelLikeView :=
  match name v with
  | None => Ok v
  | Some n =>
      let notice :=
        add_message "*" (old +:+ " is now known as " +:+ new +:+ ".") in
      match userlist v with
      | None =>
          if startswith n "#" then Raise AssertionError
          else if bool_decide (n ≠ new) then Ok v
          else Ok (notice v)
      | Some ul =>
          if negb (startswith n "#") then Raise AssertionError
          else if bool_decide (old ∉ ul) then Ok v
          else v' ← _userlist_replace old new v; Ok (notice v')
      end
  end.

(** ** dict *)

Abbreviation dict := (list (option string * ChannelLikeView)).

Fixpoint dict_get (k : option string) (d : dict) : option ChannelLikeView :=
  match d with
  | [] => None
  | (k', v) :: d' => if decide (k = k') then Some v else dict_get k d'
  end.

(** [d[k] = v]: a present key keeps its place, a new one goes last. *)
Fixpoint dict_set (k : option string) (v : ChannelLikeView) (d : dict) : dict :=
  match d with
  | [] => [(k, v)]
  | (k', v') :: d' =>
      if decide (k = k') then (k, v) :: d' else (k', v') :: dict_set k v d'
  end.

Fixpoint dict_del (k : option string) (d : dict) : dict :=
  match d with
  | [] => []
  | (k', v') :: d' => if decide (k = k') then d' else (k', v') :: dict_del k d'
  end.

(** [for v in d.values(): f(v)], where [f] mutates [v]; an exception
    leaves the views already visited mutated. *)
Fixpoint dict_foreach (f : ChannelLikeView → res ChannelLikeView) (d : dict)
    : res unit * dict :=
  match d with
  | [] => (Ok (), [])
  | (k, v) :: d' =>
      match f v with
      | Ok v' => let r := dict_foreach f d' in (r.1, (k, v') :: r.2)
      | Raise e => (Raise e, d)
      end
  end.

(** ** IrcWidget *)

Record IrcWidget := mkWidget {
  core_host : string;                 (* self._core.host *)
  core_nick : string;                 (* self._core.nick *)
  _nickbutton : string;
  _channel_selector : Listbox;
  _channel_likes : dict;
  _current_channel_like : option nat; (* the [oid] of the selected view *)
  next_oid : nat;                     (* objects allocated so far *)
  quit_calls : nat                    (* calls of self._on_quit *)
}.

Definition M (A : Type) : Type := IrcWidget → res A * IrcWidget.

#[global] Instance M_ret : MRet M := λ A a w, (Ok a, w).
#[global] Instance M_bind : MBind M := λ A B f m w,
  match m w with
  | (Ok a, w') => f a w'
  | (Raise e, w') => (Raise e, w')
  end.

Definition raise {A} (e : exn) : M A := λ w, (Raise e, w).
Definition get : M IrcWidget := λ w, (Ok w, w).
Definition modify (f : IrcWidget → IrcWidget) : M unit := λ w, (Ok (), f w).
Definition lift {A} (r : res A) : M A := λ w, (r, w).

Definition set_nickbutton (s : string) (w : IrcWidget) :=
  mkWidget (core_host w) (core_nick w) s (_channel_selector w)
           (_channel_likes w) (_current_channel_like w) (next_oid w)
           (quit_calls w).
Definition set_selector (lb : Listbox) (w : IrcWidget) :=
  mkWidget (core_host w) (core_nick w) (_nickbutton w) lb
           (_channel_likes w) (_current_channel_like w) (next_oid w)
           (quit_calls w).
Definition set_channel_likes (d : dict) (w : IrcWidget) :=
  mkWidget (core_host w) (core_nick w) (_nickbutton w) (_channel_selector w)
           d (_current_channel_like w) (next_oid w) (quit_calls w).
Definition set_current (c : option nat) (w : IrcWidget) :=
  mkWidget (core_host w) (core_nick w) (_nickbutton w) (_channel_selector w)
           (_channel_likes w) c (next_oid w) (quit_calls w).
Definition set_next_oid (n : nat) (w : IrcWidget) :=
  mkWidget (core_host w) (core_nick w) (_nickbutton w) (_channel_selector w)
           (_channel_likes w) (_current_channel_like w) n (quit_calls w).
Definition set_quit_calls (n : nat) (w : IrcWidget) :=
  mkWidget (core_host w) (core_nick w) (_nickbutton w) (_channel_selector w)
           (_channel_likes w) (_current_channel_like w) (next_oid w) n.

(** [ChannelLikeView(self, name, users)] *)
Definition new_view (nm : option string) (users : option (list string))
    : M ChannelLikeView := λ w,
  (Ok (ChannelLikeView_init (next_oid w) nm users),
   set_next_oid (S (next_oid w)) w).

(** [self._channel_likes[k]] *)
Definition getitem (k : option string) : M ChannelLikeView := λ w,
  match dict_get k (_channel_likes w) with
  | Some v => (Ok v, w)
  | None => (Raise KeyError, w)
  end.

(** [k in self._channel_likes] *)
Definition contains (k : option string) (w : IrcWidget) : bool :=
  bool_decide (is_Some (dict_get k (_channel_likes w))).

Definition server_label (w : IrcWidget) : string := "Server: " +:+ core_host w.

(** The pane bookkeeping of the method is display only; what remains is
    the lookup of the selected row and the assignment. *)
Definition _on_selection : M unit :=
  w ← get;
  match lb_curselection (_channel_selector w) with
  | [index] =>
      new_channel_like ←
        (if decide (index = 0) then getitem None
         else getitem (Some (lb_get index (_channel_selector w))));
      if decide (_current_channel_like w = Some (oid new_channel_like))
      then mret ()
      else modify (set_current (Some (oid new_channel_like)))
  | _ => raise ValueError
  end.

(** [event_generate] delivers the virtual event at once. *)
Definition _select_index (index : tk_index) : M unit :=
  modify (λ w, set_selector
    (lb_selection_set index (lb_selection_clear (_channel_selector w))) w);;
  _on_selection.

Definition add_channel_like (channel_like : ChannelLikeView) : M unit :=
  w ← get;
  if contains (name channel_like) w then raise AssertionError else
  modify (λ w, set_channel_likes
    (dict_set (name channel_like) channel_like (_channel_likes w)) w);;
  match name channel_like with
  | None =>
      w ← get;
      if negb (bool_decide (length (_channel_likes w) = 1))
      then raise AssertionError
      else modify (λ w, set_selector
             (lb_insert_end (server_label w) (_channel_selector w)) w)
  | Some n =>
      modify (λ w, set_selector (lb_insert_end n (_channel_selector w)) w)
  end;;
  _select_index tk_end.

(** The selected view is [than_this_channel_like] itself past the first
    test, so its name is read from the argument. *)
Definition select_something_else (than_this_channel_like : ChannelLikeView)
    : M unit :=
  w ← get;
  if decide (Some (oid than_this_channel_like) ≠ _current_channel_like w)
  then mret () else
  index ←
    match name than_this_channel_like with
    | None => mret 0
    | Some n => lift (index_or_raise n (lb_items (_channel_selector w)))
    end;
  if decide (Z.of_nat index = Z.of_nat (length (_channel_likes w)) - 1)%Z
  then _select_index (tk_int (Z.of_nat index - 1))
  else _select_index (tk_int (Z.of_nat index + 1)).

(** The lines of [remove_channel_like] below the call of
    [select_something_else].  [destroy_widgets] destroys the Tk widgets
    of a view that is no longer in the directory; here the view is gone
    with its entry. *)
Definition remove_entry (n : string) : M unit :=
  w ← get;
  index ← lift (index_or_raise n (lb_items (_channel_selector w)));
  modify (λ w, set_selector (lb_delete index (_channel_selector w)) w);;
  _ ← getitem (Some n);
  modify (λ w, set_channel_likes (dict_del (Some n) (_channel_likes w)) w).

Definition remove_channel_like (channel_like : ChannelLikeView) : M unit :=
  match name channel_like with
  | None => raise AssertionError
  | Some n => select_something_else channel_like;; remove_entry n
  end.

(** The lines of [rename_channel_like] below the [if]. *)
Definition rename_entry (old_name new_name : string) : M unit :=
  v ← getitem (Some old_name);
  modify (λ w, set_channel_likes
    (dict_set (Some new_name) (set_name (Some new_name) v)
       (dict_del (Some old_name) (_channel_likes w))) w);;
  w ← get;
  index ← lift (index_or_raise old_name (lb_items (_channel_selector w)));
  let was_selected :=
    bool_decide (index ∈ lb_curselection (_channel_selector w)) in
  modify (λ w, set_selector
    (lb_insert index new_name (lb_delete index (_channel_selector w))) w);;
  if was_selected then _select_index (tk_int (Z.of_nat index)) else mret ().

(** Both names are strings, which is what the assertion asks for. *)
Definition rename_channel_like (old_name new_name : string) : M unit :=
  w ← get;
  (if contains (Some new_name) w
   then v ← getitem (Some new_name); remove_channel_like v
   else mret ());;
  rename_entry old_name new_name.

(** ** The event queue *)

(** The events [handle_events] has a branch for; the last branch, which
    raises [ValueError] for any other tag, is not reachable with them. *)
Inductive IrcEvent :=
  | self_joined (channel : string) (nicklist : list string)
  | self_changed_nick (old new : string)
  | self_parted (channel : string)
  | self_quit
  | user_joined (nick channel : string)
  | user_changed_nick (old new : string)
  | user_parted (nick channel : string) (reason : option string)
  | user_quit (nick : string) (reason : option string)
  | sent_privmsg (recipient msg : string)
  | received_privmsg (sender recipient msg : string)
  | server_message (server command : string) (args : list string)
  | unknown_message (server command : string) (args : list string).

(** [self._channel_likes[k].f(...)] *)
Definition update_view (k : option string)
    (f : ChannelLikeView → res ChannelLikeView) : M unit :=
  v ← getitem k;
  v' ← lift (f v);
  modify (λ w, set_channel_likes (dict_set k v' (_channel_likes w)) w).

(** [for channel_like in self._channel_likes.values(): f(channel_like)] *)
Definition for_each_view (f : ChannelLikeView → res ChannelLikeView)
    : M unit := λ w,
  let r := dict_foreach f (_channel_likes w) in
  (r.1, set_channel_likes r.2 w).

(** The body of the loop of the [user_quit] branch. *)
Definition user_quit_body (nick : string) (reason : option string)
    (v : ChannelLikeView) : res ChannelLikeView :=
  match name v with
  | None => Ok v
  | Some n =>
      if bool_decide (nick = n)
         || (if userlist v is Some ul then bool_decide (nick ∈ ul) else false)
      then on_quit nick reason v
      else Ok v
  end.

(** One turn of the [while] loop of [handle_events], past the [get]; the
    result says whether the loop goes on ([false]: the [return] of the
    [self_quit] branch).  The global [ircwidget] of the last branch is
    [self] when the module runs as a program. *)
Definition handle_event (ev : IrcEvent) : M bool :=
  match ev with
  | self_joined channel nicklist =>
      (v ← new_view (Some channel) (Some nicklist); add_channel_like v);;
      mret true
  | self_changed_nick old new =>
      modify (set_nickbutton new);;
      for_each_view (on_self_changed_nick old new);; mret true
  | self_parted channel =>
      (v ← getitem (Some channel); remove_channel_like v);;
      mret true
  | self_quit =>
      modify (λ w, set_quit_calls (S (quit_calls w)) w);; mret false
  | user_joined nick channel =>
      update_view (Some channel) (on_join nick);; mret true
  | user_changed_nick old new =>
      w ← get;
      (if contains (Some old) w then rename_channel_like old new
       else mret ());;
      for_each_view (on_user_changed_nick old new);; mret true
  | user_parted nick channel reason =>
      update_view (Some channel) (on_part nick reason);; mret true
  | user_quit nick reason =>
      if startswith nick "#" then raise AssertionError else
      for_each_view (user_quit_body nick reason);; mret true
  | sent_privmsg recipient msg =>
      w ← get;
      (if negb (contains (Some recipient) w) then
         if startswith recipient "#" then raise AssertionError else
         v ← new_view (Some recipient) None; add_channel_like v
       else mret ());;
      w ← get;
      update_view (Some recipient) (λ v, Ok (add_message (core_nick w) msg v));;
      mret true
  | received_privmsg sender recipient msg =>
      w ← get;
      channel_like_name ←
        (if bool_decide (recipient = core_nick w) then
           (if negb (contains (Some sender) w)
            then v ← new_view (Some sender) None; add_channel_like v
            else mret ());;
           mret sender
         else
           if negb (startswith recipient "#") then raise AssertionError
           else mret recipient);
      update_view (Some channel_like_name) (λ v, Ok (add_message sender msg v));;
      mret true
  | server_message server command args
  | unknown_message server command args =>
      update_view None (λ v, Ok (add_message server (join " " args) v));;
      mret true
  end.

(** How an activation of [handle_events] ends. *)
Inductive loop_end :=
  | Rearmed              (* queue empty: [self.after(100, ...)] *)
  | Returned             (* [self_quit]: no timer is set *)
  | Raised (e : exn).    (* an exception leaves the method *)

(** [handle_events], on the events that are in the queue: how it ends,
    what is left in the queue, and the widget then. *)
Fixpoint handle_events (queue : list IrcEvent) (w : IrcWidget)
    : loop_end * list IrcEvent * IrcWidget :=
  match queue with
  | [] => (Rearmed, [], w)
  | ev :: queue' =>
      match handle_event ev w with
      | (Ok true, w') => handle_events queue' w'
      | (Ok false, w') => (Returned, queue', w')
      | (Raise e, w') => (Raised e, queue', w')
      end
  end.

(** The timer: each element of [batches] is what the backend has put in
    the queue by the time the timer set by the previous activation fires.
    An activation that ends without setting the timer is the last one. *)
Fixpoint run_timer (queue : list IrcEvent) (batches : list (list IrcEvent))
    (w : IrcWidget) : loop_end * list IrcEvent * IrcWidget :=
  match handle_events queue w with
  | (Rearmed, rest, w') =>
      match batches with
      | [] => (Rearmed, rest, w')
      | b :: batches' => run_timer (rest ++ b) batches' w'
      end
  | r => r
  end.

(** [IrcWidget.__init__] *)
Definition IrcWidget_init (host nick : string) : res unit * IrcWidget :=
  (v ← new_view None None; add_channel_like v)
    (mkWidget host nick nick (lb_new []) [] None 0 0).

(** ** Joins and parts on one channel *)

Inductive chan_event :=
  | Join (nick : string)
  | Part (nick : string) (reason : option string).

Definition apply_chan_event (e : chan_event) (v : ChannelLikeView)
    : res ChannelLikeView :=
  match e with
  | Join nick => on_join nick v
  | Part nick reason => on_part nick reason v
  end.

Fixpoint apply_chan_events (es : list chan_event) (v : ChannelLikeView)
    : res ChannelLikeView :=
  match es with
  | [] => Ok v
  | e :: es' => (v' ← apply_chan_event e v; apply_chan_events es' v')
  end.

(** The join/part history as a set: who has joined and not parted since. *)
Definition history_step (s : gset string) (e : chan_event) : gset string :=
  match e with
  | Join nick => {[nick]} ∪ s
  | Part nick _ => s ∖ {[nick]}
  end.

Definition history (s : gset string) (es : list chan_event) : gset string :=
  foldl history_step s es.

(** Nobody joins while a member, nobody parts without being one. *)
Fixpoint consistent (s : gset string) (es : list chan_event) : Prop :=
  match es with
  | [] => True
  | Join nick :: es' => (nick ∉ s) ∧ consistent ({[nick]} ∪ s) es'
  | Part nick r :: es' => (nick ∈ s) ∧ consistent (s ∖ {[nick]}) es'
  end.

(** Sorted by the case-insensitive comparator. *)
Definition casefold_sorted (l : list string) : Prop :=
  StronglySorted (key_le casefold) l.

Definition is_member (nick : string) (v : ChannelLikeView) : Prop :=
  ∃ ul, userlist v = Some ul ∧ nick ∈ ul.

(** A view that is a channel with member list [ul]. *)
Definition channel_with (ul : list string) (v : ChannelLikeView) : Prop :=
  (∃ n, name v = Some n ∧ startswith n "#" = true) ∧
  userlist v = Some ul ∧ is_Some (userlistbox v).

(** What the member list of the channel created with [users] is said to be
    after the events [es]. *)
Definition history_claim (users : list string) (es : list chan_event) : Prop :=
  ∀ o n v',
    startswith n "#" = true →
    apply_chan_events es (ChannelLikeView_init o (Some n) (Some users)) = Ok v' →
    ∃ ul, userlist v' = Some ul ∧ NoDup ul ∧ casefold_sorted ul ∧
          list_to_set ul = history (list_to_set users) es.

(** The widget of the [__main__] block once constructed. *)
Definition main_widget : IrcWidget :=
  (IrcWidget_init "chat.freenode.net" "testieeeee").2.

Definition after (queue : list IrcEvent) (w : IrcWidget) : IrcWidget :=
  (handle_events queue w).2.

Definition members (ch : string) (w : IrcWidget) : option (list string) :=
  v ← dict_get (Some ch) (_channel_likes w); userlist v.

Definition lines (k : option string) (w : IrcWidget)
    : option (list (string * string)) :=
  textwidget <$> dict_get k (_channel_likes w).

(** The widget after joining #test, where alice and bob are. *)
Definition test_widget : IrcWidget :=
  after [self_joined "#test" ["alice"; "bob"]] main_widget.

(** A widget whose channel #test does not list the user's own nick, with
    a conversation with carol open. *)
Definition desync_widget : IrcWidget :=
  after [self_joined "#test" ["bob"]; sent_privmsg "carol" "hi"] main_widget.

(** [user_parted nick ch] refers to something absent: no view is named
    [ch], or the one that is does not list [nick]. *)
Definition not_found (nick ch : string) (w : IrcWidget) : Prop :=
  ∀ v, dict_get (Some ch) (_channel_likes w) = Some v → ¬ is_member nick v.

(** A [user_parted] that finds nothing is said to be skipped: the
    activation goes on with the rest of the queue, on the same widget. *)
Definition not_found_claim (nick ch : string) (reason : option string)
    (rest : list IrcEvent) (w : IrcWidget) : Prop :=
  not_found nick ch w →
  handle_events (user_parted nick ch reason :: rest) w = handle_events rest w.

(** ** The directory invariant *)

(** The key of the view shown at row [i] of the selector, as
    [_on_selection] computes it. *)
Definition row_key (i : nat) (sel : Listbox) : option string :=
  if decide (i = 0) then None else Some (lb_get i sel).

Definition oids (d : dict) : list nat := (λ kv, oid kv.2) <$> d.

Record wf (w : IrcWidget) : Prop := {
  (* the keys of a dict are distinct *)
  wf_keys : NoDup (_channel_likes w).*1;
  (* every view is stored under its name *)
  wf_names : Forall (λ kv, name kv.2 = kv.1) (_channel_likes w);
  (* distinct objects, all allocated *)
  wf_oids : NoDup (oids (_channel_likes w));
  wf_alloc : Forall (λ kv, oid kv.2 < next_oid w) (_channel_likes w);
  (* the selector shows the server first, then one row per other view *)
  wf_rows : ∃ names,
    lb_items (_channel_selector w) = server_label w :: names ∧
    (server_label w ∉ names) ∧
    None :: (Some <$> names) ≡ₚ (_channel_likes w).*1;
  (* one row is selected, and the current view is the one it shows *)
  wf_current : ∃ i v,
    lb_selection (_channel_selector w) = [i] ∧
    i < length (lb_items (_channel_selector w)) ∧
    dict_get (row_key i (_channel_selector w)) (_channel_likes w) = Some v ∧
    _current_channel_like w = Some (oid v)
}.

(** The two invariants of the directory. *)
Definition server_present (w : IrcWidget) : Prop :=
  is_Some (dict_get None (_channel_likes w)).

Definition active_live (w : IrcWidget) : Prop :=
  ∃ k v, dict_get k (_channel_likes w) = Some v ∧
         _current_channel_like w = Some (oid v).

(** Two dicts with the same keys in the same order, holding views with
    the same identity and name. *)
Definition same_shape (d d' : dict) : Prop :=
  Forall2 (λ kv kv', kv.1 = kv'.1 ∧ oid kv.2 = oid kv'.2 ∧
                     name kv.2 = name kv'.2) d d'.

Definition keeps_id (f : ChannelLikeView → res ChannelLikeView) : Prop :=
  ∀ v v', f v = Ok v' → oid v' = oid v ∧ name v' = name v.

(** The names an event may give to a view. *)
Definition new_names (ev : IrcEvent) : list string :=
  match ev with
  | self_joined channel _ => [channel]
  | user_changed_nick _ new => [new]
  | sent_privmsg recipient _ => [recipient]
  | received_privmsg sender _ _ => [sender]
  | _ => []
  end.

(** What an operation of the directory leaves alone. *)
Definition same_env (w w' : IrcWidget) : Prop :=
  core_host w' = core_host w ∧ core_nick w' = core_nick w ∧
  _nickbutton w' = _nickbutton w ∧ next_oid w' = next_oid w ∧
  quit_calls w' = quit_calls w.

(** The row [select_something_else] selects when the view at row [r] is
    about to go: the next one, or the previous one from the last row. *)
Definition other_row (r : nat) (w : IrcWidget) : nat :=
  if decide (r = length (lb_items (_channel_selector w)) - 1)
  then r - 1 else r + 1.

(** An operation keeps the invariant, and the host the server row is
    labelled with, whether it returns or raises. *)
Definition pres {A} (h : string) (m : M A) : Prop :=
  ∀ w, core_host w = h → wf w → wf (m w).2 ∧ core_host (m w).2 = h.

(** No event of [queue] gives a view the label of the server row as its
    name (a nick or a channel name has no space in it). *)
Definition names_allowed (host : string) (queue : list IrcEvent) : Prop :=
  Forall (λ ev, "Server: " +:+ host ∉ new_names ev) queue.

(** A widget with conversations with dave and dav open, and one that is
    in #test as well; the view opened last is the current one. *)
Definition pm_widget : IrcWidget :=
  after [sent_privmsg "dave" "hi"; sent_privmsg "dav" "hello"] main_widget.

Definition busy_widget : IrcWidget :=
  after [self_joined "#test" ["alice"; "bob"]; sent_privmsg "dave" "hi"]
    main_widget.

(** A view as the widget makes them: the server view and the
    conversations have no member list, and a view has one exactly when
    its name starts with the channel mark. *)
Definition view_ok (v : ChannelLikeView) : Prop :=
  match name v with
  | None => userlist v = None
  | Some n =>
      if startswith n "#"
      then ∃ ul lb, userlist v = Some ul ∧ userlistbox v = Some lb
      else userlist v = None
  end.

Definition views_ok (w : IrcWidget) : Prop :=
  Forall (λ kv, view_ok kv.2) (_channel_likes w).

(** No channel lists a nick twice. *)
Definition distinct_members (v : ChannelLikeView) : Prop :=
  ∀ ul, userlist v = Some ul → NoDup ul.

Definition members_distinct (w : IrcWidget) : Prop :=
  Forall (λ kv, distinct_members kv.2) (_channel_likes w).

(** What a method that does not raise makes of a view. *)
Definition result_of (f : ChannelLikeView → res ChannelLikeView)
    (v : ChannelLikeView) : ChannelLikeView :=
  match f v with
  | Ok v' => v'
  | Raise _ => v
  end.

Definition quit_notice (nick : string) (reason : option string)
    : string * string :=
  ("*", with_reason (nick +:+ " quit.") reason).

Definition rename_notice (old new : string) : string * string :=
  ("*", old +:+ " is now known as " +:+ new +:+ ".").

(** A second [user_quit] for the same nick is said to change nothing. *)
Definition quit_twice_claim (nick : string) (reason : option string)
    (w : IrcWidget) : Prop :=
  ∀ w1 w2,
    handle_event (user_quit nick reason) w = (Ok true, w1) →
    handle_event (user_quit nick reason) w1 = (Ok true, w2) →
    w2 = w1.

(** A widget with a conversation with bob open. *)
Definition bob_widget : IrcWidget :=
  after [sent_privmsg "bob" "hi"] main_widget.

(** After [user_changed_nick old new], a view that is not named [old]
    and does not list [old] is said to be as it was. *)
Definition nick_change_claim (old new : string) (w : IrcWidget) : Prop :=
  ∀ w' k v,
    handle_event (user_changed_nick old new) w = (Ok true, w') →
    dict_get k (_channel_likes w) = Some v →
    k ≠ Some old → ¬ is_member old v →
    dict_get k (_channel_likes w') = Some v.

(** ** What the user types *)

(** The calls the widget makes on [self._core]; the argument of a
    command that was typed without one is [None]. *)
Inductive core_call :=
  | core_send_privmsg (recipient msg : string)
  | core_join_channel (channel : option string)
  | core_change_nick (nick : option string)
  | core_part_channel (channel : string)
  | core_quit.

(** [\w] on ASCII text *)
Definition is_word (c : ascii) : bool :=
  let n := nat_of_ascii c in
  ((48 <=? n) && (n <=? 57)) || ((65 <=? n) && (n <=? 90)) || (n =? 95)
  || ((97 <=? n) && (n <=? 122)).

(** The longest run of word characters [s] starts with, and the rest. *)
Fixpoint span_word (s : string) : string * string :=
  match s with
  | String c s' =>
      if is_word c then let r := span_word s' in (String c r.1, r.2)
      else ("", s)
  | EmptyString => ("", "")
  end.

Definition newline : ascii := ascii_of_nat 10.

(** The group [.*] followed by [$], against all of [s]: [.] is any
    character but a newline, and [$] is the end of the string or the
    place before a newline that ends the string. *)
Fixpoint dot_star_end (s : string) : option string :=
  match s with
  | EmptyString => Some ""
  | String c s' =>
      if decide (c = newline)
      then (if decide (s' = "") then Some "" else None)
      else String c <$> dot_star_end s'
  end.

(** The two groups of the match of [re.search] in [_on_enter_pressed]:
    a slash and [\w+], then, optionally, a space and [.*], then [$].
    [\w+] can only stop where the word characters stop, since what
    follows it in the pattern starts with a space or is the end. *)
Definition match_command (msg : string) : option (string * option string) :=
  match msg with
  | String c s =>
      if decide (c = "/"%char) then
        let r := span_word s in
        if decide (r.1 = "") then None else
        match r.2 with
        | EmptyString => Some (String c r.1, None)
        | String c' rest =>
            if decide (c' = " "%char)
            then args ← dot_star_end rest; Some (String c r.1, Some args)
            else if decide (r.2 = String newline "")
                 then Some (String c r.1, None)
                 else None
        end
      else None
  | EmptyString => None
  end.

(** The view [self._current_channel_like] refers to.  [None] has no
    attributes; a reference to a view that has left the directory cannot
    be followed here, and [directory_invariants] shows there is none. *)
Fixpoint find_oid (o : nat) (d : dict) : option ChannelLikeView :=
  match d with
  | [] => None
  | (k, v) :: d' => if decide (oid v = o) then Some v else find_oid o d'
  end.

Definition current_view (w : IrcWidget) : res ChannelLikeView :=
  match _current_channel_like w with
  | None => Raise AttributeError
  | Some o =>
      match find_oid o (_channel_likes w) with
      | Some v => Ok v
      | None => Raise AttributeError
      end
  end.

(** A method that mutates the object number [o]. *)
Definition update_oid (o : nat) (f : ChannelLikeView → ChannelLikeView)
    (d : dict) : dict :=
  (λ kv, if decide (oid kv.2 = o) then (kv.1, f kv.2) else kv) <$> d.

(** [_on_enter_pressed] for the text [msg] of the entry: the calls made
    on the core, or the exception, and the widget (emptying the entry is
    left out). *)
Definition _on_enter_pressed (msg : string) (w : IrcWidget)
    : res (list core_call) * IrcWidget :=
  match match_command msg with
  | None =>
      match current_view w with
      | Raise e => (Raise e, w)
      | Ok cur =>
          match name cur with
          | None =>
              (Ok [], set_channel_likes
                        (update_oid (oid cur)
                           (add_message "*" "Cannot send messages here :(")
                           (_channel_likes w)) w)
          | Some n => (Ok [core_send_privmsg n msg], w)
          end
      end
  | Some (cmd, arg) =>
      if decide (cmd = "/join") then (Ok [core_join_channel arg], w)
      else if decide (cmd = "/nick") then (Ok [core_change_nick arg], w)
      else if decide (cmd = "/part") then
        match arg with
        | None =>
            match current_view w with
            | Raise e => (Raise e, w)
            | Ok cur =>
                match name cur with
                | None => (Raise ValueError, w)
                | Some channel =>
                    if negb (startswith channel "#") then (Raise ValueError, w)
                    else (Ok [core_part_channel channel], w)
                end
            end
        | Some channel => (Ok [core_part_channel channel], w)
        end
      else (Raise ValueError, w)
  end.

(** [part_all_channels_and_quit]: the calls made on the core. *)
Definition part_all_channels_and_quit (w : IrcWidget) : list core_call :=
  omap (λ kv : option string * ChannelLikeView,
          match kv.1 with
          | Some n =>
              if startswith n "#" then Some (core_part_channel n) else None
          | None => None
          end) (_channel_likes w)
  ++ [core_quit].

(** The events that only write to views: no view is made, renamed or
    removed by them. *)
Definition is_notice (ev : IrcEvent) : bool :=
  match ev with
  | self_changed_nick _ _ | user_joined _ _ | user_parted _ _ _
  | user_quit _ _ | server_message _ _ _ | unknown_message _ _ _ => true
  | _ => false
  end.

Fixpoint all_word (s : string) : bool :=
  match s with
  | EmptyString => true
  | String c s' => is_word c && all_word s'
  end.

Fixpoint has_newline (s : string) : bool :=
  match s with
  | EmptyString => false
  | String c s' => bool_decide (c = newline) || has_newline s'
  end.

(** The text of the argument part of a command line. *)
Definition arg_text (arg : option string) : string :=
  match arg with
  | None => ""
  | Some a => " " +:+ a
  end.

(** The list box of a channel shows the member list, row by row; a view
    that is no channel has neither. *)
Definition in_step (v : ChannelLikeView) : Prop :=
  match userlist v, userlistbox v with
  | Some ul, Some lb => lb_items lb = ul
  | None, None => True
  | _, _ => False
  end.

(** Sorted by code point, which is what [list.sort()] makes of a list. *)
Definition plain_sorted (l : list string) : Prop :=
  StronglySorted (key_le id) l.

Definition own_nick_notice (new : string) : string * string :=
  ("*", "You are now known as " +:+ new +:+ ".").

(** ** The order on strings *)

Lemma ascii_compare_refl c : Ascii.compare c c = Eq.
Proof. apply N.compare_refl. Qed.

Lemma ascii_compare_lt_trans a b c :
  Ascii.compare a b = Lt → Ascii.compare b c = Lt → Ascii.compare a c = Lt.
Proof.
  unfold Ascii.compare. rewrite !N.compare_lt_iff. apply N.lt_trans.
Qed.

Lemma string_compare_lt_trans a : ∀ b c,
  String.compare a b = Lt → String.compare b c = Lt → String.compare a c = Lt.
Proof.
  induction a as [|x a IH]; intros [|y b] [|z c]; simpl; try done.
  destruct (Ascii.compare x y) eqn:Hxy; try done;
    destruct (Ascii.compare y z) eqn:Hyz; try done.
  - apply Ascii.compare_eq_iff in Hxy as ->.
    apply Ascii.compare_eq_iff in Hyz as ->.
    rewrite ascii_compare_refl. apply IH.
  - apply Ascii.compare_eq_iff in Hxy as ->. by rewrite Hyz.
  - apply Ascii.compare_eq_iff in Hyz as <-. by rewrite Hxy.
  - by rewrite (ascii_compare_lt_trans _ _ _ Hxy Hyz).
Qed.

Lemma string_leb_spec a b :
  String.leb a b = true ↔ String.compare a b = Lt ∨ a = b.
Proof.
  unfold String.leb. split.
  - destruct (String.compare a b) eqn:Hc; try done; intros _.
    + right. by apply String.compare_eq_iff.
    + by left.
  - intros [-> | ->]; [done|].
    assert (String.compare b b = Eq) as ->; [|done].
    induction b as [|c b IH]; simpl; [done|]. by rewrite ascii_compare_refl.
Qed.

Lemma string_leb_trans a b c :
  String.leb a b = true → String.leb b c = true → String.leb a c = true.
Proof.
  rewrite !string_leb_spec. intros [Hab | ->] [Hbc | ->]; eauto.
  left. eapply string_compare_lt_trans; eauto.
Qed.

Section sort_facts.
Context {A : Type} (key : A → string).

#[local] Instance key_le_trans : Transitive (key_le key).
Proof. intros x y z. apply string_leb_trans. Qed.

Lemma key_le_total x y : ¬ key_le key x y → key_le key y x.
Proof.
  unfold key_le. destruct (String.leb_total (key x) (key y)); tauto.
Qed.

Lemma sort_insert_perm x l : sort_insert key x l ≡ₚ x :: l.
Proof.
  induction l as [|y l IH]; simpl; [done|].
  destruct (String.leb _ _); [done|]. rewrite IH. apply Permutation_swap.
Qed.

Lemma list_sort_perm l : list_sort key l ≡ₚ l.
Proof.
  induction l as [|x l IH]; simpl; [done|].
  unfold list_sort in IH. by rewrite sort_insert_perm, IH.
Qed.

Lemma sort_insert_sorted x l :
  StronglySorted (key_le key) l →
  StronglySorted (key_le key) (sort_insert key x l).
Proof.
  induction 1 as [|y l Hl IH Hy]; simpl.
  { repeat constructor. }
  destruct (String.leb (key x) (key y)) eqn:Hxy.
  - constructor; [by constructor|]. constructor; [done|].
    eapply Forall_impl; [exact Hy|]. intros z Hz. by etrans.
  - constructor; [done|]. rewrite sort_insert_perm. constructor; [|done].
    apply key_le_total. unfold key_le. by rewrite Hxy.
Qed.

Lemma list_sort_sorted l : StronglySorted (key_le key) (list_sort key l).
Proof.
  induction l as [|x l IH]; simpl; [constructor|].
  by apply sort_insert_sorted.
Qed.

Lemma delete_sorted i l :
  StronglySorted (key_le key) l → StronglySorted (key_le key) (delete i l).
Proof.
  intros Hl. revert i. induction Hl as [|y l Hl IH Hy]; intros [|i]; simpl;
    try done; try by constructor.
  constructor; [apply IH|].
  eapply Forall_forall. intros z Hz. eapply Forall_forall in Hy; [done|].
  by eapply list_elem_of_delete_inv.
Qed.
End sort_facts.

(** ** [list.index] *)

Lemma list_index_None x l : list_index x l = None ↔ x ∉ l.
Proof.
  induction l as [|y l IH]; simpl.
  - split; [intros _; apply not_elem_of_nil|done].
  - destruct (decide (x = y)) as [->|Hne].
    + split; [done|]. intros []. left.
    + rewrite not_elem_of_cons, <-IH.
      destruct (list_index x l); simpl; naive_solver.
Qed.

Lemma list_index_Some x l i : list_index x l = Some i → l !! i = Some x.
Proof.
  revert i. induction l as [|y l IH]; intros i; simpl; [done|].
  destruct (decide (x = y)) as [->|Hne].
  - by intros [= <-].
  - destruct (list_index x l) as [j|]; simpl; [|done].
    intros [= <-]. by apply IH.
Qed.

Lemma list_index_is_Some x l : x ∈ l → is_Some (list_index x l).
Proof.
  intros Hx. destruct (list_index x l) eqn:E; [eauto|].
  by apply list_index_None in E.
Qed.

Lemma list_index_NoDup x l i :
  NoDup l → l !! i = Some x → list_index x l = Some i.
Proof.
  intros Hnd Hi. destruct (list_index_is_Some x l) as [j Hj].
  { eapply list_elem_of_lookup_2; eauto. }
  rewrite Hj. f_equal. eapply NoDup_lookup; eauto using list_index_Some.
Qed.

(** ** Member lists *)

Lemma init_channel o n users :
  startswith n "#" = true →
  channel_with (list_sort casefold users)
    (ChannelLikeView_init o (Some n) (Some users)).
Proof. intros Hn. repeat split; simpl; eauto. Qed.

Lemma on_join_channel ul nick v :
  channel_with ul v →
  ∃ v', on_join nick v = Ok v' ∧
        channel_with (list_sort casefold (ul ++ [nick])) v'.
Proof.
  intros ((n & Hn & Hc) & Hul & [lb Hlb]).
  unfold on_join, name_is_channel, users_of. rewrite Hn, Hul, Hlb. simpl.
  rewrite Hc. simpl.
  destruct (list_index_is_Some nick (list_sort casefold (ul ++ [nick])))
    as [i Hi].
  { rewrite list_sort_perm. set_solver. }
  unfold index_or_raise. rewrite Hi. simpl. eexists. split; [done|].
  repeat split; simpl; eauto.
Qed.

Lemma on_part_channel ul nick reason v i :
  channel_with ul v → list_index nick ul = Some i →
  ∃ v', on_part nick reason v = Ok v' ∧ channel_with (delete i ul) v'.
Proof.
  intros ((n & Hn & Hc) & Hul & [lb Hlb]) Hi.
  unfold on_part, name_is_channel, users_of. rewrite Hn, Hul, Hlb. simpl.
  rewrite Hc. simpl. unfold index_or_raise. rewrite Hi. simpl.
  eexists. split; [done|]. repeat split; simpl; eauto.
Qed.

Lemma delete_member_set (ul : list string) i x :
  NoDup ul → ul !! i = Some x →
  list_to_set (C := gset string) (delete i ul) = list_to_set ul ∖ {[x]}.
Proof.
  intros Hnd Hi. pose proof (delete_Permutation _ _ _ Hi) as Hp.
  rewrite Hp in Hnd. apply NoDup_cons in Hnd as [Hx _].
  rewrite (list_to_set_perm_L _ _ Hp). set_solver.
Qed.

Lemma join_part_history es : ∀ ul v,
  channel_with ul v → NoDup ul → casefold_sorted ul →
  consistent (list_to_set ul) es →
  ∃ v' ul', apply_chan_events es v = Ok v' ∧ userlist v' = Some ul' ∧
            NoDup ul' ∧ casefold_sorted ul' ∧
            list_to_set ul' = history (list_to_set ul) es.
Proof.
  induction es as [|[nick|nick reason] es IH]; intros ul v Hv Hnd Hs Hes.
  - exists v, ul. by destruct Hv as (_ & ? & _).
  - destruct Hes as [Hfresh Hes].
    destruct (on_join_channel ul nick v Hv) as (v1 & Hj & Hv1).
    pose proof (list_sort_perm casefold (ul ++ [nick])) as Hp.
    assert (list_to_set (C := gset string) (list_sort casefold (ul ++ [nick]))
            = {[nick]} ∪ list_to_set ul) as Hset.
    { rewrite (list_to_set_perm_L _ _ Hp), list_to_set_app_L. set_solver. }
    destruct (IH _ v1 Hv1) as (v' & ul' & Hrun & ? & ? & ? & Hh).
    + rewrite Hp. apply NoDup_app. repeat split; [done| |apply NoDup_singleton].
      intros x Hx ->%list_elem_of_singleton. apply Hfresh. set_solver.
    + apply list_sort_sorted.
    + by rewrite Hset.
    + exists v', ul'. simpl. rewrite Hj. simpl. rewrite Hset in Hh. done.
  - destruct Hes as [Hin Hes].
    destruct (list_index_is_Some nick ul) as [i Hi]; [set_solver|].
    destruct (on_part_channel ul nick reason v i Hv Hi) as (v1 & Hj & Hv1).
    pose proof (delete_member_set ul i nick Hnd (list_index_Some _ _ _ Hi))
      as Hset.
    destruct (IH _ v1 Hv1) as (v' & ul' & Hrun & ? & ? & ? & Hh).
    + exact (sublist_NoDup _ _ Hnd (sublist_delete _ _)).
    + by apply delete_sorted.
    + by rewrite Hset.
    + exists v', ul'. simpl. rewrite Hj. simpl. rewrite Hset in Hh. done.
Qed.

(** C3, as amended: on a channel created with distinct members, a
    sequence of joins and parts in which nobody joins while a member and
    nobody parts without being one runs through, and leaves the member
    list free of duplicates, sorted case-insensitively, and holding
    exactly the nicks of the join/part history. *)
Theorem consistent_history_member_list users es o n :
  startswith n "#" = true → NoDup users →
  consistent (list_to_set users) es →
  (∃ v', apply_chan_events es (ChannelLikeView_init o (Some n) (Some users))
         = Ok v') ∧
  history_claim users es.
Proof.
  intros Hn Hnd Hes.
  assert (∀ o n, startswith n "#" = true →
    ∃ v' ul', apply_chan_events es
                (ChannelLikeView_init o (Some n) (Some users)) = Ok v' ∧
              userlist v' = Some ul' ∧ NoDup ul' ∧ casefold_sorted ul' ∧
              list_to_set ul' = history (list_to_set users) es) as H.
  { clear o n Hn. intros o n Hn.
    pose proof (list_sort_perm casefold users) as Hp.
    destruct (join_part_history es _ _ (init_channel o n users Hn))
      as (v' & ul' & ? & ? & ? & ? & Hh).
    - by rewrite Hp.
    - apply list_sort_sorted.
    - by rewrite (list_to_set_perm_L _ _ Hp).
    - rewrite (list_to_set_perm_L _ _ Hp) in Hh. eauto 10. }
  split.
  - destruct (H o n Hn) as (v' & _ & ? & _). eauto.
  - intros o' n' v' Hn' Hrun.
    destruct (H o' n' Hn') as (v'' & ul' & Hrun' & ?).
    rewrite Hrun in Hrun'. injection Hrun' as ->. eauto.
Qed.

Lemma consistent_history_member_list_witness :
  (∃ v', apply_chan_events [Join "carol"; Part "bob" None]
           (ChannelLikeView_init 1 (Some "#test") (Some ["alice"; "bob"]))
         = Ok v') ∧
  history_claim ["alice"; "bob"] [Join "carol"; Part "bob" None].
Proof.
  apply (consistent_history_member_list ["alice"; "bob"]
           [Join "carol"; Part "bob" None] 1 "#test").
  - reflexivity.
  - apply (bool_decide_unpack (NoDup ["alice"; "bob"])). vm_compute. exact I.
  - simpl. set_solver.
Defined.

(** C3, as stated, fails: a nick that joins twice is listed twice. *)
Lemma join_twice_listed_twice : ¬ history_claim [] [Join "bob"; Join "bob"].
Proof.
  intros H. destruct (H 1 "#test" _ eq_refl eq_refl) as (ul & Hul & Hnd & _).
  injection Hul as <-. apply NoDup_cons in Hnd as [Hnd _].
  apply Hnd. left.
Qed.

Ltac munfold :=
  cbv beta iota delta [mbind M_bind res_bind mret M_ret res_ret update_view
    for_each_view getitem lift modify get raise fst snd].

(** C1: the member list is not kept sorted case-insensitively by a nick
    change.  [_userlist_replace] sorts without [key=str.casefold], unlike
    [__init__] and [on_join]: once bob in #test becomes Zed, the list is
    [Zed, alice], and Zed is not at its case-insensitive position. *)
Theorem nick_change_sorts_by_code_point :
  members "#test" (after [user_changed_nick "bob" "Zed"] test_widget)
    = Some ["Zed"; "alice"] ∧
  members "#test" (after [self_changed_nick "bob" "Zed"] test_widget)
    = Some ["Zed"; "alice"] ∧
  ¬ casefold_sorted ["Zed"; "alice"].
Proof.
  split; [reflexivity|]. split; [reflexivity|].
  intros H. apply StronglySorted_inv in H as [_ H].
  apply Forall_cons in H as [H _]. vm_compute in H. discriminate.
Qed.

(** ** The drain loop *)

Lemma on_part_not_member nick reason v :
  ¬ is_member nick v → ∃ e, on_part nick reason v = Raise e.
Proof.
  intros Hm. unfold on_part, name_is_channel, users_of, index_or_raise.
  destruct (name v) as [n|]; simpl; [|eauto].
  destruct (startswith n "#"); simpl; [|eauto].
  destruct (userlist v) as [ul|] eqn:Hul; simpl; [|eauto].
  destruct (userlistbox v); simpl; [|eauto].
  destruct (list_index nick ul) eqn:Hi; simpl; [|eauto].
  destruct Hm. exists ul. split; [done|].
  eapply list_elem_of_lookup_2, list_index_Some, Hi.
Qed.

Lemma handle_events_cons ev queue w :
  handle_events (ev :: queue) w =
  match handle_event ev w with
  | (Ok true, w') => handle_events queue w'
  | (Ok false, w') => (Returned, queue, w')
  | (Raise e, w') => (Raised e, queue, w')
  end.
Proof. reflexivity. Qed.

Lemma run_timer_Raised queue batches w e rest w' :
  handle_events queue w = (Raised e, rest, w') →
  run_timer queue batches w = (Raised e, rest, w').
Proof. intros H. destruct batches; simpl; by rewrite H. Qed.

(** C2, as amended: a [user_parted] for a channel that is not there, or
    for a nick the channel does not list, leaves the widget as it was,
    and the exception of the failed lookup leaves [handle_events]: the
    rest of the queue is not handled and no timer is set, so no later
    activation handles it either. *)
Theorem user_parted_not_found_aborts nick ch reason rest batches w :
  not_found nick ch w →
  ∃ e, handle_events (user_parted nick ch reason :: rest) w = (Raised e, rest, w) ∧
       run_timer (user_parted nick ch reason :: rest) batches w
         = (Raised e, rest, w).
Proof.
  intros Hnf.
  assert (∃ e, handle_events (user_parted nick ch reason :: rest) w
               = (Raised e, rest, w)) as [e He].
  { rewrite handle_events_cons. unfold handle_event. munfold.
    unfold not_found in Hnf.
    destruct (dict_get (Some ch) (_channel_likes w)) as [v|]; [|eauto].
    destruct (on_part_not_member nick reason v) as [e ->]; eauto. }
  exists e. split; [done|]. by apply run_timer_Raised.
Qed.

Lemma user_parted_not_found_aborts_witness :
  ∃ e, handle_events
         [user_parted "carol" "#test" None; user_joined "dave" "#test"]
         test_widget
       = (Raised e, [user_joined "dave" "#test"], test_widget) ∧
       run_timer
         [user_parted "carol" "#test" None; user_joined "dave" "#test"]
         [[user_joined "erin" "#test"]] test_widget
       = (Raised e, [user_joined "dave" "#test"], test_widget).
Proof.
  apply (user_parted_not_found_aborts "carol" "#test" None
           [user_joined "dave" "#test"] [[user_joined "erin" "#test"]]
           test_widget).
  intros v Hv (ul & Hul & Hin). vm_compute in Hv. injection Hv as <-.
  vm_compute in Hul. injection Hul as <-. set_solver.
Defined.

(** C2, as stated, fails: carol parting #test, where she is not, ends the
    activation, and dave's join behind it in the queue is not handled. *)
Lemma not_found_stops_the_drain :
  ¬ not_found_claim "carol" "#test" None [user_joined "dave" "#test"]
      test_widget.
Proof.
  intros H. unfold not_found_claim in H.
  assert (not_found "carol" "#test" test_widget) as Hnf.
  { intros v Hv (ul & Hul & Hin). vm_compute in Hv. injection Hv as <-.
    vm_compute in Hul. injection Hul as <-. set_solver. }
  specialize (H Hnf). vm_compute in H. discriminate.
Qed.

Lemma handle_events_app pre queue w w' :
  handle_events pre w = (Rearmed, [], w') →
  handle_events (pre ++ queue) w = handle_events queue w'.
Proof.
  revert w. induction pre as [|ev pre IH]; intros w; simpl.
  - by intros [= ->].
  - destruct (handle_event ev w) as [[[]|e] w1]; try done. apply IH.
Qed.

(** C8: when the events queued before a [self_quit] have been handled,
    the [self_quit] ends the activation: what is queued behind it stays
    in the queue, the widget is the one the [self_quit] left, and no
    timer is set, so whatever the backend queues later is never
    handled. *)
Theorem self_quit_stops_draining pre rest batches w w' :
  handle_events pre w = (Rearmed, [], w') →
  handle_events (pre ++ self_quit :: rest) w
    = (Returned, rest, set_quit_calls (S (quit_calls w')) w') ∧
  run_timer (pre ++ self_quit :: rest) batches w
    = (Returned, rest, set_quit_calls (S (quit_calls w')) w').
Proof.
  intros Hpre.
  assert (handle_events (pre ++ self_quit :: rest) w
          = (Returned, rest, set_quit_calls (S (quit_calls w')) w')) as H.
  { by rewrite (handle_events_app _ _ _ _ Hpre). }
  split; [done|]. destruct batches; simpl; by rewrite H.
Qed.

Lemma self_quit_stops_draining_witness :
  handle_events
    ([user_joined "carol" "#test"] ++ self_quit :: [user_joined "dave" "#test"])
    test_widget
  = (Returned, [user_joined "dave" "#test"],
     set_quit_calls (S (quit_calls (after [user_joined "carol" "#test"] test_widget)))
       (after [user_joined "carol" "#test"] test_widget)) ∧
  run_timer
    ([user_joined "carol" "#test"] ++ self_quit :: [user_joined "dave" "#test"])
    [[user_joined "erin" "#test"]] test_widget
  = (Returned, [user_joined "dave" "#test"],
     set_quit_calls (S (quit_calls (after [user_joined "carol" "#test"] test_widget)))
       (after [user_joined "carol" "#test"] test_widget)).
Proof.
  apply (self_quit_stops_draining [user_joined "carol" "#test"]
           [user_joined "dave" "#test"] [[user_joined "erin" "#test"]]
           test_widget).
  vm_compute. reflexivity.
Defined.

(** C9: the notice of the user's own nick change does not reach every
    view.  In a channel that does not list the old nick,
    [on_self_changed_nick] calls [_userlist_replace] without the
    membership test [on_user_changed_nick] has, the [ValueError] of
    [userlist.index] leaves [handle_events], and that channel and the
    views behind it get no notice. *)
Theorem self_changed_nick_raises_in_other_channel :
  let r := handle_events [self_changed_nick "alice" "al"] desync_widget in
  members "#test" desync_widget = Some ["bob"] ∧
  r.1.1 = Raised ValueError ∧
  lines None r.2 = Some [("*", "You are now known as al.")] ∧
  lines (Some "#test") r.2 = Some [] ∧
  lines (Some "carol") r.2 = Some [("testieeeee", "hi")].
Proof.
  repeat split; reflexivity.
Qed.

(** ** dict *)

Lemma dict_get_elem_of k v (d : dict) : dict_get k d = Some v → (k, v) ∈ d.
Proof.
  induction d as [|[k' v'] d IH]; simpl; [done|].
  destruct (decide (k = k')) as [->|]; [intros [= ->]; left|].
  intros. right. auto.
Qed.

Lemma dict_get_None k (d : dict) : dict_get k d = None ↔ k ∉ d.*1.
Proof.
  induction d as [|[k' v'] d IH]; simpl.
  - split; [intros _; apply not_elem_of_nil|done].
  - rewrite not_elem_of_cons. destruct (decide (k = k')); [|tauto].
    split; [done|tauto].
Qed.

Lemma dict_get_is_Some k (d : dict) : is_Some (dict_get k d) ↔ k ∈ d.*1.
Proof.
  rewrite <-not_eq_None_Some, dict_get_None.
  destruct (decide (k ∈ d.*1)); tauto.
Qed.

Lemma elem_of_dict_get k v (d : dict) :
  NoDup d.*1 → (k, v) ∈ d → dict_get k d = Some v.
Proof.
  induction d as [|[k' v'] d IH]; simpl; [by intros _ ?%elem_of_nil|].
  intros [Hk Hnd]%NoDup_cons [[= -> ->]|Hin]%elem_of_cons.
  - by rewrite decide_True.
  - destruct (decide (k = k')) as [->|]; [|auto].
    destruct Hk. apply list_elem_of_fmap. by exists (k', v).
Qed.

Lemma dict_get_set k k' v (d : dict) :
  dict_get k' (dict_set k v d)
  = if decide (k' = k) then Some v else dict_get k' d.
Proof.
  induction d as [|[k1 v1] d IH]; simpl.
  - by destruct (decide (k' = k)).
  - destruct (decide (k = k1)) as [->|]; simpl.
    + by destruct (decide (k' = k1)).
    + destruct (decide (k' = k1)) as [->|]; [by rewrite decide_False|done].
Qed.

Lemma dict_set_fresh k v (d : dict) :
  dict_get k d = None → dict_set k v d = d ++ [(k, v)].
Proof.
  induction d as [|[k1 v1] d IH]; simpl; [done|].
  destruct (decide (k = k1)); [done|]. intros. f_equal. auto.
Qed.

Lemma dict_del_perm k v (d : dict) :
  dict_get k d = Some v → d ≡ₚ (k, v) :: dict_del k d.
Proof.
  induction d as [|[k1 v1] d IH]; simpl; [done|].
  destruct (decide (k = k1)) as [->|]; [by intros [= ->]|].
  intros H. rewrite (IH H) at 1. apply Permutation_swap.
Qed.

Lemma dict_get_del k k' (d : dict) :
  NoDup d.*1 →
  dict_get k' (dict_del k d) = if decide (k' = k) then None else dict_get k' d.
Proof.
  induction d as [|[k1 v1] d IH]; simpl; [by destruct (decide (k' = k))|].
  intros [Hk Hnd]%NoDup_cons. destruct (decide (k = k1)) as [->|]; simpl.
  - destruct (decide (k' = k1)) as [->|]; [|done]. by apply dict_get_None.
  - rewrite (IH Hnd). destruct (decide (k' = k1)) as [->|]; [|done].
    by rewrite decide_False.
Qed.

Lemma dict_del_absent k (d : dict) : dict_get k d = None → dict_del k d = d.
Proof.
  induction d as [|[k1 v1] d IH]; simpl; [done|].
  destruct (decide (k = k1)); [done|]. intros. f_equal. auto.
Qed.

Lemma dict_foreach_all f g (d : dict) :
  (∀ k v, (k, v) ∈ d → f v = Ok (g v)) →
  dict_foreach f d = (Ok (), prod_map id g <$> d).
Proof.
  induction d as [|[k v] d IH]; simpl; [done|]. intros H.
  rewrite (H k v), IH; [done| |left]. intros. apply (H k0). by right.
Qed.

Lemma dict_get_fmap k g (d : dict) :
  dict_get k (prod_map id g <$> d) = g <$> dict_get k d.
Proof.
  induction d as [|[k1 v1] d IH]; simpl; [done|].
  by destruct (decide (k = k1)).
Qed.

(** ** Shapes *)

Lemma same_shape_refl d : same_shape d d.
Proof. by apply Forall2_same_length_lookup_2; [|intros; simplify_eq]. Qed.

Lemma same_shape_keys d d' : same_shape d d' → d'.*1 = d.*1.
Proof.
  induction 1 as [|[??] [??] ?? (? & _) _ IH]; csimpl in *; congruence.
Qed.

Lemma same_shape_oids d d' : same_shape d d' → oids d' = oids d.
Proof.
  unfold oids.
  induction 1 as [|[??] [??] ?? (_ & ? & _) _ IH]; csimpl in *; congruence.
Qed.

Lemma same_shape_length d d' : same_shape d d' → length d' = length d.
Proof. intros H. symmetry. eapply Forall2_length, H. Qed.

Lemma same_shape_get d d' k v :
  same_shape d d' → dict_get k d = Some v →
  ∃ v', dict_get k d' = Some v' ∧ oid v' = oid v ∧ name v' = name v.
Proof.
  induction 1 as [|[k1 v1] [k2 v2] d d' (Hk & Ho & Hn) _ IH]; simpl in *;
    [done|]. subst k2.
  destruct (decide (k = k1)); [|done]. intros [= <-]. eauto.
Qed.

Lemma same_shape_names d d' :
  same_shape d d' →
  Forall (λ kv, name kv.2 = kv.1) d → Forall (λ kv, name kv.2 = kv.1) d'.
Proof.
  induction 1 as [|[??] [??] ?? (Hk & _ & Hn) _ IH]; [done|].
  intros [??]%Forall_cons. simpl in *. constructor; [simpl; congruence|auto].
Qed.

Lemma same_shape_alloc d d' n :
  same_shape d d' →
  Forall (λ kv, oid kv.2 < n) d → Forall (λ kv, oid kv.2 < n) d'.
Proof.
  induction 1 as [|[??] [??] ?? (_ & Ho & _) _ IH]; [done|].
  intros [??]%Forall_cons. simpl in *. constructor; [simpl; lia|auto].
Qed.

Lemma dict_set_shape k v v0 d :
  dict_get k d = Some v0 → oid v = oid v0 → name v = name v0 →
  same_shape d (dict_set k v d).
Proof.
  intros Hget Ho Hn. induction d as [|[k1 v1] d IH]; simpl in *; [done|].
  destruct (decide (k = k1)) as [->|].
  - injection Hget as ->. constructor; [done|apply same_shape_refl].
  - constructor; [done|by apply IH].
Qed.

Lemma dict_foreach_shape f d :
  keeps_id f → same_shape d (dict_foreach f d).2.
Proof.
  intros Hf. induction d as [|[k v] d IH]; simpl; [constructor|].
  destruct (f v) as [v'|e] eqn:Hv; simpl; [|apply same_shape_refl].
  destruct (Hf _ _ Hv). by constructor.
Qed.

Lemma wf_same_shape w d' :
  wf w → same_shape (_channel_likes w) d' → wf (set_channel_likes d' w).
Proof.
  intros [Hk Hn Ho Ha Hr (i & v & Hs & Hi & Hv & Hc)] Hsh.
  destruct (same_shape_get _ _ _ _ Hsh Hv) as (v' & Hv' & Ho' & _).
  split; simpl.
  - by rewrite (same_shape_keys _ _ Hsh).
  - by eapply same_shape_names.
  - by rewrite (same_shape_oids _ _ Hsh).
  - by eapply same_shape_alloc.
  - by rewrite (same_shape_keys _ _ Hsh).
  - exists i, v'. by rewrite Ho'.
Qed.

(** ** The methods of a view keep its identity and name *)

Lemma keeps_id_on_join nick : keeps_id (on_join nick).
Proof.
  intros v v'. unfold on_join, name_is_channel, users_of, index_or_raise.
  destruct (name v) eqn:?; simpl; [|done]. destruct (startswith _ _); simpl; [|done].
  destruct (userlist v), (userlistbox v); simpl; try done.
  destruct (list_index _ _); simpl; [|done]. by intros [= <-].
Qed.

Lemma keeps_id_on_part nick reason : keeps_id (on_part nick reason).
Proof.
  intros v v'. unfold on_part, name_is_channel, users_of, index_or_raise.
  destruct (name v) eqn:?; simpl; [|done]. destruct (startswith _ _); simpl; [|done].
  destruct (userlist v), (userlistbox v); simpl; try done.
  destruct (list_index _ _); simpl; [|done]. by intros [= <-].
Qed.

Lemma keeps_id_on_quit nick reason : keeps_id (on_quit nick reason).
Proof.
  intros v v'. unfold on_quit, name_is_channel, users_of, index_or_raise.
  destruct (name v) eqn:?; simpl; [|done]. destruct (startswith _ _); simpl.
  - destruct (userlist v), (userlistbox v); simpl; try done.
    destruct (list_index _ _); simpl; [|done]. by intros [= <-].
  - destruct (bool_decide _); by intros [= <-].
Qed.

Lemma keeps_id_userlist_replace old new : keeps_id (_userlist_replace old new).
Proof.
  intros v v'. unfold _userlist_replace, users_of, index_or_raise.
  destruct (userlist v), (userlistbox v); simpl; try done.
  destruct (list_index old _); simpl; [|done].
  destruct (list_index new _); simpl; [|done]. by intros [= <-].
Qed.

Lemma keeps_id_on_self_changed_nick old new :
  keeps_id (on_self_changed_nick old new).
Proof.
  intros v v'. unfold on_self_changed_nick.
  destruct (userlist v).
  - destruct (_userlist_replace old new v) as [v1|] eqn:Hr; simpl; [|done].
    apply keeps_id_userlist_replace in Hr. by intros [= <-].
  - simpl. by intros [= <-].
Qed.

Lemma keeps_id_on_user_changed_nick old new :
  keeps_id (on_user_changed_nick old new).
Proof.
  intros v v'. unfold on_user_changed_nick.
  destruct (name v) eqn:?; [|by intros [= <-]].
  destruct (userlist v).
  - destruct (negb _); [done|]. destruct (bool_decide _); [by intros [= <-]|].
    destruct (_userlist_replace old new v) as [v1|] eqn:Hr; simpl; [|done].
    apply keeps_id_userlist_replace in Hr as [??].
    intros [= <-]. simpl. split; congruence.
  - destruct (startswith _ _); [done|].
    destruct (bool_decide _); by intros [= <-].
Qed.

Lemma keeps_id_user_quit_body nick reason :
  keeps_id (user_quit_body nick reason).
Proof.
  intros v v'. unfold user_quit_body.
  destruct (name v) eqn:?; [|by intros [= <-]].
  destruct (_ || _); [|by intros [= <-]].
  intros [??]%keeps_id_on_quit. split; congruence.
Qed.

Lemma keeps_id_add_message sender msg :
  keeps_id (λ v, Ok (add_message sender msg v)).
Proof. intros v v'. by intros [= <-]. Qed.

(** ** Rows of the selector *)

Lemma row_key_0 sel : row_key 0 sel = None.
Proof. done. Qed.

Lemma row_key_S a sel label names n :
  lb_items sel = label :: names → names !! a = Some n →
  row_key (S a) sel = Some n.
Proof. intros Hi Ha. unfold row_key, lb_get. simpl. by rewrite Hi; simpl; rewrite Ha. Qed.

Section rows.
Context (w : IrcWidget) (Hwf : wf w).

Lemma wf_length :
  length (_channel_likes w) = length (lb_items (_channel_selector w)).
Proof.
  destruct Hwf as [_ _ _ _ (names & -> & _ & Hp) _].
  apply Permutation_length in Hp. rewrite length_fmap in Hp.
  simpl in *. by rewrite length_fmap in Hp.
Qed.

Lemma wf_names_NoDup names :
  lb_items (_channel_selector w) = server_label w :: names → NoDup names.
Proof.
  destruct Hwf as [Hk _ _ _ (names' & Hi & _ & Hp) _]. rewrite Hi.
  intros [= <-]. rewrite <-Hp in Hk. apply NoDup_cons in Hk as [_ Hk].
  by apply NoDup_fmap in Hk; [|apply _].
Qed.

Lemma wf_items_NoDup : NoDup (lb_items (_channel_selector w)).
Proof.
  pose proof wf_names_NoDup as Hnd.
  destruct Hwf as [_ _ _ _ (names & Hi & Hl & _) _]. rewrite Hi.
  apply NoDup_cons. eauto.
Qed.

Lemma wf_row_live i :
  i < length (lb_items (_channel_selector w)) →
  is_Some (dict_get (row_key i (_channel_selector w)) (_channel_likes w)).
Proof.
  destruct Hwf as [_ _ _ _ (names & Hi & _ & Hp) _]. rewrite Hi. intros Hlt.
  apply dict_get_is_Some. rewrite <-Hp. destruct i as [|a]; [left|].
  simpl in Hlt. destruct (lookup_lt_is_Some_2 names a) as [n Hn]; [lia|].
  rewrite (row_key_S a _ _ _ n Hi Hn). right.
  apply list_elem_of_fmap. exists n. split; [done|].
  by eapply list_elem_of_lookup_2.
Qed.

Lemma wf_key_row n :
  is_Some (dict_get (Some n) (_channel_likes w)) →
  ∃ a names, lb_items (_channel_selector w) = server_label w :: names ∧
             names !! a = Some n ∧
             list_index n (lb_items (_channel_selector w)) = Some (S a) ∧
             row_key (S a) (_channel_selector w) = Some n.
Proof.
  pose proof wf_names_NoDup as Hnd.
  destruct Hwf as [_ _ _ _ (names & Hi & Hl & Hp) _].
  intros Hn%dict_get_is_Some. rewrite <-Hp in Hn.
  apply elem_of_cons in Hn as [?|Hn]; [done|].
  apply list_elem_of_fmap in Hn as (n' & [= <-] & Hn).
  apply list_elem_of_lookup_1 in Hn as [a Ha].
  exists a, names. repeat split; [done..| |by eapply row_key_S].
  rewrite Hi. simpl. rewrite decide_False.
  - by rewrite (list_index_NoDup n names a (Hnd _ Hi) Ha).
  - intros ->. apply Hl. by eapply list_elem_of_lookup_2.
Qed.

Lemma wf_row_inj i j :
  i < length (lb_items (_channel_selector w)) →
  j < length (lb_items (_channel_selector w)) →
  row_key i (_channel_selector w) = row_key j (_channel_selector w) → i = j.
Proof.
  pose proof wf_items_NoDup as Hnd. intros Hi Hj.
  destruct (lookup_lt_is_Some_2 _ _ Hi) as [x Hx].
  destruct (lookup_lt_is_Some_2 _ _ Hj) as [y Hy].
  unfold row_key, lb_get. rewrite Hx, Hy. simpl.
  destruct (decide (i = 0)), (decide (j = 0)); try congruence.
  intros [= ->]. eapply NoDup_lookup; eauto.
Qed.

Lemma wf_oid_inj k1 v1 k2 v2 :
  dict_get k1 (_channel_likes w) = Some v1 →
  dict_get k2 (_channel_likes w) = Some v2 →
  oid v1 = oid v2 → k1 = k2 ∧ v1 = v2.
Proof.
  destruct Hwf as [_ _ Ho _ _ _].
  intros H1%dict_get_elem_of H2%dict_get_elem_of Heq.
  apply list_elem_of_lookup_1 in H1 as [i Hi].
  apply list_elem_of_lookup_1 in H2 as [j Hj].
  assert (i = j) as ->.
  { eapply (NoDup_lookup _ _ _ (oid v1) Ho); unfold oids;
      rewrite list_lookup_fmap; [by rewrite Hi|by rewrite Hj, Heq]. }
  rewrite Hi in Hj. by injection Hj as -> ->.
Qed.
End rows.

(** ** Selecting a row *)

Lemma set_current_same w c :
  _current_channel_like w = c → set_current c w = w.
Proof. destruct w. simpl. by intros ->. Qed.

Lemma on_selection_spec w t v :
  lb_selection (_channel_selector w) = [t] →
  dict_get (row_key t (_channel_selector w)) (_channel_likes w) = Some v →
  _on_selection w = (Ok (), set_current (Some (oid v)) w).
Proof.
  intros Hs Hv. unfold _on_selection, lb_curselection, row_key in *. munfold.
  rewrite Hs. destruct (decide (t = 0)); rewrite Hv;
    (destruct (decide (_current_channel_like w = Some (oid v)));
     [by rewrite set_current_same|done]).
Qed.

Lemma select_index_int w t v :
  t < length (lb_items (_channel_selector w)) →
  dict_get (row_key t (_channel_selector w)) (_channel_likes w) = Some v →
  _select_index (tk_int (Z.of_nat t)) w
  = (Ok (), set_current (Some (oid v))
              (set_selector (mkListbox (lb_items (_channel_selector w)) [t]) w)).
Proof.
  intros Ht Hv. unfold _select_index. munfold.
  unfold lb_selection_set, lb_selection_clear. simpl.
  rewrite bool_decide_eq_true_2 by lia. rewrite Nat2Z.id. simpl.
  exact (on_selection_spec
           (set_selector (mkListbox (lb_items (_channel_selector w)) [t]) w)
           t v eq_refl Hv).
Qed.

Lemma select_index_end w x items v :
  lb_items (_channel_selector w) = items ++ [x] →
  dict_get (row_key (length items) (_channel_selector w)) (_channel_likes w)
    = Some v →
  _select_index tk_end w
  = (Ok (), set_current (Some (oid v))
              (set_selector (mkListbox (items ++ [x]) [length items]) w)).
Proof.
  intros Hi Hv. unfold _select_index. munfold.
  unfold lb_selection_set, lb_selection_clear. simpl. rewrite Hi.
  rewrite length_app. simpl. replace (length items + 1) with (S (length items))
    by lia. simpl.
  apply (on_selection_spec
           (set_selector (mkListbox (items ++ [x]) [length items]) w)
           (length items) v eq_refl).
  unfold row_key, lb_get in *. simpl. by rewrite Hi in Hv.
Qed.

(** ** Creating a view *)

Lemma lb_insert_end_items x lb :
  lb_items (lb_insert_end x lb) = lb_items lb ++ [x].
Proof. unfold lb_insert_end. simpl. by rewrite firstn_all, skipn_all. Qed.

Lemma add_channel_like_taken w v :
  is_Some (dict_get (name v) (_channel_likes w)) →
  add_channel_like v w = (Raise AssertionError, w).
Proof.
  intros H. unfold add_channel_like, contains. munfold.
  by rewrite bool_decide_eq_true_2.
Qed.

Lemma add_channel_like_spec w v n :
  wf w → name v = Some n → dict_get (Some n) (_channel_likes w) = None →
  n ≠ server_label w → oid v < next_oid w → oid v ∉ oids (_channel_likes w) →
  let w' := set_current (Some (oid v))
              (set_selector
                 (mkListbox (lb_items (_channel_selector w) ++ [n])
                            [length (lb_items (_channel_selector w))])
                 (set_channel_likes (_channel_likes w ++ [(Some n, v)]) w)) in
  add_channel_like v w = (Ok (), w') ∧ wf w'.
Proof.
  intros Hwf Hn Hfree Hlabel Halloc Hfresh w'.
  pose proof Hwf as [Hk Hnm Ho Ha (names & Hi & Hl & Hp) _].
  assert (dict_get (Some n) (_channel_likes w ++ [(Some n, v)]) = Some v) as Hv.
  { rewrite <-(dict_set_fresh _ _ _ Hfree), dict_get_set. by rewrite decide_True. }
  split.
  - unfold add_channel_like, contains. munfold. rewrite Hn.
    rewrite bool_decide_eq_false_2 by (rewrite Hfree; by intros [??]).
    simpl. rewrite (dict_set_fresh _ _ _ Hfree).
    rewrite (select_index_end _ n (lb_items (_channel_selector w)) v);
      [done|apply lb_insert_end_items|]. simpl.
    unfold row_key, lb_get. simpl. rewrite firstn_all, skipn_all, Hi. simpl.
    rewrite lookup_app_r by done. replace (_ - _) with 0 by lia. by simpl.
  - split; simpl.
    + rewrite fmap_app. apply NoDup_app. repeat split; [done| |apply NoDup_singleton].
      intros k Hk1 ->%list_elem_of_singleton. by apply dict_get_None in Hfree.
    + apply Forall_app. split; [done|]. by repeat constructor.
    + unfold oids. rewrite fmap_app. apply NoDup_app.
      repeat split; [done| |apply NoDup_singleton].
      by intros k Hk1 ->%list_elem_of_singleton.
    + apply Forall_app. split; [done|]. by repeat constructor.
    + exists (names ++ [n]). rewrite Hi. split; [done|]. split.
      * change (server_label w ∉ names ++ [n]).
        rewrite not_elem_of_app, list_elem_of_singleton.
        split; [done|congruence].
      * rewrite !fmap_app. simpl. rewrite <-Hp. by rewrite app_comm_cons.
    + exists (length (lb_items (_channel_selector w))), v.
      repeat split; [rewrite length_app; simpl; lia|].
      unfold row_key, lb_get. simpl. rewrite Hi. simpl.
      rewrite lookup_app_r by done. replace (_ - _) with 0 by lia. by simpl.
Qed.

Lemma wf_init host nick : wf (IrcWidget_init host nick).2.
Proof.
  split; simpl.
  - apply NoDup_singleton.
  - by repeat constructor.
  - apply NoDup_singleton.
  - repeat constructor. 
  - exists []. split; [done|]. split; [apply not_elem_of_nil|done].
  - exists 0, (ChannelLikeView_init 0 None None).
    split; [done|]. split; [lia|done].
Qed.

Lemma wf_set_next_oid w n :
  wf w → next_oid w ≤ n → wf (set_next_oid n w).
Proof.
  intros [? ? ? Ha ? ?] Hn. split; simpl; try done.
  eapply Forall_impl; [exact Ha|]. simpl. intros. lia.
Qed.

Lemma wf_set_nickbutton w s : wf w → wf (set_nickbutton s w).
Proof. by intros []. Qed.

Lemma wf_set_quit_calls w n : wf w → wf (set_quit_calls n w).
Proof. by intros []. Qed.

Lemma wf_invariants w : wf w → server_present w ∧ active_live w.
Proof.
  intros Hwf. split.
  - apply (wf_row_live w Hwf 0).
    destruct Hwf as [_ _ _ _ (names & -> & _) _]. simpl. lia.
  - destruct Hwf as [_ _ _ _ _ (i & v & _ & _ & Hv & Hc)].
    by exists (row_key i (_channel_selector w)), v.
Qed.

(** ** Removing a view *)

Lemma row_key_delete sel r i :
  0 < r → i ≠ r →
  row_key (if decide (i < r) then i else pred i) (lb_delete r sel)
  = row_key i sel.
Proof.
  intros Hr Hi. unfold row_key, lb_get, lb_delete. simpl.
  destruct (decide (i < r)).
  - by rewrite list_lookup_delete_lt.
  - rewrite !decide_False by lia. rewrite list_lookup_delete_ge by lia.
    by replace (S (pred i)) with i by lia.
Qed.

Lemma dict_del_parts k v (d : dict) n :
  dict_get k d = Some v →
  NoDup d.*1 → Forall (λ kv, name kv.2 = kv.1) d → NoDup (oids d) →
  Forall (λ kv, oid kv.2 < n) d →
  NoDup (dict_del k d).*1 ∧ Forall (λ kv, name kv.2 = kv.1) (dict_del k d) ∧
  NoDup (oids (dict_del k d)) ∧ Forall (λ kv, oid kv.2 < n) (dict_del k d) ∧
  (k ∉ (dict_del k d).*1) ∧ (oid v ∉ oids (dict_del k d)) ∧
  d.*1 ≡ₚ k :: (dict_del k d).*1.
Proof.
  intros Hp%dict_del_perm. unfold oids. rewrite Hp at 1 2 3 4. csimpl.
  intros [??]%NoDup_cons [??]%Forall_cons [??]%NoDup_cons [??]%Forall_cons.
  repeat split; try done. by rewrite Hp at 1.
Qed.

Lemma rows_delete_perm names a n (d : dict) v :
  names !! a = Some n → dict_get (Some n) d = Some v →
  None :: (Some <$> names) ≡ₚ d.*1 →
  None :: (Some <$> delete a names) ≡ₚ (dict_del (Some n) d).*1.
Proof.
  intros Ha Hv Hp. apply dict_del_perm in Hv.
  rewrite Hv, (delete_Permutation _ _ _ Ha) in Hp. csimpl in Hp.
  rewrite Permutation_swap in Hp. by apply Permutation_cons_inv in Hp.
Qed.

Lemma remove_entry_spec w n v :
  wf w → dict_get (Some n) (_channel_likes w) = Some v →
  _current_channel_like w ≠ Some (oid v) →
  ∃ a, list_index n (lb_items (_channel_selector w)) = Some (S a) ∧
    let w' := set_channel_likes (dict_del (Some n) (_channel_likes w))
                (set_selector (lb_delete (S a) (_channel_selector w)) w) in
    remove_entry n w = (Ok (), w') ∧ wf w'.
Proof.
  intros Hwf Hv Hcur.
  destruct (wf_key_row w Hwf n) as (a & names & Hi & Ha & Hidx & Hrow); [eauto|].
  exists a. split; [done|]. intros w'. split.
  { unfold remove_entry, index_or_raise. munfold. rewrite Hidx. simpl.
    by rewrite Hv. }
  pose proof Hwf as [Hk Hnm Ho Hal (names' & Hi' & Hl & Hp)
                       (i & vc & Hs & Hlt & Hvc & Hc)].
  rewrite Hi in Hi'. injection Hi' as <-.
  destruct (dict_del_parts _ _ _ _ Hv Hk Hnm Ho Hal)
    as (? & ? & ? & ? & ? & ? & ?).
  assert (i ≠ S a) as Hne.
  { intros ->. rewrite Hrow, Hv in Hvc. congruence. }
  split; simpl; try done.
  - exists (delete a names). rewrite Hi. split; [done|]. split.
    + intros ?%list_elem_of_delete_inv. by apply Hl.
    + by eapply rows_delete_perm.
  - exists (if decide (i < S a) then i else pred i), vc.
    rewrite Hs. simpl. split; [|split; [|split; [|done]]].
    + repeat case_decide; try done; lia.
    + rewrite Hi in Hlt |- *. simpl in *. rewrite length_delete by eauto.
      apply lookup_lt_Some in Ha. case_decide; lia.
    + rewrite row_key_delete by (done || lia).
      rewrite dict_get_del by done. rewrite decide_False; [done|].
      intros Heq. apply Hne. apply (wf_row_inj w Hwf); [done| |congruence].
      rewrite Hi. simpl. apply lookup_lt_Some in Ha. lia.
Qed.

Lemma wf_name_of w k v :
  wf w → dict_get k (_channel_likes w) = Some v → name v = k.
Proof.
  intros [_ Hnm _ _ _ _] Hv%dict_get_elem_of.
  by eapply Forall_forall in Hnm; [|done].
Qed.

Lemma select_something_else_inactive w v :
  _current_channel_like w ≠ Some (oid v) →
  select_something_else v w = (Ok (), w).
Proof.
  intros H. unfold select_something_else. munfold.
  by rewrite decide_True by congruence.
Qed.

Lemma select_something_else_active w n v :
  wf w → dict_get (Some n) (_channel_likes w) = Some v →
  _current_channel_like w = Some (oid v) →
  ∃ a v2,
    list_index n (lb_items (_channel_selector w)) = Some (S a) ∧
    other_row (S a) w < length (lb_items (_channel_selector w)) ∧
    dict_get (row_key (other_row (S a) w) (_channel_selector w))
      (_channel_likes w) = Some v2 ∧
    oid v2 ≠ oid v ∧
    let w1 := set_current (Some (oid v2))
                (set_selector (mkListbox (lb_items (_channel_selector w))
                                 [other_row (S a) w]) w) in
    select_something_else v w = (Ok (), w1) ∧ wf w1.
Proof.
  intros Hwf Hv Hcur.
  destruct (wf_key_row w Hwf n) as (a & names & Hi & Ha & Hidx & Hrow); [eauto|].
  assert (S a < length (lb_items (_channel_selector w))) as Hlt.
  { rewrite Hi. simpl. apply lookup_lt_Some in Ha. lia. }
  assert (other_row (S a) w < length (lb_items (_channel_selector w))
          ∧ other_row (S a) w ≠ S a) as [Hlt' Hne].
  { unfold other_row. case_decide; lia. }
  destruct (wf_row_live w Hwf _ Hlt') as [v2 Hv2].
  assert (oid v2 ≠ oid v) as Hoid.
  { intros Heq. destruct (wf_oid_inj w Hwf _ _ _ _ Hv2 Hv Heq) as [Hk _].
    rewrite <-Hrow in Hk. by apply (wf_row_inj w Hwf) in Hk. }
  exists a, v2. repeat split; try done.
  - unfold select_something_else, index_or_raise. munfold.
    rewrite decide_False by (rewrite Hcur; auto).
    rewrite (wf_name_of w _ _ Hwf Hv), Hidx, (wf_length w Hwf).
    unfold other_row in *.
    destruct (decide (Z.of_nat (S a) = _)), (decide (S a = _)); try lia.
    + replace (Z.of_nat (S a) - 1)%Z with (Z.of_nat (S a - 1)) by lia.
      by apply select_index_int.
    + replace (Z.of_nat (S a) + 1)%Z with (Z.of_nat (S a + 1)) by lia.
      by apply select_index_int.
  - by destruct Hwf.
  - by destruct Hwf.
  - by destruct Hwf.
  - by destruct Hwf.
  - by destruct Hwf.
  - exists (other_row (S a) w), v2. by simpl.
Qed.

Lemma remove_channel_like_spec w n v :
  wf w → dict_get (Some n) (_channel_likes w) = Some v →
  ∃ w', remove_channel_like v w = (Ok (), w') ∧ wf w' ∧ same_env w w' ∧
        _channel_likes w' = dict_del (Some n) (_channel_likes w) ∧
        (_current_channel_like w ≠ Some (oid v) →
         _current_channel_like w' = _current_channel_like w) ∧
        (_current_channel_like w = Some (oid v) →
         ∃ r v2, list_index n (lb_items (_channel_selector w)) = Some r ∧
           dict_get (row_key (other_row r w) (_channel_selector w))
             (_channel_likes w) = Some v2 ∧
           dict_get (row_key (other_row r w) (_channel_selector w))
             (_channel_likes w') = Some v2 ∧
           _current_channel_like w' = Some (oid v2)).
Proof.
  intros Hwf Hv. unfold remove_channel_like.
  rewrite (wf_name_of w _ _ Hwf Hv). munfold.
  destruct (decide (_current_channel_like w = Some (oid v))) as [Hcur|Hcur].
  - destruct (select_something_else_active w n v Hwf Hv Hcur)
      as (a & v2 & Hidx & Hlt & Hv2 & Hoid & Hsel & Hwf1).
    rewrite Hsel.
    destruct (remove_entry_spec _ n v Hwf1 Hv) as (a' & _ & -> & Hwf');
      [simpl; congruence|].
    eexists. split; [done|]. split; [done|]. split; [done|]. split; [done|].
    split; [done|]. intros _. exists (S a), v2. repeat split; try done.
    simpl. pose proof Hwf as [Hk _ _ _ _ _]. rewrite dict_get_del by done.
    rewrite decide_False; [done|]. intros Heq. rewrite Heq, Hv in Hv2.
    congruence.
  - rewrite select_something_else_inactive by done.
    destruct (remove_entry_spec _ n v Hwf Hv Hcur) as (a' & _ & -> & Hwf').
    eexists. split; [done|]. split; [done|]. split; [done|]. split; [done|].
    split; [done|]. done.
Qed.

(** ** Renaming a view *)

Lemma take_delete_insert (l : list string) i x :
  i < length l → take i (delete i l) ++ x :: drop i (delete i l) = <[i:=x]> l.
Proof.
  revert i. induction l as [|y l IH]; intros [|i] Hi; simpl in *;
    try done; try lia.
  f_equal. apply IH. lia.
Qed.

Lemma insert_delete_perm (l : list string) i x y :
  l !! i = Some y → <[i:=x]> l ≡ₚ x :: delete i l.
Proof.
  revert i. induction l as [|z l IH]; intros [|i] Hi; simpl in *; try done.
  rewrite (IH _ Hi). apply Permutation_swap.
Qed.

Lemma lb_replace_row sel r x i :
  r < length (lb_items sel) → lb_selection sel = [i] →
  lb_insert r x (lb_delete r sel)
  = mkListbox (<[r:=x]> (lb_items sel)) (if decide (i = r) then [] else [i]).
Proof.
  intros Hr Hs. unfold lb_insert, lb_delete. simpl.
  rewrite take_delete_insert, Hs by done. f_equal. simpl.
  destruct (decide (i < r)); simpl.
  - rewrite !decide_False by lia. done.
  - destruct (decide (i = r)); [done|]. simpl.
    rewrite decide_True by lia. f_equal. lia.
Qed.

Lemma same_env_refl w : same_env w w.
Proof. by repeat split. Qed.

Lemma same_env_trans w1 w2 w3 :
  same_env w1 w2 → same_env w2 w3 → same_env w1 w3.
Proof.
  intros (? & ? & ? & ? & ?) (? & ? & ? & ? & ?). repeat split; congruence.
Qed.

Lemma same_env_label w w' : same_env w w' → server_label w' = server_label w.
Proof. intros (H & _). unfold server_label. by rewrite H. Qed.

Lemma rename_entry_spec w old new v :
  wf w → dict_get (Some old) (_channel_likes w) = Some v →
  dict_get (Some new) (_channel_likes w) = None → new ≠ server_label w →
  ∃ w', rename_entry old new w = (Ok (), w') ∧ wf w' ∧ same_env w w' ∧
        _channel_likes w'
        = dict_set (Some new) (set_name (Some new) v)
            (dict_del (Some old) (_channel_likes w)) ∧
        _current_channel_like w' = _current_channel_like w.
Proof.
  intros Hwf Hv Hfree Hlabel.
  assert (old ≠ new) as Hon by (intros ->; congruence).
  destruct (wf_key_row w Hwf old) as (a & names & Hi & Ha & Hidx & Hrow);
    [eauto|].
  pose proof Hwf as [Hk Hnm Ho Hal (names' & Hi' & Hl & Hp)
                       (i & vc & Hs & Hlt & Hvc & Hc)].
  rewrite Hi in Hi'. injection Hi' as <-.
  assert (S a < length (lb_items (_channel_selector w))) as Hlta.
  { rewrite Hi. simpl. apply lookup_lt_Some in Ha. lia. }
  set (v' := set_name (Some new) v).
  set (d2 := dict_set (Some new) v' (dict_del (Some old) (_channel_likes w))).
  set (items' := <[S a := new]> (lb_items (_channel_selector w))).
  set (w' := set_selector (mkListbox items' [i]) (set_channel_likes d2 w)).
  assert (dict_get (Some new) (dict_del (Some old) (_channel_likes w)) = None)
    as Hfree1.
  { rewrite dict_get_del by done. by rewrite decide_False by congruence. }
  assert (dict_get (Some new) d2 = Some v') as Hnew.
  { unfold d2. rewrite dict_get_set. by rewrite decide_True. }
  assert (∀ k, k ≠ Some new → k ≠ Some old →
               dict_get k d2 = dict_get k (_channel_likes w)) as Hother.
  { intros k ??. unfold d2. rewrite dict_get_set, decide_False by done.
    rewrite dict_get_del by done. by rewrite decide_False. }
  assert (∀ sl, row_key (S a) (mkListbox items' sl) = Some new) as Hrow'.
  { intros sl. unfold row_key, lb_get, items'. simpl.
    by rewrite list_lookup_insert_eq by done. }
  assert (i ≠ S a → row_key i (mkListbox items' [i])
                    = row_key i (_channel_selector w)) as Hrowi.
  { intros. unfold row_key, lb_get, items'. simpl.
    by rewrite list_lookup_insert_ne by done. }
  assert (i = S a → vc = v) as Hvcv.
  { intros ->. rewrite Hrow, Hv in Hvc. congruence. }
  assert (wf w') as Hwf'.
  { destruct (dict_del_parts _ _ _ _ Hv Hk Hnm Ho Hal)
      as (Hk1 & Hnm1 & Ho1 & Hal1 & _ & Hov & Hp1).
    unfold w', d2. rewrite (dict_set_fresh _ _ _ Hfree1). split; simpl.
    - rewrite fmap_app. apply NoDup_app.
      repeat split; [done| |apply NoDup_singleton].
      intros k Hk2 ->%list_elem_of_singleton. by apply dict_get_None in Hfree1.
    - apply Forall_app. split; [done|]. by repeat constructor.
    - unfold oids in *. rewrite fmap_app. apply NoDup_app.
      repeat split; [done| |apply NoDup_singleton].
      by intros k Hk2 ->%list_elem_of_singleton.
    - apply Forall_app. split; [done|]. repeat constructor. simpl.
      apply dict_get_elem_of in Hv. by eapply Forall_forall in Hal; [|done].
    - exists (<[a := new]> names). unfold items'. rewrite Hi.
      split; [done|]. split.
      + change (server_label w ∉ <[a:=new]> names).
        rewrite (insert_delete_perm _ _ _ _ Ha), not_elem_of_cons.
        split; [congruence|]. intros ?%list_elem_of_delete_inv. by apply Hl.
      + rewrite fmap_app. csimpl.
        rewrite (insert_delete_perm _ _ _ _ Ha). csimpl.
        rewrite <-Permutation_cons_append, Permutation_swap.
        apply Permutation_skip. by eapply rows_delete_perm.
    - rewrite <-(dict_set_fresh _ _ _ Hfree1). fold d2.
      destruct (decide (i = S a)) as [Heq|Hne].
      + exists i, v'. split; [done|]. split.
        { unfold items'. by rewrite length_insert. }
        subst i. rewrite Hrow', Hnew. split; [done|].
        by rewrite Hc, (Hvcv eq_refl).
      + exists i, vc. split; [done|]. split.
        { unfold items'. by rewrite length_insert. }
        rewrite (Hrowi Hne). split; [|done]. rewrite Hother; [done| |].
        * intros Heq. rewrite Heq, Hfree in Hvc. done.
        * intros Heq. apply Hne. apply (wf_row_inj w Hwf); [done..|].
          congruence. }
  exists w'. split; [|split; [done|split; [by repeat split|by split]]].
  unfold rename_entry, index_or_raise, lb_curselection. munfold.
  rewrite Hv. simpl. rewrite Hidx. simpl. rewrite Hs.
  rewrite (lb_replace_row _ (S a) new i) by done. fold v' d2 items'.
  destruct (decide (i = S a)) as [->|Hne].
  - rewrite bool_decide_eq_true_2 by left.
    erewrite (select_index_int _ (S a) v'); [|by unfold items'; simpl;
      rewrite length_insert|by simpl; rewrite Hrow'].
    f_equal. rewrite <-(set_current_same w' (Some (oid v'))); [done|].
    simpl. by rewrite Hc, (Hvcv eq_refl).
  - by rewrite bool_decide_eq_false_2
      by (rewrite list_elem_of_singleton; congruence).
Qed.

Lemma rename_channel_like_spec w old new v :
  wf w → dict_get (Some old) (_channel_likes w) = Some v →
  old ≠ new → new ≠ server_label w →
  ∃ w', rename_channel_like old new w = (Ok (), w') ∧ wf w' ∧ same_env w w' ∧
        _channel_likes w'
        = dict_set (Some new) (set_name (Some new) v)
            (dict_del (Some old) (dict_del (Some new) (_channel_likes w))) ∧
        (_current_channel_like w = Some (oid v) →
         _current_channel_like w' = Some (oid v)).
Proof.
  intros Hwf Hv Hon Hlabel. pose proof Hwf as [Hk _ _ _ _ _].
  unfold rename_channel_like, contains. munfold.
  destruct (dict_get (Some new) (_channel_likes w)) as [vn|] eqn:Hvn.
  - rewrite bool_decide_eq_true_2 by eauto. munfold. rewrite Hvn.
    destruct (remove_channel_like_spec w new vn Hwf Hvn)
      as (w1 & -> & Hwf1 & Henv1 & Hd1 & Hcur1 & _).
    destruct (rename_entry_spec w1 old new v Hwf1)
      as (w2 & -> & Hwf2 & Henv2 & Hd2 & Hcur2).
    + rewrite Hd1, dict_get_del by done. by rewrite decide_False by congruence.
    + rewrite Hd1, dict_get_del by done. by rewrite decide_True.
    + by rewrite (same_env_label _ _ Henv1).
    + exists w2. split; [done|]. split; [done|].
      split; [by eapply same_env_trans|]. split; [by rewrite Hd2, Hd1|].
      intros Hc. rewrite Hcur2, Hcur1; [done|]. rewrite Hc. intros [= Heq].
      destruct (wf_oid_inj w Hwf _ _ _ _ Hv Hvn Heq). congruence.
  - rewrite bool_decide_eq_false_2 by (by intros [??]). munfold.
    destruct (rename_entry_spec w old new v Hwf Hv Hvn Hlabel)
      as (w2 & -> & Hwf2 & Henv2 & Hd2 & Hcur2).
    exists w2. split; [done|]. split; [done|]. split; [done|].
    split; [by rewrite Hd2, (dict_del_absent _ _ Hvn)|]. congruence.
Qed.

(** ** Every event keeps the invariant *)

Lemma same_env_host w w' : same_env w w' → core_host w' = core_host w.
Proof. by intros (? & _). Qed.

Section pres.
Context (h : string).

Lemma pres_ret {A} (a : A) : pres h (mret a).
Proof. by intros w Hh Hwf. Qed.

Lemma pres_raise {A} e : pres h (@raise A e).
Proof. by intros w Hh Hwf. Qed.

Lemma pres_get : pres h get.
Proof. by intros w Hh Hwf. Qed.

Lemma pres_bind {A B} (m : M A) (f : A → M B) :
  pres h m → (∀ a, pres h (f a)) → pres h (m ≫= f).
Proof.
  intros Hm Hf w Hh Hwf. destruct (Hm w Hh Hwf) as [Hwf1 Hh1].
  unfold mbind, M_bind.
  destruct (m w) as [[a|e] w1]; simpl in *; [|done].
  by apply Hf.
Qed.

Lemma pres_set_nickbutton s : pres h (modify (set_nickbutton s)).
Proof. intros w Hh Hwf. split; [by apply wf_set_nickbutton|done]. Qed.

Lemma pres_quit :
  pres h (modify (λ w, set_quit_calls (S (quit_calls w)) w)).
Proof. intros w Hh Hwf. split; [by apply wf_set_quit_calls|done]. Qed.

Lemma pres_for_each_view f : keeps_id f → pres h (for_each_view f).
Proof.
  intros Hf w Hh Hwf. split; [|done]. unfold for_each_view. simpl.
  by apply wf_same_shape, dict_foreach_shape.
Qed.

Lemma pres_update_view k f : keeps_id f → pres h (update_view k f).
Proof.
  intros Hf w Hh Hwf. munfold.
  destruct (dict_get k (_channel_likes w)) as [v|] eqn:Hv; [|done].
  destruct (f v) as [v'|e] eqn:Hfv; [|done]. destruct (Hf _ _ Hfv).
  split; [|done]. simpl. by eapply wf_same_shape, dict_set_shape.
Qed.

Lemma pres_remove_named n :
  pres h (v ← getitem (Some n); remove_channel_like v).
Proof.
  intros w Hh Hwf. munfold.
  destruct (dict_get (Some n) (_channel_likes w)) as [v|] eqn:Hv; [|done].
  destruct (remove_channel_like_spec w n v Hwf Hv) as (w' & -> & ? & He & _).
  split; [done|]. by rewrite (same_env_host _ _ He).
Qed.
End pres.

Lemma rename_channel_like_wf w old new :
  wf w → new ≠ server_label w →
  wf (rename_channel_like old new w).2 ∧
  core_host (rename_channel_like old new w).2 = core_host w.
Proof.
  intros Hwf Hlabel.
  destruct (dict_get (Some old) (_channel_likes w)) as [v|] eqn:Hv.
  - destruct (decide (old = new)) as [->|Hon].
    + (* the view is removed as if it were in the way, then missed *)
      unfold rename_channel_like, contains. munfold.
      rewrite bool_decide_eq_true_2 by eauto. munfold. rewrite Hv.
      destruct (remove_channel_like_spec w new v Hwf Hv)
        as (w1 & -> & Hwf1 & Henv1 & Hd1 & _).
      pose proof Hwf as [Hk _ _ _ _ _].
      unfold rename_entry. munfold.
      rewrite Hd1, dict_get_del, decide_True by done.
      split; [done|]. by apply same_env_host.
    + destruct (rename_channel_like_spec w old new v Hwf Hv Hon Hlabel)
        as (w' & -> & ? & He & _).
      split; [done|]. by apply same_env_host.
  - pose proof Hwf as [Hk _ _ _ _ _].
    unfold rename_channel_like, contains. munfold.
    destruct (dict_get (Some new) (_channel_likes w)) as [vn|] eqn:Hvn.
    + rewrite bool_decide_eq_true_2 by eauto. munfold. rewrite Hvn.
      destruct (remove_channel_like_spec w new vn Hwf Hvn)
        as (w1 & -> & Hwf1 & Henv1 & Hd1 & _).
      unfold rename_entry. munfold. rewrite Hd1, dict_get_del by done.
      case_decide; [|rewrite Hv]; (split; [done|by apply same_env_host]).
    + rewrite bool_decide_eq_false_2 by (by intros [??]).
      unfold rename_entry. munfold. by rewrite Hv.
Qed.

Lemma create_wf w nm users :
  wf w → nm ≠ server_label w →
  wf ((v ← new_view (Some nm) users; add_channel_like v) w).2 ∧
  core_host ((v ← new_view (Some nm) users; add_channel_like v) w).2
  = core_host w.
Proof.
  intros Hwf Hlabel. munfold. unfold new_view.
  set (v := ChannelLikeView_init (next_oid w) (Some nm) users).
  set (w1 := set_next_oid (S (next_oid w)) w).
  assert (name v = Some nm ∧ oid v = next_oid w) as [Hn Ho].
  { unfold v. by destruct users. }
  assert (wf w1) as Hwf1 by (apply wf_set_next_oid; [done|lia]).
  destruct (dict_get (Some nm) (_channel_likes w)) as [v0|] eqn:Hv0.
  - rewrite add_channel_like_taken; [done|]. rewrite Hn. simpl. eauto.
  - destruct (add_channel_like_spec w1 v nm Hwf1 Hn Hv0) as [-> Hwf'];
      [done|simpl; lia| |done].
    rewrite Ho. simpl. destruct Hwf as [_ _ _ Hal _ _].
    unfold oids. intros (kv & Heq & Hin)%list_elem_of_fmap.
    eapply Forall_forall in Hal; [|done]. lia.
Qed.

Lemma pres_rename h old new :
  new ≠ "Server: " +:+ h → pres h (rename_channel_like old new).
Proof.
  intros Hl w Hh Hwf.
  destruct (rename_channel_like_wf w old new Hwf) as [? ?]; [|split; congruence].
  unfold server_label. by rewrite Hh.
Qed.

Lemma pres_create h nm users :
  nm ≠ "Server: " +:+ h →
  pres h (v ← new_view (Some nm) users; add_channel_like v).
Proof.
  intros Hl w Hh Hwf.
  destruct (create_wf w nm users Hwf) as [? ?]; [|split; congruence].
  unfold server_label. by rewrite Hh.
Qed.

Lemma pres_handle_event h ev :
  "Server: " +:+ h ∉ new_names ev → pres h (handle_event ev).
Proof.
  intros Hl.
  destruct ev; simpl in Hl; unfold handle_event;
    repeat first
      [ apply pres_remove_named
      | apply pres_for_each_view
      | apply pres_update_view
      | apply pres_rename; set_solver
      | apply pres_create; set_solver
      | apply pres_set_nickbutton | apply pres_quit
      | apply pres_ret | apply pres_raise | apply pres_get
      | apply keeps_id_on_self_changed_nick
      | apply keeps_id_on_user_changed_nick
      | apply keeps_id_on_join | apply keeps_id_on_part
      | apply keeps_id_user_quit_body
      | apply keeps_id_add_message
      | match goal with
        | |- pres _ (if ?b then _ else _) => destruct b
        | |- pres _ (mbind _ _) => apply pres_bind; [|intros ?]
        end ].
Qed.

Lemma handle_event_wf ev w :
  wf w → server_label w ∉ new_names ev → wf (handle_event ev w).2.
Proof. intros Hwf Hl. by apply (pres_handle_event (core_host w) ev Hl w). Qed.

Lemma handle_events_wf h queue : ∀ w,
  core_host w = h → wf w →
  Forall (λ ev, "Server: " +:+ h ∉ new_names ev) queue →
  wf (handle_events queue w).2 ∧ core_host (handle_events queue w).2 = h ∧
  Forall (λ ev, "Server: " +:+ h ∉ new_names ev) (handle_events queue w).1.2.
Proof.
  induction queue as [|ev queue IH]; intros w Hh Hwf Hq; simpl; [done|].
  apply Forall_cons in Hq as [Hev Hq].
  destruct (pres_handle_event h ev Hev w Hh Hwf) as [Hwf1 Hh1].
  destruct (handle_event ev w) as [[[]|e] w1]; simpl in *; auto.
Qed.

Lemma run_timer_wf h batches : ∀ queue w,
  core_host w = h → wf w →
  Forall (λ ev, "Server: " +:+ h ∉ new_names ev) (queue ++ concat batches) →
  wf (run_timer queue batches w).2.
Proof.
  induction batches as [|b batches IH]; intros queue w Hh Hwf Hq; simpl in *.
  - rewrite app_nil_r in Hq.
    destruct (handle_events_wf h queue w Hh Hwf Hq) as (? & _).
    by destruct (handle_events queue w) as [[[] ?] ?].
  - apply Forall_app in Hq as [Hq Hb].
    destruct (handle_events_wf h queue w Hh Hwf Hq) as (? & ? & ?).
    destruct (handle_events queue w) as [[[] rest] w1]; simpl in *; try done.
    apply IH; [done..|]. rewrite <-app_assoc. by apply Forall_app.
Qed.

Lemma wf_after_main queue :
  names_allowed "chat.freenode.net" queue → wf (after queue main_widget).
Proof.
  intros Hq. unfold after.
  by destruct (handle_events_wf "chat.freenode.net" queue main_widget eq_refl
                 (wf_init _ _) Hq) as [? _].
Qed.

Lemma dict_del_keys_NoDup k (d : dict) : NoDup d.*1 → NoDup (dict_del k d).*1.
Proof.
  induction d as [|[k1 v1] d IH]; csimpl; [done|].
  intros [Hk Hnd]%NoDup_cons. destruct (decide (k = k1)); [done|]. csimpl.
  apply NoDup_cons. split; [|auto]. intros Hin. apply Hk.
  clear -Hin. induction d as [|[k2 v2] d IH]; csimpl in *; [done|].
  destruct (decide (k = k2)); [by right|]. csimpl in *.
  apply elem_of_cons in Hin as [->|?]; [left|right; auto].
Qed.

Lemma remove_steps w n v :
  wf w → dict_get (Some n) (_channel_likes w) = Some v →
  ∃ w1 w',
    select_something_else v w = (Ok (), w1) ∧
    _channel_likes w1 = _channel_likes w ∧
    active_live w1 ∧ _current_channel_like w1 ≠ Some (oid v) ∧
    remove_entry n w1 = (Ok (), w') ∧
    remove_channel_like v w = (Ok (), w') ∧
    wf w' ∧ _current_channel_like w' = _current_channel_like w1 ∧
    (_current_channel_like w = Some (oid v) →
     ∃ r v2,
       list_index n (lb_items (_channel_selector w)) = Some r ∧
       dict_get (row_key (other_row r w) (_channel_selector w))
         (_channel_likes w) = Some v2 ∧
       dict_get (row_key (other_row r w) (_channel_selector w))
         (_channel_likes w') = Some v2 ∧
       _current_channel_like w1 = Some (oid v2)).
Proof.
  intros Hwf Hv. unfold remove_channel_like.
  rewrite (wf_name_of w _ _ Hwf Hv). munfold.
  destruct (decide (_current_channel_like w = Some (oid v))) as [Hcur|Hcur].
  - destruct (select_something_else_active w n v Hwf Hv Hcur)
      as (a & v2 & Hidx & Hlt & Hv2 & Hoid & Hsel & Hwf1).
    rewrite Hsel.
    destruct (remove_entry_spec _ n v Hwf1 Hv) as (a' & _ & Hre & Hwf');
      [simpl; congruence|].
    rewrite Hre. eexists _, _. split; [done|]. split; [done|].
    split; [by apply wf_invariants|]. split; [simpl; congruence|].
    split; [done|]. split; [done|]. split; [done|]. split; [done|].
    intros _. exists (S a), v2. repeat split; try done.
    simpl. pose proof Hwf as [Hk _ _ _ _ _]. rewrite dict_get_del by done.
    rewrite decide_False; [done|]. intros Heq. rewrite Heq, Hv in Hv2.
    congruence.
  - rewrite select_something_else_inactive by done.
    destruct (remove_entry_spec _ n v Hwf Hv Hcur) as (a' & _ & Hre & Hwf').
    rewrite Hre. eexists _, _. split; [done|]. split; [done|].
    split; [by apply wf_invariants|]. split; [done|]. split; [done|].
    split; [done|]. split; [done|]. split; [done|]. done.
Qed.

(** C6: in every state the widget reaches from its construction, through
    any queue and any later batches of events, the server view is in the
    directory and the current view is one of the directory.  The server
    view cannot be removed.  Removing any other view goes in two steps:
    [select_something_else] leaves the directory as it is and makes sure
    the current view is another view of the directory, and only then is
    the entry deleted, which does not change the current view; both
    invariants hold in between and afterwards.  When the removed view
    was the current one, the current view becomes the one shown in the
    next row of the selector, or in the previous row if the removed one
    was in the last row. *)
Theorem directory_invariants host nick queue batches :
  names_allowed host (queue ++ concat batches) →
  let w := (run_timer queue batches (IrcWidget_init host nick).2).2 in
  server_present w ∧ active_live w ∧
  (∀ v, name v = None → remove_channel_like v w = (Raise AssertionError, w)) ∧
  (∀ n v, dict_get (Some n) (_channel_likes w) = Some v →
     ∃ w1 w',
       select_something_else v w = (Ok (), w1) ∧
       _channel_likes w1 = _channel_likes w ∧
       active_live w1 ∧ _current_channel_like w1 ≠ Some (oid v) ∧
       remove_entry n w1 = (Ok (), w') ∧
       remove_channel_like v w = (Ok (), w') ∧
       _current_channel_like w' = _current_channel_like w1 ∧
       server_present w' ∧ active_live w' ∧
       (_current_channel_like w = Some (oid v) →
        ∃ r v2,
          list_index n (lb_items (_channel_selector w)) = Some r ∧
          dict_get (row_key (other_row r w) (_channel_selector w))
            (_channel_likes w) = Some v2 ∧
          dict_get (row_key (other_row r w) (_channel_selector w))
            (_channel_likes w') = Some v2 ∧
          _current_channel_like w1 = Some (oid v2))).
Proof.
  intros Hq w.
  assert (wf w) as Hwf by (by apply (run_timer_wf host); [|apply wf_init|]).
  destruct (wf_invariants w Hwf) as [??].
  split; [done|]. split; [done|]. split.
  - intros v Hv. unfold remove_channel_like. by rewrite Hv.
  - intros n v Hv.
    destruct (remove_steps w n v Hwf Hv)
      as (w1 & w' & ? & ? & ? & ? & ? & ? & Hwf' & ? & ?).
    destruct (wf_invariants w' Hwf') as [??]. exists w1, w'.
    by repeat split.
Qed.

Lemma directory_invariants_witness :
  let w := (run_timer [self_joined "#test" ["alice"; "bob"]]
              [[sent_privmsg "dave" "hi"]; [self_parted "#test"]]
              (IrcWidget_init "chat.freenode.net" "testieeeee").2).2 in
  server_present w ∧ active_live w ∧
  (∀ v, name v = None → remove_channel_like v w = (Raise AssertionError, w)) ∧
  (∀ n v, dict_get (Some n) (_channel_likes w) = Some v →
     ∃ w1 w',
       select_something_else v w = (Ok (), w1) ∧
       _channel_likes w1 = _channel_likes w ∧
       active_live w1 ∧ _current_channel_like w1 ≠ Some (oid v) ∧
       remove_entry n w1 = (Ok (), w') ∧
       remove_channel_like v w = (Ok (), w') ∧
       _current_channel_like w' = _current_channel_like w1 ∧
       server_present w' ∧ active_live w' ∧
       (_current_channel_like w = Some (oid v) →
        ∃ r v2,
          list_index n (lb_items (_channel_selector w)) = Some r ∧
          dict_get (row_key (other_row r w) (_channel_selector w))
            (_channel_likes w) = Some v2 ∧
          dict_get (row_key (other_row r w) (_channel_selector w))
            (_channel_likes w') = Some v2 ∧
          _current_channel_like w1 = Some (oid v2))).
Proof.
  apply (directory_invariants "chat.freenode.net" "testieeeee"
           [self_joined "#test" ["alice"; "bob"]]
           [[sent_privmsg "dave" "hi"]; [self_parted "#test"]]).
  apply (bool_decide_unpack _). vm_compute. exact I.
Defined.

(** C7: renaming a view to another name, whether or not a view of that
    name is in the way, leaves the renamed view in the directory under the
    new name with the lines of its text widget as they were, and if it
    was the current view it still is. *)
Theorem rename_keeps_history_and_selection w old new v :
  wf w → dict_get (Some old) (_channel_likes w) = Some v →
  old ≠ new → new ≠ server_label w →
  ∃ w' v', rename_channel_like old new w = (Ok (), w') ∧
           dict_get (Some new) (_channel_likes w') = Some v' ∧
           dict_get (Some old) (_channel_likes w') = None ∧
           oid v' = oid v ∧ name v' = Some new ∧
           textwidget v' = textwidget v ∧
           (_current_channel_like w = Some (oid v) →
            _current_channel_like w' = Some (oid v')).
Proof.
  intros Hwf Hv Hon Hl.
  destruct (rename_channel_like_spec w old new v Hwf Hv Hon Hl)
    as (w' & Hr & _ & _ & Hd & Hc).
  exists w', (set_name (Some new) v). split; [done|]. rewrite Hd.
  rewrite !dict_get_set, decide_True, decide_False by congruence.
  destruct Hwf as [Hk _ _ _ _ _].
  rewrite dict_get_del, decide_True by (done || by apply dict_del_keys_NoDup).
  done.
Qed.

Lemma rename_keeps_history_and_selection_witness :
  ∃ w' v', rename_channel_like "dav" "dave" pm_widget = (Ok (), w') ∧
           dict_get (Some "dave") (_channel_likes w') = Some v' ∧
           dict_get (Some "dav") (_channel_likes w') = None ∧
           oid v' = 2 ∧ name v' = Some "dave" ∧
           textwidget v' = [("testieeeee", "hello")] ∧
           (_current_channel_like pm_widget = Some 2 →
            _current_channel_like w' = Some (oid v')).
Proof.
  apply (rename_keeps_history_and_selection pm_widget "dav" "dave"
           (mkView 2 (Some "dav") [("testieeeee", "hello")] None None)).
  - apply wf_after_main. apply (bool_decide_unpack _). vm_compute. exact I.
  - vm_compute. reflexivity.
  - discriminate.
  - vm_compute. discriminate.
Defined.

(** C10: removing a view that is not the current one leaves the current
    view the current one, still in the directory, and leaves every other
    view of the directory as it was. *)
Theorem remove_inactive_keeps_active w n v :
  wf w → dict_get (Some n) (_channel_likes w) = Some v →
  _current_channel_like w ≠ Some (oid v) →
  ∃ w', remove_channel_like v w = (Ok (), w') ∧
        _current_channel_like w' = _current_channel_like w ∧
        active_live w' ∧
        dict_get (Some n) (_channel_likes w') = None ∧
        (∀ k, k ≠ Some n →
           dict_get k (_channel_likes w') = dict_get k (_channel_likes w)) ∧
        same_env w w'.
Proof.
  intros Hwf Hv Hcur.
  destruct (remove_channel_like_spec w n v Hwf Hv)
    as (w' & Hr & Hwf' & Henv & Hd & Hc & _).
  destruct (wf_invariants w' Hwf') as [_ ?]. pose proof Hwf as [Hk _ _ _ _ _].
  exists w'. split; [done|]. split; [auto|]. split; [done|]. rewrite Hd.
  split; [by rewrite dict_get_del, decide_True|]. split; [|done].
  intros k Hne. by rewrite dict_get_del, decide_False.
Qed.

Lemma remove_inactive_keeps_active_witness :
  ∃ w', remove_channel_like
          (mkView 1 (Some "#test") [] (Some ["alice"; "bob"])
             (Some (mkListbox ["alice"; "bob"] []))) busy_widget = (Ok (), w') ∧
        _current_channel_like w' = _current_channel_like busy_widget ∧
        active_live w' ∧
        dict_get (Some "#test") (_channel_likes w') = None ∧
        (∀ k, k ≠ Some "#test" →
           dict_get k (_channel_likes w')
           = dict_get k (_channel_likes busy_widget)) ∧
        same_env busy_widget w'.
Proof.
  apply (remove_inactive_keeps_active busy_widget "#test").
  - apply wf_after_main. apply (bool_decide_unpack _). vm_compute. exact I.
  - vm_compute. reflexivity.
  - vm_compute. discriminate.
Defined.

(** ** Loops over the views *)

Lemma for_each_view_total f w :
  (∀ k v, (k, v) ∈ _channel_likes w → ∃ v', f v = Ok v') →
  for_each_view f w
  = (Ok (), set_channel_likes
              (prod_map id (result_of f) <$> _channel_likes w) w).
Proof.
  intros Hf. unfold for_each_view.
  rewrite (dict_foreach_all f (result_of f)); [done|].
  intros k v Hin. destruct (Hf k v Hin) as [v' Hv]. unfold result_of.
  by rewrite Hv.
Qed.

Lemma result_of_Ok f v v' : f v = Ok v' → result_of f v = v'.
Proof. unfold result_of. by intros ->. Qed.

(** ** user_quit *)

Section quit.
Context (nick : string) (reason : option string).
Context (Hnick : startswith nick "#" = false).

Lemma quit_channel v ul i :
  view_ok v → userlist v = Some ul → list_index nick ul = Some i →
  ∃ lb, userlistbox v = Some lb ∧
    user_quit_body nick reason v
    = Ok (add_message "*" (with_reason (nick +:+ " quit.") reason)
            (set_users (delete i ul) (lb_delete i lb) v)).
Proof.
  intros Hok Hul Hi. unfold view_ok, user_quit_body in *.
  destruct (name v) as [n|] eqn:Hn; [|congruence].
  destruct (startswith n "#") eqn:Hc; [|congruence].
  destruct Hok as (ul' & lb & Hul' & Hlb). exists lb. split; [done|].
  rewrite Hul. rewrite (bool_decide_eq_true_2 (nick ∈ ul)), orb_true_r
    by (eapply list_elem_of_lookup_2, list_index_Some, Hi).
  unfold on_quit, name_is_channel, users_of, index_or_raise.
  rewrite Hn, Hul, Hlb. simpl. rewrite Hc, Hi. done.
Qed.

Lemma quit_conversation v :
  view_ok v → name v = Some nick →
  user_quit_body nick reason v
  = Ok (add_message "*" (with_reason (nick +:+ " quit.") reason) v).
Proof.
  intros Hok Hn. unfold view_ok, user_quit_body in *. rewrite Hn in *.
  rewrite bool_decide_eq_true_2 by done. simpl.
  unfold on_quit, name_is_channel. rewrite Hn. simpl. rewrite Hnick.
  by rewrite bool_decide_eq_false_2 by auto.
Qed.

Lemma quit_other v :
  name v ≠ Some nick → ¬ is_member nick v →
  user_quit_body nick reason v = Ok v.
Proof.
  intros Hn Hm. unfold user_quit_body.
  destruct (name v) as [n|]; [|done].
  rewrite bool_decide_eq_false_2 by congruence. simpl.
  destruct (userlist v) as [ul|] eqn:Hul; [|done].
  rewrite bool_decide_eq_false_2; [done|]. intros Hin. apply Hm. by exists ul.
Qed.

(** What the loop body does to a view, applied once and then again. *)
Lemma quit_body_twice v :
  view_ok v → distinct_members v →
  ∃ v1 v2,
    user_quit_body nick reason v = Ok v1 ∧
    user_quit_body nick reason v1 = Ok v2 ∧
    view_ok v1 ∧
    (∀ ul, userlist v = Some ul → nick ∈ ul →
       ∃ i, list_index nick ul = Some i ∧
            userlist v1 = Some (delete i ul) ∧
            textwidget v1 = textwidget v ++ [quit_notice nick reason] ∧
            v2 = v1) ∧
    (name v = Some nick →
       v1 = add_message "*" (with_reason (nick +:+ " quit.") reason) v ∧
       v2 = add_message "*" (with_reason (nick +:+ " quit.") reason) v1) ∧
    (name v ≠ Some nick → ¬ is_member nick v → v1 = v ∧ v2 = v).
Proof.
  intros Hok Hnd.
  destruct (decide (name v = Some nick)) as [Hn|Hn].
  - (* a conversation with nick *)
    pose proof (quit_conversation v Hok Hn) as H1.
    assert (userlist v = None) as Hul.
    { unfold view_ok in Hok. by rewrite Hn, Hnick in Hok. }
    eexists _, _. split; [exact H1|]. split.
    { apply quit_conversation; [|done]. unfold view_ok in *. by simpl. }
    split; [by unfold view_ok in *|]. split; [congruence|]. split; [done|].
    done.
  - destruct (userlist v) as [ul|] eqn:Hul.
    + destruct (list_index nick ul) as [i|] eqn:Hi.
      * (* a channel nick is in *)
        destruct (quit_channel v ul i Hok Hul Hi) as (lb & Hlb & H1).
        assert (nick ∉ delete i ul) as Hgone.
        { pose proof (delete_Permutation _ _ _ (list_index_Some _ _ _ Hi))
            as Hp.
          specialize (Hnd ul Hul). rewrite Hp in Hnd.
          by apply NoDup_cons in Hnd as [? _]. }
        eexists _, _. split; [exact H1|]. split.
        { apply quit_other; [done|]. intros (ul' & Hul' & ?).
          simpl in Hul'. by injection Hul' as <-. }
        split.
        { unfold view_ok in *. simpl.
          destruct (name v) as [n|]; [|congruence].
          destruct (startswith n "#"); [eauto|congruence]. }
        split.
        { intros ul' [= <-] _. exists i. by repeat split. }
        split; [done|]. intros _ []. exists ul. split; [done|].
        eapply list_elem_of_lookup_2, list_index_Some, Hi.
      * (* a channel nick is not in *)
        apply list_index_None in Hi.
        assert (¬ is_member nick v) as Hm.
        { intros (ul' & Hul' & ?). congruence. }
        exists v, v. rewrite quit_other by done.
        repeat split; try done. intros ul' [= <-] ?. done.
    + assert (¬ is_member nick v) as Hm.
      { intros (ul' & Hul' & ?). congruence. }
      exists v, v. rewrite quit_other by done.
      repeat split; done.
Qed.
End quit.

Lemma handle_user_quit nick reason w :
  startswith nick "#" = false →
  (∀ k v, (k, v) ∈ _channel_likes w →
          ∃ v', user_quit_body nick reason v = Ok v') →
  handle_event (user_quit nick reason) w
  = (Ok true,
     set_channel_likes
       (prod_map id (result_of (user_quit_body nick reason))
          <$> _channel_likes w) w).
Proof.
  intros Hnick Hall. unfold handle_event. rewrite Hnick.
  unfold mbind, M_bind. by rewrite for_each_view_total.
Qed.

(** C5, as amended: when no channel lists a nick twice, [user_quit nick]
    handled twice in a row runs through both times; a channel that nick
    was in loses nick and gets one quit notice the first time and is left
    alone the second time; a conversation with nick stays in the
    directory and gets a quit notice each time, two in all; every other
    view is left alone both times. *)
Theorem user_quit_twice nick reason w :
  views_ok w → members_distinct w → startswith nick "#" = false →
  ∃ w1 w2,
    handle_event (user_quit nick reason) w = (Ok true, w1) ∧
    handle_event (user_quit nick reason) w1 = (Ok true, w2) ∧
    ∀ k v, dict_get k (_channel_likes w) = Some v →
      ∃ v1 v2,
        dict_get k (_channel_likes w1) = Some v1 ∧
        dict_get k (_channel_likes w2) = Some v2 ∧
        (∀ ul, userlist v = Some ul → nick ∈ ul →
           ∃ i, list_index nick ul = Some i ∧
                userlist v1 = Some (delete i ul) ∧
                textwidget v1 = textwidget v ++ [quit_notice nick reason] ∧
                v2 = v1) ∧
        (name v = Some nick →
           textwidget v1 = textwidget v ++ [quit_notice nick reason] ∧
           textwidget v2 = textwidget v ++ [quit_notice nick reason;
                                            quit_notice nick reason]) ∧
        (name v ≠ Some nick → ¬ is_member nick v → v1 = v ∧ v2 = v).
Proof.
  intros Hok Hnd Hnick. set (f := user_quit_body nick reason).
  assert (∀ k v, (k, v) ∈ _channel_likes w →
            view_ok v ∧ distinct_members v) as Hviews.
  { intros k v Hin. unfold views_ok, members_distinct in *.
    rewrite Forall_forall in Hok, Hnd. split; [apply (Hok _ Hin)|].
    apply (Hnd _ Hin). }
  set (w1 := set_channel_likes (prod_map id (result_of f) <$> _channel_likes w) w).
  set (w2 := set_channel_likes
               (prod_map id (result_of f) <$> _channel_likes w1) w1).
  exists w1, w2. split; [|split].
  - apply handle_user_quit; [done|]. intros k v [Hv1 Hv2]%Hviews.
    destruct (quit_body_twice nick reason Hnick v Hv1 Hv2)
      as (v1 & _ & ? & _); eauto.
  - apply handle_user_quit; [done|]. intros k u Hin. simpl in Hin.
    apply list_elem_of_fmap in Hin as ([k0 v] & Heq & [Hv1 Hv2]%Hviews).
    simpl in Heq. injection Heq as -> ->.
    destruct (quit_body_twice nick reason Hnick v Hv1 Hv2)
      as (v1 & v2 & Hq1 & Hq2 & _).
    exists v2. fold f in Hq1. by rewrite (result_of_Ok _ _ _ Hq1).
  - intros k v Hv.
    pose proof (dict_get_elem_of _ _ _ Hv) as [Hv1 Hv2]%Hviews.
    destruct (quit_body_twice nick reason Hnick v Hv1 Hv2)
      as (v1 & v2 & Hq1 & Hq2 & _ & Hchan & Hpm & Hrest).
    exists v1, v2. simpl. rewrite !dict_get_fmap, Hv. simpl.
    fold f in Hq1, Hq2.
    rewrite (result_of_Ok _ _ _ Hq1), (result_of_Ok _ _ _ Hq2).
    split; [done|]. split; [done|]. split; [done|]. split; [|done].
    intros Hn. destruct (Hpm Hn) as [-> ->]. simpl.
    by rewrite <-app_assoc.
Qed.

Lemma user_quit_twice_witness :
  ∃ w1 w2,
    handle_event (user_quit "bob" None) busy_widget = (Ok true, w1) ∧
    handle_event (user_quit "bob" None) w1 = (Ok true, w2) ∧
    ∀ k v, dict_get k (_channel_likes busy_widget) = Some v →
      ∃ v1 v2,
        dict_get k (_channel_likes w1) = Some v1 ∧
        dict_get k (_channel_likes w2) = Some v2 ∧
        (∀ ul, userlist v = Some ul → "bob" ∈ ul →
           ∃ i, list_index "bob" ul = Some i ∧
                userlist v1 = Some (delete i ul) ∧
                textwidget v1 = textwidget v ++ [quit_notice "bob" None] ∧
                v2 = v1) ∧
        (name v = Some "bob" →
           textwidget v1 = textwidget v ++ [quit_notice "bob" None] ∧
           textwidget v2 = textwidget v ++ [quit_notice "bob" None;
                                            quit_notice "bob" None]) ∧
        (name v ≠ Some "bob" → ¬ is_member "bob" v → v1 = v ∧ v2 = v).
Proof.
  apply (user_quit_twice "bob" None busy_widget).
  - unfold views_ok.
    let d := eval vm_compute in (_channel_likes busy_widget) in
    change (_channel_likes busy_widget) with d.
    repeat constructor; cbv; eauto.
  - unfold members_distinct.
    let d := eval vm_compute in (_channel_likes busy_widget) in
    change (_channel_likes busy_widget) with d.
    repeat constructor; intros ul; simpl; intros [= <-].
    apply (bool_decide_unpack _). vm_compute. exact I.
  - reflexivity.
Defined.

(** C5, as stated, fails: a conversation with bob gets a second quit
    notice when [user_quit bob] is handled a second time. *)
Lemma second_quit_notice_in_conversation :
  ¬ quit_twice_claim "bob" None bob_widget.
Proof.
  intros H.
  specialize (H (handle_event (user_quit "bob" None) bob_widget).2
                (handle_event (user_quit "bob" None)
                   (handle_event (user_quit "bob" None) bob_widget).2).2).
  assert (lines (Some "bob")
            (handle_event (user_quit "bob" None)
               (handle_event (user_quit "bob" None) bob_widget).2).2
          = lines (Some "bob")
              (handle_event (user_quit "bob" None) bob_widget).2) as Heq.
  { f_equal. apply H; vm_compute; reflexivity. }
  vm_compute in Heq. discriminate.
Qed.

(** ** user_changed_nick *)

Lemma Forall_dict_del (P : option string * ChannelLikeView → Prop) k d :
  Forall P d → Forall P (dict_del k d).
Proof.
  induction 1 as [|[k1 v1] d ? ? IH]; simpl; [done|].
  destruct (decide (k = k1)); [done|]. by constructor.
Qed.

Lemma Forall_dict_set (P : option string * ChannelLikeView → Prop) k v d :
  P (k, v) → Forall P d → Forall P (dict_set k v d).
Proof.
  intros Hv. induction 1 as [|[k1 v1] d ? ? IH]; simpl; [by repeat constructor|].
  destruct (decide (k = k1)); by constructor.
Qed.

Section nick.
Context (old new : string).
Context (Hold : startswith old "#" = false).
Context (Hnew : startswith new "#" = false).

Lemma changed_conversation v n :
  view_ok v → name v = Some n → startswith n "#" = false →
  on_user_changed_nick old new v
  = Ok (if decide (n = new)
        then add_message "*" (old +:+ " is now known as " +:+ new +:+ ".") v
        else v).
Proof.
  intros Hok Hn Hc. unfold view_ok, on_user_changed_nick in *.
  rewrite Hn in *. rewrite Hc in *. rewrite Hok.
  destruct (decide (n = new)).
  - by rewrite bool_decide_eq_false_2 by auto.
  - by rewrite bool_decide_eq_true_2.
Qed.

Lemma channel_name v ul :
  view_ok v → userlist v = Some ul →
  ∃ n lb, name v = Some n ∧ startswith n "#" = true ∧
          userlistbox v = Some lb.
Proof.
  intros Hok Hul. unfold view_ok in Hok.
  destruct (name v) as [n|]; [|congruence].
  destruct (startswith n "#") eqn:Hc; [|congruence].
  destruct Hok as (? & lb & _ & ?). by exists n, lb.
Qed.

Lemma changed_channel_out v ul :
  view_ok v → userlist v = Some ul → old ∉ ul →
  on_user_changed_nick old new v = Ok v.
Proof.
  intros Hok Hul Hout.
  destruct (channel_name v ul Hok Hul) as (n & lb & Hn & Hc & _).
  unfold on_user_changed_nick. rewrite Hn, Hul, Hc. simpl.
  by rewrite bool_decide_eq_true_2.
Qed.

Lemma changed_channel_in v ul :
  view_ok v → userlist v = Some ul → old ∈ ul →
  ∃ v' i, on_user_changed_nick old new v = Ok v' ∧
          list_index old ul = Some i ∧
          userlist v' = Some (list_sort id (<[i:=new]> ul)) ∧
          textwidget v' = textwidget v ++ [rename_notice old new] ∧
          name v' = name v ∧ oid v' = oid v.
Proof.
  intros Hok Hul Hin.
  destruct (channel_name v ul Hok Hul) as (n & lb & Hn & Hc & Hlb).
  destruct (list_index_is_Some old ul Hin) as [i Hi].
  destruct (list_index_is_Some new (list_sort id (<[i:=new]> ul)))
    as [j Hj].
  { rewrite list_sort_perm. eapply list_elem_of_lookup_2.
    apply list_lookup_insert_eq. eapply lookup_lt_Some, list_index_Some, Hi. }
  unfold on_user_changed_nick, _userlist_replace, users_of, index_or_raise.
  rewrite Hn, Hul, Hlb, Hc. simpl.
  rewrite bool_decide_eq_false_2 by auto. rewrite Hi. simpl. rewrite Hj.
  simpl. eexists _, i. split; [done|]. by repeat split.
Qed.

Lemma changed_total v :
  view_ok v → ∃ v', on_user_changed_nick old new v = Ok v'.
Proof.
  intros Hok. destruct (userlist v) as [ul|] eqn:Hul.
  - destruct (decide (old ∈ ul)).
    + destruct (changed_channel_in v ul) as (v' & _ & ? & _); eauto.
    + rewrite (changed_channel_out v ul); eauto.
  - destruct (name v) as [n|] eqn:Hn.
    + rewrite (changed_conversation v n); eauto.
      unfold view_ok in Hok. rewrite Hn in Hok.
      destruct (startswith n "#"); [|done].
      destruct Hok as (? & ? & ? & _). congruence.
    + unfold on_user_changed_nick. rewrite Hn. eauto.
Qed.

Lemma changed_unlisted v :
  view_ok v → name v ≠ Some new → ¬ is_member old v →
  on_user_changed_nick old new v = Ok v.
Proof.
  intros Hok Hn Hm. destruct (userlist v) as [ul|] eqn:Hul.
  - apply (changed_channel_out v ul); [done..|]. intros ?. apply Hm.
    by exists ul.
  - destruct (name v) as [n|] eqn:Hn'.
    + rewrite (changed_conversation v n); [|done..|].
      * by rewrite decide_False by congruence.
      * unfold view_ok in Hok. rewrite Hn' in Hok.
        destruct (startswith n "#"); [|done].
        destruct Hok as (? & ? & ? & _). congruence.
    + unfold on_user_changed_nick. by rewrite Hn'.
Qed.

(** The first half of the branch: the view named [old] is renamed. *)
Lemma rename_step w :
  wf w → views_ok w → old ≠ new → new ≠ server_label w →
  ∃ w1,
    (w0 ← get;
     if contains (Some old) w0 then rename_channel_like old new
     else mret ()) w = (Ok (), w1) ∧
    views_ok w1 ∧
    (∀ k, k ≠ Some old → k ≠ Some new →
       dict_get k (_channel_likes w1) = dict_get k (_channel_likes w)) ∧
    dict_get (Some old) (_channel_likes w1) = None ∧
    dict_get (Some new) (_channel_likes w1)
    = match dict_get (Some old) (_channel_likes w) with
      | Some v => Some (set_name (Some new) v)
      | None => dict_get (Some new) (_channel_likes w)
      end.
Proof.
  intros Hwf Hok Hon Hl. pose proof Hwf as [Hk _ _ _ _ _].
  unfold contains. munfold.
  destruct (dict_get (Some old) (_channel_likes w)) as [v|] eqn:Hv.
  - rewrite bool_decide_eq_true_2 by eauto.
    destruct (rename_channel_like_spec w old new v Hwf Hv Hon Hl)
      as (w1 & -> & _ & _ & Hd & _).
    exists w1. split; [done|]. rewrite Hd. split; [|split; [|split]].
    + unfold views_ok in *. rewrite Hd.
      apply Forall_dict_set; [|by do 2 apply Forall_dict_del]. simpl.
      apply dict_get_elem_of in Hv as Hin.
      rewrite Forall_forall in Hok. specialize (Hok _ Hin). simpl in Hok.
      unfold view_ok in *. simpl.
      rewrite (wf_name_of w _ _ Hwf Hv), Hold in Hok. by rewrite Hnew.
    + intros k ??. rewrite dict_get_set, decide_False by done.
      rewrite dict_get_del, decide_False
        by (done || by apply dict_del_keys_NoDup).
      by rewrite dict_get_del, decide_False.
    + rewrite dict_get_set, decide_False by congruence.
      by rewrite dict_get_del, decide_True
        by (done || by apply dict_del_keys_NoDup).
    + by rewrite dict_get_set, decide_True.
  - rewrite bool_decide_eq_false_2 by (by intros [??]).
    exists w. by rewrite Hv.
Qed.
End nick.

(** C4, as amended: for [user_changed_nick old new] with two different
    nicks, the view named [old] is renamed to [new] and gets a rename
    notice, and no view is named [old] afterwards; every channel that
    lists [old] gets [old] replaced by [new], the list sorted again (by
    code point), and a rename notice; when no view is named [old], a
    conversation already named [new] gets the rename notice as well;
    every other view, one that is named neither [old] nor [new] and does
    not list [old], is left as it was. *)
Theorem user_changed_nick_effect w old new :
  wf w → views_ok w → old ≠ new →
  startswith old "#" = false → startswith new "#" = false →
  new ≠ server_label w →
  ∃ w',
    handle_event (user_changed_nick old new) w = (Ok true, w') ∧
    (∀ v, dict_get (Some old) (_channel_likes w) = Some v →
       ∃ v', dict_get (Some new) (_channel_likes w') = Some v' ∧
             oid v' = oid v ∧ name v' = Some new ∧
             textwidget v' = textwidget v ++ [rename_notice old new]) ∧
    dict_get (Some old) (_channel_likes w') = None ∧
    (∀ k v ul, dict_get k (_channel_likes w) = Some v →
       userlist v = Some ul → old ∈ ul →
       ∃ v' i, dict_get k (_channel_likes w') = Some v' ∧
               list_index old ul = Some i ∧
               userlist v' = Some (list_sort id (<[i:=new]> ul)) ∧
               textwidget v' = textwidget v ++ [rename_notice old new]) ∧
    (dict_get (Some old) (_channel_likes w) = None →
     ∀ v, dict_get (Some new) (_channel_likes w) = Some v →
       dict_get (Some new) (_channel_likes w')
       = Some (add_message (rename_notice old new).1
                 (rename_notice old new).2 v)) ∧
    (∀ k v, k ≠ Some old → k ≠ Some new →
       dict_get k (_channel_likes w) = Some v → ¬ is_member old v →
       dict_get k (_channel_likes w') = Some v).
Proof.
  intros Hwf Hok Hon Hold Hnew Hl.
  destruct (rename_step old new Hold Hnew w Hwf Hok Hon Hl)
    as (w1 & Hstep & Hok1 & Hother & Hgone & Hnewk).
  set (f := on_user_changed_nick old new).
  assert (∀ k v, dict_get k (_channel_likes w) = Some v → view_ok v) as Hview.
  { intros k v Hin%dict_get_elem_of. unfold views_ok in Hok.
    rewrite Forall_forall in Hok. apply (Hok _ Hin). }
  assert (∀ k v, (k, v) ∈ _channel_likes w1 → view_ok v) as Hview1.
  { intros k v Hin. unfold views_ok in Hok1.
    rewrite Forall_forall in Hok1. apply (Hok1 _ Hin). }
  exists (set_channel_likes
            (prod_map id (result_of f) <$> _channel_likes w1) w1).
  simpl. split; [|split; [|split; [|split; [|split]]]].
  - unfold handle_event.
    cbv beta iota delta [mbind M_bind get] in Hstep |- *.
    rewrite Hstep. rewrite for_each_view_total; [done|].
    intros k v Hin. apply changed_total; eauto.
  - intros v Hv. rewrite dict_get_fmap, Hnewk, Hv. simpl.
    assert (view_ok (set_name (Some new) v)) as Hokv.
    { apply (Hview1 (Some new)). apply dict_get_elem_of.
      by rewrite Hnewk, Hv. }
    pose proof (changed_conversation old new (set_name (Some new) v) new
                  Hokv eq_refl Hnew) as Hf.
    rewrite decide_True in Hf by done. fold f in Hf.
    rewrite (result_of_Ok _ _ _ Hf). eexists. split; [done|]. by repeat split.
  - by rewrite dict_get_fmap, Hgone.
  - intros k v ul Hv Hul Hin.
    destruct (channel_name v ul (Hview _ _ Hv) Hul) as (n & lb & Hn & Hc & _).
    rewrite (wf_name_of w _ _ Hwf Hv) in Hn. subst k.
    rewrite dict_get_fmap, Hother, Hv by congruence. simpl.
    destruct (changed_channel_in old new v ul (Hview _ _ Hv) Hul Hin)
      as (v' & i & Hf & Hi & Hul' & Ht & _).
    fold f in Hf. rewrite (result_of_Ok _ _ _ Hf). by exists v', i.
  - intros Hnone v Hv. rewrite dict_get_fmap, Hnewk, Hnone, Hv. simpl.
    assert (name v = Some new) as Hn by apply (wf_name_of w _ _ Hwf Hv).
    pose proof (changed_conversation old new v new (Hview _ _ Hv) Hn Hnew)
      as Hf.
    rewrite decide_True in Hf by done. fold f in Hf.
    by rewrite (result_of_Ok _ _ _ Hf).
  - intros k v Hko Hkn Hv Hm. rewrite dict_get_fmap, Hother, Hv by done.
    simpl. f_equal. apply result_of_Ok.
    apply changed_unlisted; [by eapply Hview| |done].
    by rewrite (wf_name_of w _ _ Hwf Hv).
Qed.

Lemma user_changed_nick_effect_witness :
  ∃ w',
    handle_event (user_changed_nick "dave" "dan") busy_widget = (Ok true, w') ∧
    (∀ v, dict_get (Some "dave") (_channel_likes busy_widget) = Some v →
       ∃ v', dict_get (Some "dan") (_channel_likes w') = Some v' ∧
             oid v' = oid v ∧ name v' = Some "dan" ∧
             textwidget v' = textwidget v ++ [rename_notice "dave" "dan"]) ∧
    dict_get (Some "dave") (_channel_likes w') = None ∧
    (∀ k v ul, dict_get k (_channel_likes busy_widget) = Some v →
       userlist v = Some ul → "dave" ∈ ul →
       ∃ v' i, dict_get k (_channel_likes w') = Some v' ∧
               list_index "dave" ul = Some i ∧
               userlist v' = Some (list_sort id (<[i:="dan"]> ul)) ∧
               textwidget v' = textwidget v ++ [rename_notice "dave" "dan"]) ∧
    (dict_get (Some "dave") (_channel_likes busy_widget) = None →
     ∀ v, dict_get (Some "dan") (_channel_likes busy_widget) = Some v →
       dict_get (Some "dan") (_channel_likes w')
       = Some (add_message (rename_notice "dave" "dan").1
                 (rename_notice "dave" "dan").2 v)) ∧
    (∀ k v, k ≠ Some "dave" → k ≠ Some "dan" →
       dict_get k (_channel_likes busy_widget) = Some v →
       ¬ is_member "dave" v →
       dict_get k (_channel_likes w') = Some v).
Proof.
  apply (user_changed_nick_effect busy_widget "dave" "dan").
  - apply wf_after_main. apply (bool_decide_unpack _). vm_compute. exact I.
  - unfold views_ok.
    let d := eval vm_compute in (_channel_likes busy_widget) in
    change (_channel_likes busy_widget) with d.
    repeat constructor; cbv; eauto.
  - discriminate.
  - reflexivity.
  - reflexivity.
  - vm_compute. discriminate.
Defined.

(** C4, as stated, fails: when alice becomes bob, the conversation
    already named bob, which is not named alice, gets a notice. *)
Lemma notice_in_conversation_named_new :
  ¬ nick_change_claim "alice" "bob" bob_widget.
Proof.
  intros H.
  specialize (H (handle_event (user_changed_nick "alice" "bob") bob_widget).2
                (Some "bob")
                (mkView 1 (Some "bob") [("testieeeee", "hi")] None None)).
  assert (dict_get (Some "bob")
            (_channel_likes
               (handle_event (user_changed_nick "alice" "bob") bob_widget).2)
          = Some (mkView 1 (Some "bob") [("testieeeee", "hi")] None None))
    as Heq.
  { apply H; [vm_compute; reflexivity..|discriminate|].
    intros (ul & Hul & _). discriminate. }
  vm_compute in Heq. discriminate.
Qed.

(** * More of the event loop *)

Lemma handle_events_app_full pre queue w :
  handle_events (pre ++ queue) w
  = match handle_events pre w with
    | (Rearmed, _, w') => handle_events queue w'
    | (r, rest, w') => (r, rest ++ queue, w')
    end.
Proof.
  revert w. induction pre as [|ev pre IH]; intros w; simpl; [done|].
  destruct (handle_event ev w) as [[[]|e] w1]; simpl; [apply IH|done..].
Qed.

Lemma handle_events_end queue w :
  (handle_events queue w).1.1 ≠ Rearmed ∨ (handle_events queue w).1.2 = [].
Proof.
  revert w. induction queue as [|ev queue IH]; intros w; simpl; [by right|].
  destruct (handle_event ev w) as [[[]|e] w1]; simpl; [apply IH|by left..].
Qed.

(** X1: the widget the timer leaves depends on the events and their
    order only, not on how the backend's batches cut them up: it is the
    widget one activation leaves on all the events in one queue. *)
Theorem batches_do_not_matter batches : ∀ queue w,
  (run_timer queue batches w).2
  = (handle_events (queue ++ concat batches) w).2.
Proof.
  induction batches as [|b batches IH]; intros queue w; simpl.
  - rewrite app_nil_r. by destruct (handle_events queue w) as [[[] ?] ?].
  - rewrite handle_events_app_full.
    pose proof (handle_events_end queue w) as Hend.
    destruct (handle_events queue w) as [[r rest] w1] eqn:Hq; simpl in *.
    destruct r; simpl; [|done..].
    destruct Hend as [Hn| ->]; [by destruct Hn|]. simpl. apply IH.
Qed.

Lemma bind_not_false {A} (m : M A) (f : A → M bool) w w' :
  (∀ a w1, f a w1 ≠ (Ok false, w')) → (m ≫= f) w ≠ (Ok false, w').
Proof.
  intros Hf. unfold mbind, M_bind. destruct (m w) as [[a|e] w1]; [apply Hf|done].
Qed.

Lemma only_self_quit_returns ev w w' :
  handle_event ev w = (Ok false, w') → ev = self_quit.
Proof.
  destruct ev; try done; intros Hev; exfalso; revert Hev;
    unfold handle_event;
    repeat first
      [ apply bind_not_false; intros ??
      | match goal with
        | |- (if ?b then _ else _) _ ≠ _ => destruct b
        | |- (if ?b then _ else _) _ = _ → False => destruct b
        end
      | done ].
Qed.

(** X2: an activation handles the events in queue order from the front:
    what it leaves in the queue is a tail of the queue; it sets the timer
    only with the queue empty; and when it ends otherwise, the event that
    ended it is the one in front of what is left, a [self_quit] for a
    return. *)
Theorem handle_events_leaves_a_tail queue : ∀ w,
  ∃ done_,
    queue = done_ ++ (handle_events queue w).1.2 ∧
    match (handle_events queue w).1.1 with
    | Rearmed => (handle_events queue w).1.2 = []
    | Returned => ∃ pre, done_ = pre ++ [self_quit]
    | Raised _ => done_ ≠ []
    end.
Proof.
  induction queue as [|ev queue IH]; intros w; simpl.
  - by exists [].
  - destruct (handle_event ev w) as [[[]|e] w1] eqn:Hev; simpl.
    + destruct (IH w1) as (dn & Hq & Hend). exists (ev :: dn).
      split; [by rewrite Hq at 1|].
      destruct ((handle_events queue w1).1.1); [done| |done].
      destruct Hend as [pre ->]. by exists (ev :: pre).
    + exists [ev]. split; [done|]. exists [].
      by rewrite (only_self_quit_returns _ _ _ Hev).
    + by exists [ev].
Qed.

(** * What the events do to the directory *)

Lemma update_view_shape k f w :
  keeps_id f →
  same_shape (_channel_likes w) (_channel_likes (update_view k f w).2) ∧
  set_channel_likes (_channel_likes w) (update_view k f w).2 = w.
Proof.
  intros Hf. munfold.
  destruct (dict_get k (_channel_likes w)) as [v|] eqn:Hv;
    [|split; [apply same_shape_refl|by destruct w]].
  destruct (f v) as [v'|e] eqn:Hfv;
    [|split; [apply same_shape_refl|by destruct w]].
  destruct (Hf _ _ Hfv). split; [by eapply dict_set_shape|by destruct w].
Qed.

Lemma for_each_view_shape f w :
  keeps_id f →
  same_shape (_channel_likes w) (_channel_likes (for_each_view f w).2) ∧
  set_channel_likes (_channel_likes w) (for_each_view f w).2 = w.
Proof.
  intros Hf. unfold for_each_view. simpl.
  split; [by apply dict_foreach_shape|by destruct w].
Qed.

(** X3: the events that only write to views (a nick change of the user,
    a join, part or quit of somebody, a server message) never make,
    rename, remove or reorder a view, whether they are handled to the end
    or raise on the way: the directory has the same keys in the same
    order, bound to the same objects under the same names, the selector
    and the current view are the ones they were, and nothing is
    allocated. *)
Theorem notices_keep_the_directory ev w :
  is_notice ev = true →
  let w' := (handle_event ev w).2 in
  same_shape (_channel_likes w) (_channel_likes w') ∧
  _channel_selector w' = _channel_selector w ∧
  _current_channel_like w' = _current_channel_like w ∧
  next_oid w' = next_oid w ∧ quit_calls w' = quit_calls w.
Proof.
  destruct ev; try done; intros _; unfold handle_event.
  - (* self_changed_nick *)
    destruct (for_each_view_shape (on_self_changed_nick old new)
                (set_nickbutton new w)
                (keeps_id_on_self_changed_nick old new)) as [Hs He].
    munfold. simpl in *.
    destruct (dict_foreach _ _) as [[[]|e] d']; simpl in *; done.
  - destruct (update_view_shape (Some channel) (on_join nick) w
                (keeps_id_on_join nick)) as [Hs He].
    unfold mbind, M_bind.
    destruct (update_view _ _ w) as [[[]|e] w1]; simpl in *;
      rewrite <-He; by destruct w1.
  - destruct (update_view_shape (Some channel) (on_part nick reason) w
                (keeps_id_on_part nick reason)) as [Hs He].
    unfold mbind, M_bind.
    destruct (update_view _ _ w) as [[[]|e] w1]; simpl in *;
      rewrite <-He; by destruct w1.
  - destruct (startswith nick "#").
    { simpl. split; [apply same_shape_refl|done]. }
    destruct (for_each_view_shape (user_quit_body nick reason) w
                (keeps_id_user_quit_body nick reason)) as [Hs He].
    munfold. simpl in *.
    destruct (dict_foreach _ _) as [[[]|e] d']; simpl in *; done.
  - destruct (update_view_shape None
                (λ v, Ok (add_message server (join " " args) v)) w
                (keeps_id_add_message _ _)) as [Hs He].
    unfold mbind, M_bind.
    destruct (update_view _ _ w) as [[[]|e] w1]; simpl in *;
      rewrite <-He; by destruct w1.
  - destruct (update_view_shape None
                (λ v, Ok (add_message server (join " " args) v)) w
                (keeps_id_add_message _ _)) as [Hs He].
    unfold mbind, M_bind.
    destruct (update_view _ _ w) as [[[]|e] w1]; simpl in *;
      rewrite <-He; by destruct w1.
Qed.

Lemma notices_keep_the_directory_witness :
  let w' := (handle_event (user_quit "bob" None) busy_widget).2 in
  same_shape (_channel_likes busy_widget) (_channel_likes w') ∧
  _channel_selector w' = _channel_selector busy_widget ∧
  _current_channel_like w' = _current_channel_like busy_widget ∧
  next_oid w' = next_oid busy_widget ∧ quit_calls w' = quit_calls busy_widget.
Proof.
  apply (notices_keep_the_directory (user_quit "bob" None) busy_widget).
  reflexivity.
Defined.

(** X4: an event about a channel that is not in the directory (the user
    parting it, somebody joining or parting it, a message to it) raises
    [KeyError] and leaves the widget as it was. *)
Theorem events_for_a_missing_channel w channel nick reason sender msg :
  dict_get (Some channel) (_channel_likes w) = None →
  handle_event (self_parted channel) w = (Raise KeyError, w) ∧
  handle_event (user_joined nick channel) w = (Raise KeyError, w) ∧
  handle_event (user_parted nick channel reason) w = (Raise KeyError, w) ∧
  (channel ≠ core_nick w → startswith channel "#" = true →
   handle_event (received_privmsg sender channel msg) w = (Raise KeyError, w)).
Proof.
  intros Hnone. unfold handle_event. munfold. rewrite Hnone.
  repeat split. intros Hn Hc.
  rewrite bool_decide_eq_false_2 by done. rewrite Hc. simpl. by rewrite Hnone.
Qed.

Lemma events_for_a_missing_channel_witness :
  handle_event (self_parted "#other") busy_widget = (Raise KeyError, busy_widget) ∧
  handle_event (user_joined "carol" "#other") busy_widget
    = (Raise KeyError, busy_widget) ∧
  handle_event (user_parted "carol" "#other" None) busy_widget
    = (Raise KeyError, busy_widget) ∧
  ("#other" ≠ core_nick busy_widget → startswith "#other" "#" = true →
   handle_event (received_privmsg "carol" "#other" "hi") busy_widget
   = (Raise KeyError, busy_widget)).
Proof.
  apply (events_for_a_missing_channel busy_widget "#other" "carol" None
           "carol" "hi").
  vm_compute. reflexivity.
Defined.

(** * Joining and parting a channel *)

Lemma create_spec w nm users :
  wf w → nm ≠ server_label w →
  dict_get (Some nm) (_channel_likes w) = None →
  let v := ChannelLikeView_init (next_oid w) (Some nm) users in
  let w' := set_current (Some (next_oid w))
              (set_selector
                 (mkListbox (lb_items (_channel_selector w) ++ [nm])
                            [length (lb_items (_channel_selector w))])
                 (set_channel_likes (_channel_likes w ++ [(Some nm, v)])
                    (set_next_oid (S (next_oid w)) w))) in
  (v ← new_view (Some nm) users; add_channel_like v) w = (Ok (), w') ∧ wf w'.
Proof.
  intros Hwf Hlabel Hnone v w'. munfold. unfold new_view.
  assert (name v = Some nm ∧ oid v = next_oid w) as [Hn Ho].
  { unfold v. by destruct users. }
  assert (wf (set_next_oid (S (next_oid w)) w)) as Hwf1
    by (apply wf_set_next_oid; [done|lia]).
  destruct (add_channel_like_spec _ v nm Hwf1 Hn Hnone) as [Hadd Hwf'];
    [done|simpl; lia| |].
  { rewrite Ho. simpl. destruct Hwf as [_ _ _ Hal _ _].
    unfold oids. intros (kv & Heq & Hin)%list_elem_of_fmap.
    eapply Forall_forall in Hal; [|done]. lia. }
  fold v. rewrite Hadd. simpl. unfold w'. rewrite <-Ho. split; [done|].
  by rewrite Ho in Hwf' |- *.
Qed.

(** X5: [self_joined] for a channel that is not in the directory adds
    one view for it behind all the others, with no lines and the member
    list sorted case-insensitively, shows it in a new last row of the
    selector and makes it the current view; every other view is as it
    was.  For a channel that is in the directory already it raises
    [AssertionError], and directory, selector and current view are as
    they were. *)
Theorem self_joined_effect w channel nicklist :
  wf w → channel ≠ server_label w →
  (dict_get (Some channel) (_channel_likes w) = None →
   ∃ w' v,
     handle_event (self_joined channel nicklist) w = (Ok true, w') ∧ wf w' ∧
     _channel_likes w' = _channel_likes w ++ [(Some channel, v)] ∧
     name v = Some channel ∧ textwidget v = [] ∧
     userlist v = Some (list_sort casefold nicklist) ∧
     lb_items (_channel_selector w')
     = lb_items (_channel_selector w) ++ [channel] ∧
     _current_channel_like w' = Some (oid v)) ∧
  (is_Some (dict_get (Some channel) (_channel_likes w)) →
   ∃ w',
     handle_event (self_joined channel nicklist) w = (Raise AssertionError, w') ∧
     _channel_likes w' = _channel_likes w ∧
     _channel_selector w' = _channel_selector w ∧
     _current_channel_like w' = _current_channel_like w).
Proof.
  intros Hwf Hlabel. split.
  - intros Hnone.
    destruct (create_spec w channel (Some nicklist) Hwf Hlabel Hnone)
      as [Hc Hwf'].
    unfold handle_event. unfold mbind at 1. unfold M_bind at 1.
    rewrite Hc. eexists _, _. split; [done|]. split; [done|]. by simpl.
  - intros Hsome. unfold handle_event. munfold. unfold new_view.
    rewrite add_channel_like_taken by done. eexists. by split.
Qed.

Lemma self_joined_effect_witness :
  (dict_get (Some "#rocq") (_channel_likes busy_widget) = None →
   ∃ w' v,
     handle_event (self_joined "#rocq" ["Zoe"; "adam"]) busy_widget
       = (Ok true, w') ∧ wf w' ∧
     _channel_likes w' = _channel_likes busy_widget ++ [(Some "#rocq", v)] ∧
     name v = Some "#rocq" ∧ textwidget v = [] ∧
     userlist v = Some (list_sort casefold ["Zoe"; "adam"]) ∧
     lb_items (_channel_selector w')
     = lb_items (_channel_selector busy_widget) ++ ["#rocq"] ∧
     _current_channel_like w' = Some (oid v)) ∧
  (is_Some (dict_get (Some "#rocq") (_channel_likes busy_widget)) →
   ∃ w',
     handle_event (self_joined "#rocq" ["Zoe"; "adam"]) busy_widget
       = (Raise AssertionError, w') ∧
     _channel_likes w' = _channel_likes busy_widget ∧
     _channel_selector w' = _channel_selector busy_widget ∧
     _current_channel_like w' = _current_channel_like busy_widget).
Proof.
  apply (self_joined_effect busy_widget "#rocq" ["Zoe"; "adam"]).
  - apply wf_after_main. apply (bool_decide_unpack _). vm_compute. exact I.
  - vm_compute. discriminate.
Defined.

Lemma dict_del_last k v (d : dict) :
  dict_get k d = None → dict_del k (d ++ [(k, v)]) = d.
Proof.
  induction d as [|[k1 v1] d IH]; simpl; [by rewrite decide_True|].
  destruct (decide (k = k1)); [done|]. intros. f_equal. auto.
Qed.

Lemma dict_get_app_l k (d d' : dict) v :
  dict_get k d = Some v → dict_get k (d ++ d') = Some v.
Proof.
  induction d as [|[k1 v1] d IH]; simpl; [done|].
  by destruct (decide (k = k1)).
Qed.

(** X6: joining a channel that is not in the directory and parting it
    again gives back the directory and the rows of the selector as they
    were; the current view is then the one in the last row, whichever
    view was current before. *)
Theorem join_then_part w channel nicklist :
  wf w → channel ≠ server_label w →
  dict_get (Some channel) (_channel_likes w) = None →
  ∃ w' v,
    handle_events [self_joined channel nicklist; self_parted channel] w
      = (Rearmed, [], w') ∧
    _channel_likes w' = _channel_likes w ∧
    lb_items (_channel_selector w') = lb_items (_channel_selector w) ∧
    dict_get
      (row_key (length (lb_items (_channel_selector w)) - 1)
         (_channel_selector w)) (_channel_likes w) = Some v ∧
    _current_channel_like w' = Some (oid v) ∧ wf w'.
Proof.
  intros Hwf Hlabel Hnone.
  destruct (create_spec w channel (Some nicklist) Hwf Hlabel Hnone)
    as [Hc Hwf1].
  set (v := ChannelLikeView_init (next_oid w) (Some channel) (Some nicklist))
    in *.
  set (items := lb_items (_channel_selector w)) in *.
  set (w1 := set_current _ _) in *.
  assert (dict_get (Some channel) (_channel_likes w1) = Some v) as Hv.
  { simpl. rewrite <-(dict_set_fresh _ _ _ Hnone), dict_get_set.
    by rewrite decide_True. }
  destruct (select_something_else_active w1 channel v Hwf1 Hv eq_refl)
    as (a & v2 & Hidx & Hlt & Hv2 & Hoid & Hsel & Hwf2).
  destruct (remove_entry_spec _ channel v Hwf2 Hv) as (a' & Hidx' & Hre & Hwf3).
  { simpl. intros [= Heq]. exact (Hoid Heq). }
  assert (Some (S a') = Some (S a)) as Haa by (by rewrite <-Hidx, <-Hidx').
  injection Haa as ->. clear Hidx'.
  pose proof Hwf as [_ _ _ _ (names & Hi & Hl & Hp) _].
  assert (S a = length items) as Ha.
  { apply list_index_Some in Hidx. simpl in Hidx.
    eapply (NoDup_lookup _ _ _ channel (wf_items_NoDup w1 Hwf1)); [done|].
    simpl. fold items. by rewrite lookup_app_r, Nat.sub_diag. }
  assert (other_row (S a) w1 = length items - 1) as Hrow.
  { unfold other_row. simpl. rewrite length_app. simpl. fold items.
    rewrite decide_True by lia. lia. }
  rewrite Hrow in *.
  assert (row_key (length items - 1) (_channel_selector w1)
          = row_key (length items - 1) (_channel_selector w)) as Hrk.
  { unfold row_key, lb_get. simpl. fold items.
    rewrite lookup_app_l; [done|]. unfold items. rewrite Hi. simpl. lia. }
  assert (dict_get (row_key (length items - 1) (_channel_selector w))
            (_channel_likes w) = Some v2) as Hv2'.
  { destruct (wf_row_live w Hwf (length items - 1)) as [v3 Hv3].
    { unfold items. rewrite Hi. simpl. lia. }
    rewrite Hrk in Hv2. simpl in Hv2.
    by rewrite (dict_get_app_l _ _ _ _ Hv3) in Hv2; simplify_eq. }
  eexists _, v2. split.
  - rewrite handle_events_cons. unfold handle_event at 1.
    unfold mbind at 1. unfold M_bind at 1. rewrite Hc. simpl.
    munfold. rewrite Hv. unfold remove_channel_like. simpl name.
    assert (name v = Some channel) as -> by done. munfold.
    rewrite Hsel, Hre. done.
  - simpl. split; [by apply dict_del_last|]. split; [|done].
    fold items. rewrite Ha, delete_middle. apply app_nil_r.
Qed.

Lemma join_then_part_witness :
  ∃ w' v,
    handle_events [self_joined "#rocq" ["adam"]; self_parted "#rocq"]
      busy_widget = (Rearmed, [], w') ∧
    _channel_likes w' = _channel_likes busy_widget ∧
    lb_items (_channel_selector w') = lb_items (_channel_selector busy_widget) ∧
    dict_get
      (row_key (length (lb_items (_channel_selector busy_widget)) - 1)
         (_channel_selector busy_widget)) (_channel_likes busy_widget)
    = Some v ∧
    _current_channel_like w' = Some (oid v) ∧ wf w'.
Proof.
  apply (join_then_part busy_widget "#rocq" ["adam"]).
  - apply wf_after_main. apply (bool_decide_unpack _). vm_compute. exact I.
  - vm_compute. discriminate.
  - vm_compute. reflexivity.
Defined.

(** * Messages *)

Lemma append_line k author msg w v :
  dict_get k (_channel_likes w) = Some v →
  update_view k (λ v, Ok (add_message author msg v)) w
  = (Ok (), set_channel_likes
              (dict_set k (add_message author msg v) (_channel_likes w)) w).
Proof. intros Hv. munfold. by rewrite Hv. Qed.

Lemma wf_append_line k author msg w v :
  wf w → dict_get k (_channel_likes w) = Some v →
  wf (set_channel_likes
        (dict_set k (add_message author msg v) (_channel_likes w)) w).
Proof. intros Hwf Hv. by eapply wf_same_shape, dict_set_shape. Qed.

(** The conversation named [nm] is opened if there is none, and then
    gets a line. *)
Lemma open_and_append w nm author msg :
  wf w → nm ≠ server_label w →
  ∃ w' v',
    ((if negb (contains (Some nm) w)
      then v ← new_view (Some nm) None; add_channel_like v
      else mret ());;
     update_view (Some nm) (λ v, Ok (add_message author msg v))) w
    = (Ok (), w') ∧ wf w' ∧
    dict_get (Some nm) (_channel_likes w') = Some v' ∧
    textwidget v' = default [] (lines (Some nm) w) ++ [(author, msg)] ∧
    (∀ k, k ≠ Some nm →
       dict_get k (_channel_likes w') = dict_get k (_channel_likes w)) ∧
    (is_Some (dict_get (Some nm) (_channel_likes w)) →
     _channel_selector w' = _channel_selector w ∧
     _current_channel_like w' = _current_channel_like w) ∧
    (dict_get (Some nm) (_channel_likes w) = None →
     userlist v' = None ∧
     lb_items (_channel_selector w') = lb_items (_channel_selector w) ++ [nm] ∧
     _current_channel_like w' = Some (oid v')) ∧
    core_nick w' = core_nick w.
Proof.
  intros Hwf Hlabel. unfold contains, lines.
  destruct (dict_get (Some nm) (_channel_likes w)) as [v|] eqn:Hv.
  - rewrite bool_decide_eq_true_2 by eauto. simpl.
    unfold mbind at 1. unfold M_bind. simpl.
    rewrite (append_line _ _ _ _ v Hv).
    eexists _, _. split; [done|]. split; [by apply wf_append_line|]. simpl.
    rewrite dict_get_set, decide_True by done. split; [done|]. split; [done|].
    split; [|done]. intros k Hk. by rewrite dict_get_set, decide_False.
  - rewrite bool_decide_eq_false_2 by (by intros [??]). simpl.
    destruct (create_spec w nm None Hwf Hlabel Hv) as [Hc Hwf1].
    unfold mbind at 1. unfold M_bind at 1. rewrite Hc.
    set (v := ChannelLikeView_init (next_oid w) (Some nm) None) in *.
    set (w1 := set_current _ _) in *.
    assert (dict_get (Some nm) (_channel_likes w1) = Some v) as Hv1.
    { simpl. rewrite <-(dict_set_fresh _ _ _ Hv), dict_get_set.
      by rewrite decide_True. }
    rewrite (append_line _ _ _ _ v Hv1).
    eexists _, _. split; [done|]. split; [by apply wf_append_line|]. simpl.
    rewrite dict_get_set, decide_True by done. split; [done|]. split; [done|].
    split; [|split; [by intros [??]|done]].
    intros k Hk. rewrite dict_get_set, decide_False by done.
    rewrite <-(dict_set_fresh _ _ _ Hv), dict_get_set.
    by rewrite decide_False.
Qed.



(** X8: a message the user has sent goes, under the user's nick, to the
    view named after its recipient, which is opened first if it is not
    there; but for a recipient that starts with the channel mark and has
    no view, [AssertionError] is raised and the widget is as it was. *)
Theorem sent_message w recipient msg :
  wf w → recipient ≠ server_label w →
  (startswith recipient "#" = false ∨
   is_Some (dict_get (Some recipient) (_channel_likes w)) →
   ∃ w' v',
     handle_event (sent_privmsg recipient msg) w = (Ok true, w') ∧ wf w' ∧
     dict_get (Some recipient) (_channel_likes w') = Some v' ∧
     textwidget v'
     = default [] (lines (Some recipient) w) ++ [(core_nick w, msg)] ∧
     (∀ k, k ≠ Some recipient →
        dict_get k (_channel_likes w') = dict_get k (_channel_likes w)) ∧
     (dict_get (Some recipient) (_channel_likes w) = None →
      _current_channel_like w' = Some (oid v'))) ∧
  (startswith recipient "#" = true →
   dict_get (Some recipient) (_channel_likes w) = None →
   handle_event (sent_privmsg recipient msg) w = (Raise AssertionError, w)).
Proof.
  intros Hwf Hlabel. split.
  - intros Hcase.
    destruct (open_and_append w recipient (core_nick w) msg Hwf Hlabel)
      as (w' & v' & Hrun & Hwf' & Hv' & Ht & Hother & Hold & Hnew & Hnick).
    exists w', v'. split; [|split; [done|split; [done|split; [done|split;
      [done|by intros (_ & _ & ?)%Hnew]]]]].
    unfold handle_event. revert Hrun.
    cbv beta iota delta [mbind M_bind mret M_ret get].
    unfold contains.
    destruct (dict_get (Some recipient) (_channel_likes w)) as [v|] eqn:Hv.
    + rewrite bool_decide_eq_true_2 by eauto. simpl. by intros ->.
    + rewrite bool_decide_eq_false_2 by (by intros [??]). simpl.
      destruct Hcase as [->|[??]]; [|done].
      unfold new_view.
      destruct (add_channel_like _ _) as [[[]|e] w1] eqn:Hc; [|done].
      intros Hu.
      assert (core_nick w1 = core_nick w) as ->; [|by rewrite Hu].
      destruct (update_view_shape (Some recipient)
                  (λ v, Ok (add_message (core_nick w) msg v)) w1
                  (keeps_id_add_message _ _)) as [_ He].
      rewrite Hu in He. simpl in He. rewrite <-He, <-Hnick. done.
  - intros Hc Hnone. unfold handle_event, contains. munfold.
    rewrite Hnone, bool_decide_eq_false_2 by (by intros [??]). simpl.
    by rewrite Hc.
Qed.

Lemma sent_message_witness :
  (startswith "erin" "#" = false ∨
   is_Some (dict_get (Some "erin") (_channel_likes busy_widget)) →
   ∃ w' v',
     handle_event (sent_privmsg "erin" "hello") busy_widget = (Ok true, w') ∧
     wf w' ∧
     dict_get (Some "erin") (_channel_likes w') = Some v' ∧
     textwidget v'
     = default [] (lines (Some "erin") busy_widget)
       ++ [(core_nick busy_widget, "hello")] ∧
     (∀ k, k ≠ Some "erin" →
        dict_get k (_channel_likes w')
        = dict_get k (_channel_likes busy_widget)) ∧
     (dict_get (Some "erin") (_channel_likes busy_widget) = None →
      _current_channel_like w' = Some (oid v'))) ∧
  (startswith "erin" "#" = true →
   dict_get (Some "erin") (_channel_likes busy_widget) = None →
   handle_event (sent_privmsg "erin" "hello") busy_widget
   = (Raise AssertionError, busy_widget)).
Proof.
  apply (sent_message busy_widget "erin" "hello").
  - apply wf_after_main. apply (bool_decide_unpack _). vm_compute. exact I.
  - vm_compute. discriminate.
Defined.

(** * Member lists and their list boxes *)

Section sort_more.
Context {A : Type} (key : A → string).

Lemma sort_insert_least y l :
  StronglySorted (key_le key) (y :: l) → sort_insert key y l = y :: l.
Proof.
  intros [_ Hy]%StronglySorted_inv. destruct l as [|z l]; simpl; [done|].
  apply Forall_cons in Hy as [Hyz _]. unfold key_le in Hyz. by rewrite Hyz.
Qed.

Lemma list_sort_sorted_id l :
  StronglySorted (key_le key) l → list_sort key l = l.
Proof.
  induction l as [|y l IH]; [done|]. intros Hs.
  pose proof Hs as [Hl _]%StronglySorted_inv.
  change (list_sort key (y :: l)) with (sort_insert key y (list_sort key l)).
  rewrite (IH Hl). by apply sort_insert_least.
Qed.

(** Sorting a sorted list with one more element at its end puts the
    element in, and moves nothing else. *)
Lemma list_sort_snoc l x :
  StronglySorted (key_le key) l →
  ∃ i, i ≤ length l ∧ list_sort key (l ++ [x]) = take i l ++ x :: drop i l.
Proof.
  unfold list_sort. rewrite foldr_app. simpl.
  induction l as [|y l IH]; simpl; intros Hs.
  { exists 0. by split. }
  pose proof Hs as [Hl Hy]%StronglySorted_inv.
  destruct (IH Hl) as (i & Hi & ->).
  destruct i as [|i]; simpl.
  - rewrite drop_0. destruct (String.leb (key y) (key x)).
    + exists 1. simpl. rewrite drop_0. split; [lia|done].
    + exists 0. simpl. rewrite (sort_insert_least y l Hs). split; [lia|done].
  - destruct l as [|z l]; simpl in *; [lia|].
    apply Forall_cons in Hy as [Hyz _]. unfold key_le in Hyz. rewrite Hyz.
    exists (S (S i)). simpl. split; [lia|done].
Qed.
End sort_more.

Lemma list_index_middle x (l1 l2 : list string) :
  x ∉ l1 → list_index x (l1 ++ x :: l2) = Some (length l1).
Proof.
  induction l1 as [|y l1 IH]; simpl; [by rewrite decide_True|].
  intros [Hne Hx]%not_elem_of_cons. rewrite decide_False by done.
  by rewrite (IH Hx).
Qed.

#[local] Instance plain_antisym : AntiSymm (=) (key_le (@id string)).
Proof. intros x y. apply String.leb_antisym. Qed.

(** X9: a channel is created with its member list sorted
    case-insensitively, holding the nicks it was given, each as often as
    it was given; its list box shows the list, and it has no lines. *)
Theorem new_channel_members o nm users :
  ∃ ul, userlist (ChannelLikeView_init o nm (Some users)) = Some ul ∧
        ul ≡ₚ users ∧ casefold_sorted ul ∧
        in_step (ChannelLikeView_init o nm (Some users)) ∧
        textwidget (ChannelLikeView_init o nm (Some users)) = [].
Proof.
  exists (list_sort casefold users). split; [done|].
  split; [apply list_sort_perm|]. split; [apply list_sort_sorted|done].
Qed.

(** X10: [on_join] on a channel puts the nick into the member list,
    which is then sorted case-insensitively and holds the nick and the
    members it had, and appends the join notice; on a conversation it
    raises [AssertionError], on the server view [AttributeError]. *)
Theorem on_join_effect nick v :
  (∀ ul, channel_with ul v →
     ∃ v' ul', on_join nick v = Ok v' ∧ userlist v' = Some ul' ∧
               ul' ≡ₚ nick :: ul ∧ casefold_sorted ul' ∧
               textwidget v'
               = textwidget v
                 ++ [("*", nick +:+ " joined " +:+ default "" (name v) +:+ ".")] ∧
               name v' = name v ∧ oid v' = oid v) ∧
  (∀ n, name v = Some n → startswith n "#" = false →
     on_join nick v = Raise AssertionError) ∧
  (name v = None → on_join nick v = Raise AttributeError).
Proof.
  split; [|split].
  - intros ul ((n & Hn & Hc) & Hul & [lb Hlb]).
    unfold on_join, name_is_channel, users_of. rewrite Hn, Hul, Hlb. simpl.
    rewrite Hc. simpl.
    destruct (list_index_is_Some nick (list_sort casefold (ul ++ [nick])))
      as [i Hi].
    { rewrite list_sort_perm. set_solver. }
    unfold index_or_raise. rewrite Hi. simpl. eexists _, _.
    split; [done|]. simpl. split; [done|]. split.
    { rewrite list_sort_perm. by rewrite Permutation_app_comm. }
    split; [apply list_sort_sorted|]. by rewrite Hn.
  - intros n Hn Hc. unfold on_join, name_is_channel. rewrite Hn. simpl.
    by rewrite Hc.
  - intros Hn. unfold on_join, name_is_channel. by rewrite Hn.
Qed.

(** X11: the list box of a channel stays in step with its member list:
    always through [on_part] and [on_quit]; through [on_join] when the
    list is sorted case-insensitively and the nick is not in it; through
    [_userlist_replace] when the list is sorted by code point, has no nick
    twice, and the new nick is not in it. *)
Theorem list_box_in_step v :
  in_step v →
  (∀ nick reason v', on_part nick reason v = Ok v' → in_step v') ∧
  (∀ nick reason v', on_quit nick reason v = Ok v' → in_step v') ∧
  (∀ nick ul v', userlist v = Some ul → casefold_sorted ul → nick ∉ ul →
     on_join nick v = Ok v' → in_step v') ∧
  (∀ old new ul v', userlist v = Some ul → plain_sorted ul → NoDup ul →
     new ∉ ul → _userlist_replace old new v = Ok v' → in_step v').
Proof.
  intros Hstep. unfold in_step in Hstep. split; [|split; [|split]].
  - intros nick reason v'.
    unfold on_part, name_is_channel, users_of, index_or_raise.
    destruct (name v) as [n|]; simpl; [|done].
    destruct (startswith n "#"); simpl; [|done].
    destruct (userlist v) as [ul|], (userlistbox v) as [lb|]; simpl; try done.
    destruct (list_index nick ul) as [i|]; simpl; [|done].
    intros [= <-]. unfold in_step. simpl. by rewrite Hstep.
  - intros nick reason v'.
    unfold on_quit, name_is_channel, users_of, index_or_raise.
    destruct (name v) as [n|]; simpl; [|done].
    destruct (startswith n "#"); simpl.
    + destruct (userlist v) as [ul|], (userlistbox v) as [lb|]; simpl;
        try done.
      destruct (list_index nick ul) as [i|]; simpl; [|done].
      intros [= <-]. unfold in_step. simpl. by rewrite Hstep.
    + destruct (bool_decide _); intros [= <-]; unfold in_step; simpl;
        by destruct (userlist v), (userlistbox v).
  - intros nick ul v' Hul Hs Hfresh. rewrite Hul in Hstep.
    unfold on_join, name_is_channel, users_of, index_or_raise.
    destruct (name v) as [n|]; simpl; [|done].
    destruct (startswith n "#"); simpl; [|done]. rewrite Hul.
    destruct (userlistbox v) as [lb|]; simpl; [|done].
    destruct (list_sort_snoc casefold ul nick Hs) as (i & Hi & ->).
    rewrite list_index_middle.
    2:{ intros Hin. apply Hfresh.
        eapply elem_of_sublist; [exact Hin|apply sublist_take]. }
    simpl. intros [= <-]. unfold in_step. simpl.
    rewrite length_take, Nat.min_l by done. by rewrite Hstep.
  - intros old new ul v' Hul Hs Hnd Hfresh. rewrite Hul in Hstep.
    unfold _userlist_replace, users_of, index_or_raise. rewrite Hul.
    destruct (userlistbox v) as [lb|]; simpl; [|done].
    destruct (list_index old ul) as [i|] eqn:Hi; simpl; [|done].
    apply list_index_Some in Hi.
    assert (list_sort id (<[i:=new]> ul)
            = list_sort id (delete i ul ++ [new])) as ->.
    { apply (StronglySorted_unique (key_le id)); [apply list_sort_sorted..|].
      rewrite !list_sort_perm, (insert_delete_perm _ _ _ _ Hi).
      by rewrite Permutation_app_comm. }
    destruct (list_sort_snoc id (delete i ul) new) as (j & Hj & ->).
    { by apply delete_sorted. }
    rewrite list_index_middle.
    2:{ intros Hin. apply Hfresh. eapply list_elem_of_delete_inv.
        eapply elem_of_sublist; [exact Hin|apply sublist_take]. }
    simpl. intros [= <-]. unfold in_step. simpl.
    rewrite length_take, Nat.min_l by done.
    destruct (bool_decide _); simpl; [|by rewrite Hstep].
    unfold lb_selection_set. case_bool_decide; simpl; by rewrite Hstep.
Qed.

Lemma list_box_in_step_witness :
  let v := ChannelLikeView_init 1 (Some "#test") (Some ["alice"; "bob"]) in
  (∀ nick reason v', on_part nick reason v = Ok v' → in_step v') ∧
  (∀ nick reason v', on_quit nick reason v = Ok v' → in_step v') ∧
  (∀ nick ul v', userlist v = Some ul → casefold_sorted ul → nick ∉ ul →
     on_join nick v = Ok v' → in_step v') ∧
  (∀ old new ul v', userlist v = Some ul → plain_sorted ul → NoDup ul →
     new ∉ ul → _userlist_replace old new v = Ok v' → in_step v').
Proof.
  apply (list_box_in_step
           (ChannelLikeView_init 1 (Some "#test") (Some ["alice"; "bob"]))).
  reflexivity.
Defined.

(** * The user's own nick change *)

Lemma self_changed_view old new v :
  view_ok v → (∀ ul, userlist v = Some ul → old ∈ ul) →
  ∃ v', on_self_changed_nick old new v = Ok v' ∧
        textwidget v' = textwidget v ++ [own_nick_notice new] ∧
        name v' = name v ∧
        match userlist v with
        | Some ul => ∃ i, list_index old ul = Some i ∧
                          userlist v' = Some (list_sort id (<[i:=new]> ul))
        | None => userlist v' = None
        end.
Proof.
  intros Hok Hin. unfold on_self_changed_nick.
  destruct (userlist v) as [ul|] eqn:Hul.
  2:{ eexists. split; [done|]. simpl. by rewrite Hul. }
  destruct (channel_name v ul Hok Hul) as (n & lb & Hn & Hc & Hlb).
  destruct (list_index_is_Some old ul (Hin ul eq_refl)) as [i Hi].
  destruct (list_index_is_Some new (list_sort id (<[i:=new]> ul)))
    as [j Hj].
  { rewrite list_sort_perm. eapply list_elem_of_lookup_2.
    apply list_lookup_insert_eq. eapply lookup_lt_Some, list_index_Some, Hi. }
  unfold _userlist_replace, users_of, index_or_raise.
  rewrite Hul, Hlb. simpl. rewrite Hi. simpl. rewrite Hj. simpl.
  eexists. split; [done|]. simpl. split; [done|]. split; [done|]. by exists i.
Qed.

(** X12: when every channel of the directory lists the user's old nick,
    [self_changed_nick] is handled to the end: the nick button shows the
    new nick, every view, the server view and the conversations too, gets
    the line that tells of the new nick, and in every channel the old
    nick is replaced by the new one and the list sorted again (by code
    point). *)
Theorem own_nick_change w old new :
  views_ok w →
  (∀ k v ul, (k, v) ∈ _channel_likes w → userlist v = Some ul → old ∈ ul) →
  ∃ w',
    handle_event (self_changed_nick old new) w = (Ok true, w') ∧
    _nickbutton w' = new ∧
    ∀ k v, dict_get k (_channel_likes w) = Some v →
      ∃ v', dict_get k (_channel_likes w') = Some v' ∧
            textwidget v' = textwidget v ++ [own_nick_notice new] ∧
            name v' = name v ∧
            match userlist v with
            | Some ul => ∃ i, list_index old ul = Some i ∧
                              userlist v' = Some (list_sort id (<[i:=new]> ul))
            | None => userlist v' = None
            end.
Proof.
  intros Hok Hall. set (f := on_self_changed_nick old new).
  assert (∀ k v, (k, v) ∈ _channel_likes w →
            ∃ v', f v = Ok v' ∧
              textwidget v' = textwidget v ++ [own_nick_notice new] ∧
              name v' = name v ∧
              match userlist v with
              | Some ul => ∃ i, list_index old ul = Some i ∧
                                userlist v' = Some (list_sort id (<[i:=new]> ul))
              | None => userlist v' = None
              end) as Hview.
  { intros k v Hin. apply self_changed_view.
    - unfold views_ok in Hok. rewrite Forall_forall in Hok. apply (Hok _ Hin).
    - intros ul. by apply (Hall k). }
  eexists. split; [|split].
  - unfold handle_event. cbv beta iota delta [mbind M_bind modify mret M_ret].
    rewrite for_each_view_total; [done|]. simpl. intros k v Hin.
    destruct (Hview k v Hin) as (v' & ? & _). eauto.
  - done.
  - intros k v Hv. simpl. rewrite dict_get_fmap, Hv. simpl.
    destruct (Hview k v (dict_get_elem_of _ _ _ Hv)) as (v' & Hf & ?).
    exists v'. unfold f in Hf. by rewrite (result_of_Ok _ _ _ Hf).
Qed.

Lemma own_nick_change_witness :
  ∃ w',
    handle_event (self_changed_nick "bob" "rob") busy_widget = (Ok true, w') ∧
    _nickbutton w' = "rob" ∧
    ∀ k v, dict_get k (_channel_likes busy_widget) = Some v →
      ∃ v', dict_get k (_channel_likes w') = Some v' ∧
            textwidget v' = textwidget v ++ [own_nick_notice "rob"] ∧
            name v' = name v ∧
            match userlist v with
            | Some ul => ∃ i, list_index "bob" ul = Some i ∧
                              userlist v'
                              = Some (list_sort id (<[i:="rob"]> ul))
            | None => userlist v' = None
            end.
Proof.
  apply (own_nick_change busy_widget "bob" "rob").
  - unfold views_ok.
    let d := eval vm_compute in (_channel_likes busy_widget) in
    change (_channel_likes busy_widget) with d.
    repeat constructor; cbv; eauto.
  - let d := eval vm_compute in (_channel_likes busy_widget) in
    change (_channel_likes busy_widget) with d.
    intros k v ul Hin Hul.
    repeat (apply elem_of_cons in Hin as [[= -> ->]|Hin];
            [simpl in Hul; try discriminate|]).
    + injection Hul as <-. set_solver.
    + by apply elem_of_nil in Hin.
Defined.

(** * Selecting a row *)



(** * What the user types *)

Lemma span_word_spec s :
  s = (span_word s).1 +:+ (span_word s).2 ∧
  all_word (span_word s).1 = true ∧
  match (span_word s).2 with
  | String c _ => is_word c = false
  | EmptyString => True
  end.
Proof.
  induction s as [|c s (IH1 & IH2 & IH3)]; simpl; [done|].
  destruct (is_word c) eqn:Hc; simpl; [|by rewrite Hc].
  destruct (span_word s) as [wd r]. simpl in *.
  split; [by rewrite IH1 at 1|]. by rewrite Hc, IH2.
Qed.

Lemma span_word_build wd rest :
  all_word wd = true →
  match rest with String c _ => is_word c = false | EmptyString => True end →
  span_word (wd +:+ rest) = (wd, rest).
Proof.
  intros Hwd Hrest. induction wd as [|c wd IH]; simpl in *.
  - destruct rest as [|c r]; simpl; [done|]. by rewrite Hrest.
  - apply andb_true_iff in Hwd as [-> Hwd]. by rewrite (IH Hwd).
Qed.

Lemma has_newline_cons c a :
  has_newline (String c a) = bool_decide (c = newline) || has_newline a.
Proof. done. Qed.

Lemma has_newline_head a : has_newline (String newline a) = true.
Proof. rewrite has_newline_cons. by rewrite bool_decide_eq_true_2. Qed.

Lemma append_cons c a b : String c a +:+ b = String c (a +:+ b).
Proof. done. Qed.

Lemma append_not_empty a c b : "" ≠ a +:+ String c b.
Proof. by destruct a. Qed.

Lemma dot_star_end_spec s a :
  dot_star_end s = Some a ↔
  has_newline a = false ∧ (s = a ∨ s = a +:+ String newline "").
Proof.
  revert a. induction s as [|c s IH]; intros a.
  - cbn [dot_star_end]. split.
    + intros [= <-]. by split; [|left].
    + intros [Ha [<-|Hs]]; [done|]. by apply append_not_empty in Hs.
  - cbn [dot_star_end]. destruct (decide (c = newline)) as [->|Hc].
    + assert (has_newline a = false →
              String newline s = a ∨ String newline s = a +:+ String newline "" →
              a = "" ∧ s = "") as Hinv.
      { intros Ha [<-|Heq]; [by rewrite has_newline_head in Ha|].
        destruct a as [|c' a]; [by injection Heq as ->|].
        rewrite append_cons in Heq. injection Heq as <- _.
        by rewrite has_newline_head in Ha. }
      destruct (decide (s = "")) as [->|Hs].
      * split; [intros [= <-]; by split; [|right]|].
        intros [Ha Heq]. by destruct (Hinv Ha Heq) as [-> _].
      * split; [done|]. intros [Ha Heq]. by destruct (Hinv Ha Heq) as [_ ?].
    + split.
      * destruct (dot_star_end s) as [a'|] eqn:Hs; [|done].
        intros [= <-]. clear Hs. destruct (proj1 (IH a') eq_refl) as [Ha Hs].
        rewrite has_newline_cons, bool_decide_eq_false_2 by done.
        split; [done|]. rewrite append_cons.
        destruct Hs as [->| ->]; [by left|by right].
      * intros [Ha Hs]. destruct a as [|c' a].
        { destruct Hs as [?|Hs]; [done|]. by injection Hs as -> _. }
        rewrite has_newline_cons in Ha. apply orb_false_iff in Ha as [_ Ha].
        rewrite append_cons in Hs.
        assert (c' = c ∧ (s = a ∨ s = a +:+ String newline "")) as [-> Hs'].
        { destruct Hs as [Hs|Hs]; injection Hs as -> ->; auto. }
        by rewrite (proj2 (IH a) (conj Ha Hs')).
Qed.

(** The match of the pattern, as a set of texts. *)
Lemma match_command_spec msg cmd arg :
  match_command msg = Some (cmd, arg) ↔
  ∃ wd, cmd = String "/" wd ∧ wd ≠ "" ∧ all_word wd = true ∧
        has_newline (default "" arg) = false ∧
        (msg = cmd +:+ arg_text arg ∨
         msg = cmd +:+ arg_text arg +:+ String newline "").
Proof.
  split.
  - unfold match_command. destruct msg as [|c s]; [done|].
    destruct (decide (c = "/"%char)) as [->|]; [|done].
    destruct (span_word_spec s) as (Hs & Hw & Hr).
    destruct (decide ((span_word s).1 = "")) as [|Hne]; [done|].
    destruct ((span_word s).2) as [|c' rest] eqn:Hrest.
    + intros [= <- <-]. exists (span_word s).1. repeat split; try done.
      left. simpl. by rewrite Hs at 1.
    + destruct (decide (c' = " "%char)) as [->|Hc].
      * destruct (dot_star_end rest) as [a|] eqn:Ha; simpl; [|done].
        intros [= <- <-]. apply dot_star_end_spec in Ha as [Ha Hrest'].
        exists (span_word s).1. repeat split; try done. simpl.
        destruct Hrest' as [->| ->]; [left|right]; by rewrite Hs at 1.
      * destruct (decide (String c' rest = String newline "")) as [Heq|];
          [|done].
        intros [= <- <-]. exists (span_word s).1. repeat split; try done.
        right. simpl. rewrite Hs at 1. by rewrite Heq.
  - intros (wd & -> & Hne & Hw & Ha & Hmsg).
    assert (∀ t, match t with
                 | String c _ => is_word c = false
                 | EmptyString => True
                 end →
                 span_word (wd +:+ t) = (wd, t)) as Hspan
      by (intros; by apply span_word_build).
    assert (∀ t, span_word (wd +:+ t) = (wd, t) →
              match_command (String "/" wd +:+ t)
              = match t with
                | EmptyString => Some (String "/" wd, None)
                | String c' rest =>
                    if decide (c' = " "%char)
                    then args ← dot_star_end rest;
                         Some (String "/" wd, Some args)
                    else if decide (t = String newline "")
                         then Some (String "/" wd, None)
                         else None
                end) as Hmc.
    { intros t Ht. rewrite append_cons. unfold match_command.
      rewrite decide_True by done. rewrite Ht. cbn [fst snd].
      by rewrite decide_False by done. }
    destruct arg as [a|]; cbn [default arg_text] in *.
    + assert (dot_star_end a = Some a ∧
              dot_star_end (a +:+ String newline "") = Some a) as [Ha1 Ha2].
      { split; apply dot_star_end_spec; auto. }
      change (" " +:+ a) with (String " " a) in Hmsg.
      change (String " " a +:+ String newline "")
        with (String " " (a +:+ String newline "")) in Hmsg.
      destruct Hmsg as [-> | ->].
      * rewrite Hmc by (by apply Hspan).
        rewrite decide_True by done. by rewrite Ha1.
      * rewrite Hmc by (by apply Hspan).
        rewrite decide_True by done. by rewrite Ha2.
    + change ("" +:+ String newline "") with (String newline "") in Hmsg.
      destruct Hmsg as [-> | ->].
      * by rewrite Hmc by (by apply Hspan).
      * rewrite Hmc by (by apply Hspan).
        rewrite decide_False by done. by rewrite decide_True.
Qed.


Lemma update_oid_fresh o f (d : dict) :
  o ∉ oids d → update_oid o f d = d ∧ find_oid o d = None.
Proof.
  unfold oids, update_oid. induction d as [|[k1 v1] d IH]; csimpl; [done|].
  intros [Hne Ho]%not_elem_of_cons. destruct (IH Ho) as [-> ->].
  by rewrite !decide_False by done.
Qed.

Lemma find_oid_spec w k v :
  wf w → dict_get k (_channel_likes w) = Some v →
  find_oid (oid v) (_channel_likes w) = Some v ∧
  ∀ f, update_oid (oid v) f (_channel_likes w)
       = dict_set k (f v) (_channel_likes w).
Proof.
  intros [Hk _ Ho _ _ _]. revert Hk Ho.
  induction (_channel_likes w) as [|[k1 v1] d IH]; [done|].
  unfold oids. csimpl.
  intros [Hk1 Hk]%NoDup_cons [Ho1 Ho]%NoDup_cons.
  destruct (decide (k = k1)) as [->|Hne].
  - intros [= ->]. rewrite decide_True by done. split; [done|].
    intros f. unfold update_oid. csimpl. rewrite decide_True by done.
    f_equal. by apply update_oid_fresh.
  - intros Hv. destruct (IH Hk Ho Hv) as [Hfind Hupd].
    assert (oid v1 ≠ oid v) as Hov.
    { intros Heq. apply Ho1. rewrite Heq. apply list_elem_of_fmap.
      exists (k, v). split; [done|]. by apply dict_get_elem_of. }
    rewrite decide_False by done. split; [done|]. intros f.
    unfold update_oid. csimpl. rewrite decide_False by done.
    f_equal. apply Hupd.
Qed.

Lemma wf_current_view w :
  wf w →
  ∃ k v, dict_get k (_channel_likes w) = Some v ∧ name v = k ∧
         _current_channel_like w = Some (oid v) ∧ current_view w = Ok v.
Proof.
  intros Hwf. pose proof Hwf as [_ _ _ _ _ (i & v & _ & _ & Hv & Hc)].
  exists (row_key i (_channel_selector w)), v. split; [done|].
  split; [by eapply wf_name_of|]. split; [done|].
  unfold current_view. rewrite Hc.
  by destruct (find_oid_spec w _ _ Hwf Hv) as [-> _].
Qed.

(** X15: a text that does not start with a slash is sent as it is to
    the channel or conversation that is the current view, and the widget
    is as it was; in the server view nothing is sent, and the server view
    gets the line that says so. *)
Theorem plain_text_is_sent msg w :
  wf w → startswith msg "/" = false →
  ∃ k cur,
    dict_get k (_channel_likes w) = Some cur ∧
    _current_channel_like w = Some (oid cur) ∧
    match k with
    | Some n => _on_enter_pressed msg w = (Ok [core_send_privmsg n msg], w)
    | None =>
        _on_enter_pressed msg w
        = (Ok [], set_channel_likes
                    (dict_set None
                       (add_message "*" "Cannot send messages here :(" cur)
                       (_channel_likes w)) w)
    end.
Proof.
  intros Hwf Hmsg.
  destruct (wf_current_view w Hwf) as (k & cur & Hcur & Hn & Hc & Hview).
  exists k, cur. split; [done|]. split; [done|].
  assert (match_command msg = None) as Hm.
  { unfold match_command. destruct msg as [|c s]; [done|]. simpl in Hmsg.
    by rewrite decide_False by (by apply bool_decide_eq_false_1 in Hmsg). }
  unfold _on_enter_pressed. rewrite Hm, Hview, Hn. destruct k as [n|]; [done|].
  by destruct (find_oid_spec w _ _ Hwf Hcur) as [_ ->].
Qed.

Lemma plain_text_is_sent_witness :
  ∃ k cur,
    dict_get k (_channel_likes busy_widget) = Some cur ∧
    _current_channel_like busy_widget = Some (oid cur) ∧
    match k with
    | Some n =>
        _on_enter_pressed "hello there" busy_widget
        = (Ok [core_send_privmsg n "hello there"], busy_widget)
    | None =>
        _on_enter_pressed "hello there" busy_widget
        = (Ok [], set_channel_likes
                    (dict_set None
                       (add_message "*" "Cannot send messages here :(" cur)
                       (_channel_likes busy_widget)) busy_widget)
    end.
Proof.
  apply (plain_text_is_sent "hello there" busy_widget).
  - apply wf_after_main. apply (bool_decide_unpack _). vm_compute. exact I.
  - reflexivity.
Defined.

(** X16: a command with an argument is passed on with the argument as
    typed, whatever it is: [/join], [/nick] and [/part] call
    [join_channel], [change_nick] and [part_channel] with it; [/join] and
    [/nick] without one call them with [None].  The widget is as it was. *)
Theorem typed_commands w a :
  has_newline a = false →
  _on_enter_pressed ("/join " +:+ a) w = (Ok [core_join_channel (Some a)], w) ∧
  _on_enter_pressed ("/nick " +:+ a) w = (Ok [core_change_nick (Some a)], w) ∧
  _on_enter_pressed ("/part " +:+ a) w = (Ok [core_part_channel a], w) ∧
  _on_enter_pressed "/join" w = (Ok [core_join_channel None], w) ∧
  _on_enter_pressed "/nick" w = (Ok [core_change_nick None], w).
Proof.
  intros Ha.
  assert (∀ wd, wd ≠ "" → all_word wd = true →
            match_command (String "/" wd +:+ String " " a)
            = Some (String "/" wd, Some a)) as Hm.
  { intros wd ??. apply match_command_spec. exists wd.
    repeat split; try done. by left. }
  unfold _on_enter_pressed. repeat split.
  - change ("/join " +:+ a) with ("/join" +:+ String " " a).
    by rewrite (Hm "join").
  - change ("/nick " +:+ a) with ("/nick" +:+ String " " a).
    by rewrite (Hm "nick").
  - change ("/part " +:+ a) with ("/part" +:+ String " " a).
    by rewrite (Hm "part").
Qed.

Lemma typed_commands_witness :
  _on_enter_pressed ("/join " +:+ "#rocq") busy_widget
    = (Ok [core_join_channel (Some "#rocq")], busy_widget) ∧
  _on_enter_pressed ("/nick " +:+ "#rocq") busy_widget
    = (Ok [core_change_nick (Some "#rocq")], busy_widget) ∧
  _on_enter_pressed ("/part " +:+ "#rocq") busy_widget
    = (Ok [core_part_channel "#rocq"], busy_widget) ∧
  _on_enter_pressed "/join" busy_widget
    = (Ok [core_join_channel None], busy_widget) ∧
  _on_enter_pressed "/nick" busy_widget
    = (Ok [core_change_nick None], busy_widget).
Proof. apply (typed_commands busy_widget "#rocq"). reflexivity. Defined.

(** X17: [/part] without an argument parts the current view when that
    is a channel; in a conversation and in the server view it raises
    [ValueError], and nothing is sent. *)
Theorem bare_part w :
  wf w →
  ∃ k cur,
    dict_get k (_channel_likes w) = Some cur ∧
    _current_channel_like w = Some (oid cur) ∧
    _on_enter_pressed "/part" w
    = match k with
      | Some channel =>
          if startswith channel "#" then (Ok [core_part_channel channel], w)
          else (Raise ValueError, w)
      | None => (Raise ValueError, w)
      end.
Proof.
  intros Hwf.
  destruct (wf_current_view w Hwf) as (k & cur & Hcur & Hn & Hc & Hview).
  exists k, cur. split; [done|]. split; [done|].
  unfold _on_enter_pressed.
  change (match_command "/part") with (Some ("/part", @None string)).
  cbv beta iota.
  rewrite decide_False by done. rewrite decide_False by done.
  rewrite decide_True by done. rewrite Hview, Hn.
  destruct k as [ch|]; [|done]. by destruct (startswith ch "#").
Qed.

Lemma bare_part_witness :
  ∃ k cur,
    dict_get k (_channel_likes test_widget) = Some cur ∧
    _current_channel_like test_widget = Some (oid cur) ∧
    _on_enter_pressed "/part" test_widget
    = match k with
      | Some channel =>
          if startswith channel "#"
          then (Ok [core_part_channel channel], test_widget)
          else (Raise ValueError, test_widget)
      | None => (Raise ValueError, test_widget)
      end.
Proof.
  apply (bare_part test_widget).
  apply wf_after_main. apply (bool_decide_unpack _). vm_compute. exact I.
Defined.

(** X18: whatever is typed, at most one call is made on the core, and
    none when an exception is raised, which leaves the widget as it was;
    no view is made, removed or selected, and no view but the server
    view changes. *)
Theorem typing_keeps_the_directory msg w :
  wf w →
  let r := _on_enter_pressed msg w in
  wf r.2 ∧
  (∀ k, k ≠ None →
     dict_get k (_channel_likes r.2) = dict_get k (_channel_likes w)) ∧
  _channel_selector r.2 = _channel_selector w ∧
  _current_channel_like r.2 = _current_channel_like w ∧
  (∀ calls, r.1 = Ok calls → length calls ≤ 1) ∧
  (∀ e, r.1 = Raise e → r.2 = w).
Proof.
  intros Hwf.
  destruct (wf_current_view w Hwf) as (k & cur & Hcur & Hn & Hc & Hview).
  assert (∀ calls : list core_call, length calls ≤ 1 →
    let r := (Ok calls, w) in
    wf r.2 ∧
    (∀ k, k ≠ None →
       dict_get k (_channel_likes r.2) = dict_get k (_channel_likes w)) ∧
    _channel_selector r.2 = _channel_selector w ∧
    _current_channel_like r.2 = _current_channel_like w ∧
    (∀ calls, r.1 = Ok calls → length calls ≤ 1) ∧
    (∀ e, r.1 = Raise e → r.2 = w)) as Hok.
  { intros calls Hlen. simpl. split; [done|]. split; [done|].
    split; [done|]. split; [done|]. split; [|done].
    by intros ? [= <-]. }
  assert (∀ e : exn,
    let r := (@Raise (list core_call) e, w) in
    wf r.2 ∧
    (∀ k, k ≠ None →
       dict_get k (_channel_likes r.2) = dict_get k (_channel_likes w)) ∧
    _channel_selector r.2 = _channel_selector w ∧
    _current_channel_like r.2 = _current_channel_like w ∧
    (∀ calls, r.1 = Ok calls → length calls ≤ 1) ∧
    (∀ e, r.1 = Raise e → r.2 = w)) as Hraise.
  { intros e. simpl. split; [done|]. split; [done|].
    split; [done|]. split; [done|]. split; done. }
  unfold _on_enter_pressed. rewrite Hview, Hn.
  destruct (match_command msg) as [[cmd arg]|].
  - repeat case_decide; try (apply Hok; simpl; lia); [|apply Hraise].
    destruct arg; [apply Hok; simpl; lia|].
    destruct k as [ch|]; [|apply Hraise].
    destruct (startswith ch "#"); simpl; [apply Hok; simpl; lia|apply Hraise].
  - destruct k as [n|]; [apply Hok; simpl; lia|].
    destruct (find_oid_spec w _ _ Hwf Hcur) as [_ ->]. simpl.
    split; [by apply wf_append_line|].
    split; [|split; [done|split; [done|split; [|done]]]].
    + intros k Hk. by rewrite dict_get_set, decide_False.
    + intros ? [= <-]. simpl. lia.
Qed.

Lemma typing_keeps_the_directory_witness :
  let r := _on_enter_pressed "/me waves" busy_widget in
  wf r.2 ∧
  (∀ k, k ≠ None →
     dict_get k (_channel_likes r.2) = dict_get k (_channel_likes busy_widget)) ∧
  _channel_selector r.2 = _channel_selector busy_widget ∧
  _current_channel_like r.2 = _current_channel_like busy_widget ∧
  (∀ calls, r.1 = Ok calls → length calls ≤ 1) ∧
  (∀ e, r.1 = Raise e → r.2 = busy_widget).
Proof.
  apply (typing_keeps_the_directory "/me waves" busy_widget).
  apply wf_after_main. apply (bool_decide_unpack _). vm_compute. exact I.
Defined.

(** * Leaving *)

(** X19: [part_all_channels_and_quit] parts every view of the directory
    whose name starts with the channel mark, each once and in directory
    order, parts nothing else, and then quits: [quit] is the last call
    and the only one of its kind. *)
Theorem part_all_then_quit w :
  NoDup (_channel_likes w).*1 →
  ∃ parts,
    part_all_channels_and_quit w = (core_part_channel <$> parts) ++ [core_quit] ∧
    NoDup parts ∧
    parts = filter (λ n, startswith n "#" = true)
              (omap id (_channel_likes w).*1) ∧
    ∀ n, n ∈ parts ↔
         startswith n "#" = true ∧
         is_Some (dict_get (Some n) (_channel_likes w)).
Proof.
  intros Hnd. unfold part_all_channels_and_quit.
  exists (filter (λ n, startswith n "#" = true) (omap id (_channel_likes w).*1)).
  assert (NoDup (omap id (_channel_likes w).*1)) as Hnd'.
  { revert Hnd. generalize ((_channel_likes w).*1). clear.
    induction l as [|[n|] l IH]; csimpl; intros Hnd; [constructor| |].
    - apply NoDup_cons in Hnd as [Hn Hnd]. apply NoDup_cons. split; [|auto].
      rewrite list_elem_of_omap. intros ([?|] & ? & ?); simplify_eq/=. done.
    - apply NoDup_cons in Hnd as [_ Hnd]. auto. }
  split; [|split; [by apply NoDup_filter|split; [done|]]].
  - f_equal. clear Hnd Hnd'.
    induction (_channel_likes w) as [|[[n|] v] d IH]; csimpl; [done| |done].
    rewrite filter_cons. destruct (startswith n "#") eqn:Hc; csimpl.
    + by f_equal.
    + done.
  - intros n. rewrite list_elem_of_filter, list_elem_of_omap, dict_get_is_Some.
    split.
    + intros [Hc ([n'|] & Hin & ?)]; simplify_eq/=. done.
    + intros [Hc Hin]. split; [done|]. by exists (Some n).
Qed.

Lemma part_all_then_quit_witness :
  ∃ parts,
    part_all_channels_and_quit busy_widget
    = (core_part_channel <$> parts) ++ [core_quit] ∧
    NoDup parts ∧
    parts = filter (λ n, startswith n "#" = true)
              (omap id (_channel_likes busy_widget).*1) ∧
    ∀ n, n ∈ parts ↔
         startswith n "#" = true ∧
         is_Some (dict_get (Some n) (_channel_likes busy_widget)).
Proof.
  apply (part_all_then_quit busy_widget).
  apply (bool_decide_unpack _). vm_compute. exact I.
Defined.

(** * Parting the channel that is shown *)

(** X20: when the user parts the channel that is the current view, the
    view of the next row of the selector becomes the current one, or the
    view of the row before when the channel was in the last row; the
    channel's row and its entry in the directory go, and nothing else
    does. *)
Theorem parting_the_current_view w channel v :
  wf w → dict_get (Some channel) (_channel_likes w) = Some v →
  _current_channel_like w = Some (oid v) →
  ∃ r v2 w',
    list_index channel (lb_items (_channel_selector w)) = Some r ∧ 0 < r ∧
    handle_event (self_parted channel) w = (Ok true, w') ∧ wf w' ∧
    _channel_likes w' = dict_del (Some channel) (_channel_likes w) ∧
    lb_items (_channel_selector w')
    = delete r (lb_items (_channel_selector w)) ∧
    dict_get
      (row_key (if decide (r = length (lb_items (_channel_selector w)) - 1)
                then r - 1 else r + 1) (_channel_selector w))
      (_channel_likes w) = Some v2 ∧
    oid v2 ≠ oid v ∧
    _current_channel_like w' = Some (oid v2).
Proof.
  intros Hwf Hv Hcur.
  destruct (select_something_else_active w channel v Hwf Hv Hcur)
    as (a & v2 & Hidx & Hlt & Hv2 & Hoid & Hsel & Hwf1).
  destruct (remove_entry_spec _ channel v Hwf1 Hv) as (a' & Hidx' & Hrm & Hwf');
    [simpl; congruence|].
  simpl in Hidx'. rewrite Hidx in Hidx'. injection Hidx' as <-.
  exists (S a), v2. eexists.
  split; [done|]. split; [lia|].
  split.
  { unfold handle_event. munfold. rewrite Hv. unfold remove_channel_like.
    rewrite (wf_name_of w _ _ Hwf Hv). munfold. rewrite Hsel, Hrm. done. }
  split; [done|]. split; [done|]. split; [done|]. split; [done|].
  split; done.
Qed.

Lemma parting_the_current_view_witness :
  ∃ r v2 w',
    list_index "#test" (lb_items (_channel_selector test_widget)) = Some r ∧
    0 < r ∧
    handle_event (self_parted "#test") test_widget = (Ok true, w') ∧ wf w' ∧
    _channel_likes w' = dict_del (Some "#test") (_channel_likes test_widget) ∧
    lb_items (_channel_selector w')
    = delete r (lb_items (_channel_selector test_widget)) ∧
    dict_get
      (row_key
         (if decide (r = length (lb_items (_channel_selector test_widget)) - 1)
          then r - 1 else r + 1) (_channel_selector test_widget))
      (_channel_likes test_widget) = Some v2 ∧
    oid v2 ≠ 1 ∧
    _current_channel_like w' = Some (oid v2).
Proof.
  apply (parting_the_current_view test_widget "#test"
           (mkView 1 (Some "#test") [] (Some ["alice"; "bob"])
              (Some (mkListbox ["alice"; "bob"] [])))).
  - apply wf_after_main. apply (bool_decide_unpack _). vm_compute. exact I.
  - vm_compute. reflexivity.
  - vm_compute. reflexivity.
Defined.

(** * The selection of the member list *)

Lemma elem_of_sel_add k i sel : k ∈ sel_add i sel ↔ k = i ∨ k ∈ sel.
Proof.
  induction sel as [|j sel IH]; simpl.
  - rewrite list_elem_of_singleton. set_solver.
  - repeat case_decide; subst; rewrite ?elem_of_cons, ?IH; set_solver.
Qed.

(** X21: [_userlist_replace] carries the selection of the list box over
    from the old nick to the new one: in a list box that has a row for
    each member, the row of the new nick shows the new nick, and it is
    selected afterwards exactly when the row of the old nick was
    selected before. *)
Theorem replace_keeps_selection old new v v' ul lb :
  userlist v = Some ul → userlistbox v = Some lb →
  length (lb_items lb) = length ul →
  _userlist_replace old new v = Ok v' →
  ∃ i j ul' lb',
    list_index old ul = Some i ∧
    userlist v' = Some ul' ∧ userlistbox v' = Some lb' ∧
    list_index new ul' = Some j ∧
    lb_items lb' !! j = Some new ∧
    (j ∈ lb_selection lb' ↔ i ∈ lb_selection lb).
Proof.
  intros Hul Hlb Hlen. unfold _userlist_replace, users_of, index_or_raise.
  rewrite Hul, Hlb. simpl.
  destruct (list_index old ul) as [i|] eqn:Hi; simpl; [|done].
  destruct (list_index new (list_sort id (<[i:=new]> ul))) as [j|] eqn:Hj;
    simpl; [|done].
  intros [= <-]. exists i, j. do 2 eexists.
  split; [done|]. split; [done|]. split; [done|]. split; [done|].
  assert (i < length ul) as Hlti.
  { apply list_index_Some in Hi. by apply lookup_lt_Some in Hi. }
  assert (j < length ul) as Hltj.
  { apply list_index_Some, lookup_lt_Some in Hj.
    by rewrite (Permutation_length (list_sort_perm id _)), length_insert in Hj. }
  assert (length (delete i (lb_items lb)) = length ul - 1) as Hdel.
  { rewrite length_delete; [lia|]. apply lookup_lt_is_Some. lia. }
  assert (∀ sel : list nat,
            j ∉ (λ k, if decide (j ≤ k) then S k else k) <$> sel) as Hfresh.
  { intros sel (k & Hk & _)%list_elem_of_fmap. case_decide; lia. }
  assert ((take j (delete i (lb_items lb))
           ++ new :: drop j (delete i (lb_items lb))) !! j = Some new) as Hrow.
  { rewrite lookup_app_r; rewrite length_take; [|lia].
    replace (j - j `min` length (delete i (lb_items lb))) with 0 by lia.
    done. }
  unfold lb_curselection.
  destruct (bool_decide (i ∈ lb_selection lb)) eqn:Hsel.
  - apply bool_decide_eq_true in Hsel.
    unfold lb_selection_set, lb_insert. simpl.
    rewrite bool_decide_eq_true_2.
    + simpl. split; [done|]. rewrite elem_of_sel_add, Nat2Z.id. tauto.
    + rewrite length_app. simpl. rewrite length_take, length_drop. lia.
  - apply bool_decide_eq_false in Hsel. unfold lb_insert. simpl.
    split; [done|]. split; [|done]. intros Hin. by apply Hfresh in Hin.
Qed.

Lemma replace_keeps_selection_witness :
  ∃ i j ul' lb',
    list_index "bob" ["alice"; "bob"; "carol"] = Some i ∧
    userlist (mkView 1 (Some "#test") [] (Some ["alice"; "carol"; "dan"])
                (Some (mkListbox ["alice"; "carol"; "dan"] [2]))) = Some ul' ∧
    userlistbox (mkView 1 (Some "#test") [] (Some ["alice"; "carol"; "dan"])
                   (Some (mkListbox ["alice"; "carol"; "dan"] [2]))) = Some lb' ∧
    list_index "dan" ul' = Some j ∧
    lb_items lb' !! j = Some "dan" ∧
    (j ∈ lb_selection lb'
     ↔ i ∈ lb_selection (mkListbox ["alice"; "bob"; "carol"] [1])).
Proof.
  apply (replace_keeps_selection "bob" "dan"
           (mkView 1 (Some "#test") [] (Some ["alice"; "bob"; "carol"])
              (Some (mkListbox ["alice"; "bob"; "carol"] [1])))
           _ ["alice"; "bob"; "carol"]
           (mkListbox ["alice"; "bob"; "carol"] [1])).
  - reflexivity.
  - reflexivity.
  - reflexivity.
  - vm_compute. reflexivity.
Defined.
